(** * The weather proxy server: cache, retry policy and 15-minute resampler

    A shallow embedding of the Express server of the repository (the file
    with the four routes [/api/forecast], [/api/air-quality],
    [/api/climate] and [/api/marine]) and the properties its specification
    states about it.

    Conventions of the embedding.
    - A JavaScript number that carries a measurement or a coordinate is an
      IEEE-754 binary64 value: Rocq's primitive [float], whose operations
      are the ones the JavaScript engine runs.
    - Instants (milliseconds since the epoch, as [Date.now()] and
      [Date.prototype.getTime] return them), counters and HTTP status codes
      are integers below 2^53 in the source and are modelled in [Z]; the
      arithmetic the source does on them is exact in that range.
    - [null] and [undefined] are kept apart wherever the source can tell
      them apart ([jsval]); a numeric cell of an upstream array is an
      [option float], [None] standing for a cell that is [null] or missing.
    - Asynchronous code is sequential here: every [await] is a step of a
      state-and-exception monad over a [world] that holds the clock, the
      upstream's scripted behaviour, the random source and the cache.
    - An exception of a builtin is modelled where the request decides
      whether it is thrown: the [RangeError] of [toISOString] on an instant
      that is no time value of a [Date], and the one of [push] on a full
      array, in the loop over the window a marine request asks for. *)

From Stdlib Require Import ZArith Floats String Ascii List Lia.
From stdpp Require Import gmap strings list fin_maps sorting pretty.

#[local] Set Warnings "-register-all,-inexact-float".
#[local] Open Scope Z_scope.

(** ** Numbers *)

Module Num.

(** The double nearest to an integer (exact below 2^53). *)
Definition Z2F (z : Z) : float :=
  SF2Prim (binary_normalize prec emax z 0 false).

(** The integer part of a finite double, [0] for NaN and the infinities. *)
Definition F2Z (x : float) : Z :=
  match Prim2SF x with
  | S754_finite s m e =>
      let n := if 0 <=? e then Z.pos m * 2 ^ e else Z.pos m / 2 ^ (- e) in
      if s then - n else n
  | _ => 0
  end.

(** [Math.pow(2, k)] for a natural [k]: doubling is exact. *)
Definition pow2 (k : nat) : float :=
  Nat.iter k (fun x => x * 2)%float 1%float.

(** [Math.round]: the nearest integer, ties towards +infinity, computed
    on the exact value [n * 2^e] of the double. *)
Definition Math_round (x : float) : float :=
  match Prim2SF x with
  | S754_finite s m e =>
      if 0 <=? e then x
      else
        let n := if s then Z.neg m else Z.pos m in
        let r := (2 * n + 2 ^ (- e)) / 2 ^ (1 - e) in
        if r =? 0 then (if s then PrimFloat.neg_zero else PrimFloat.zero) else Z2F r
  | _ => x
  end.

(** A number is falsy when it is [0], [-0] or [NaN]. *)
Definition num_truthy (x : float) : bool :=
  negb (PrimFloat.eqb x 0 || PrimFloat.is_nan x).

(** The value of the decimal literal [m * 10^e10], correctly rounded. *)
Definition decimal_to_float (neg : bool) (m e10 : Z) : float :=
  match m with
  | Z.pos p =>
      if 0 <=? e10
      then SF2Prim (binary_round prec emax neg (p * Z.to_pos (10 ^ e10)) 0)
      else SF2Prim (SFdiv prec emax (S754_finite neg p 0)
                      (S754_finite false (Z.to_pos (10 ^ (- e10))) 0))
  | _ => if neg then PrimFloat.neg_zero else PrimFloat.zero
  end.

(** [Number(x.toFixed(1))]: [x] rounded to one decimal place (the larger
    candidate on a tie, on the magnitude of the exact value), read back. *)
Definition toFixed1 (x : float) : float :=
  match Prim2SF x with
  | S754_finite s m e =>
      let n := if 0 <=? e then 10 * Z.pos m * 2 ^ e
               else (20 * Z.pos m + 2 ^ (- e)) / 2 ^ (1 - e) in
      decimal_to_float s n (-1)
  | S754_zero _ => PrimFloat.zero
  | _ => x
  end.

(** [Math.PI] *)
Definition PI : float := 0x1.921fb54442d18p+1%float.

End Num.

(** ** Strings: the builtins the handlers call *)

Module Str.

(** The white space [trim], [parseFloat] and [parseInt] skip, among the
    ASCII characters: tab, line feed, vertical tab, form feed, carriage
    return and space. The strings of the model are the ASCII ones. *)
Definition is_ws (c : ascii) : bool :=
  let n := nat_of_ascii c in
  ((9 <=? n)%nat && (n <=? 13)%nat) || (n =? 32)%nat.

Definition digit_val (c : ascii) : option Z :=
  let n := nat_of_ascii c in
  if ((48 <=? n)%nat && (n <=? 57)%nat) then Some (Z.of_nat n - 48) else None.

Fixpoint skip_ws (s : string) : string :=
  match s with
  | String c r => if is_ws c then skip_ws r else s
  | EmptyString => s
  end.

(** Reads the longest run of decimal digits: the accumulated value, the
    number of digits read and the rest of the string. *)
Fixpoint take_digits (s : string) (acc : Z) (n : Z) : Z * Z * string :=
  match s with
  | String c r =>
      match digit_val c with
      | Some d => take_digits r (10 * acc + d) (n + 1)
      | None => (acc, n, s)
      end
  | EmptyString => (acc, n, s)
  end.

Definition take_sign (s : string) : bool * string :=
  match s with
  | String "-" r => (true, r)
  | String "+" r => (false, r)
  | _ => (false, s)
  end.

(** [parseFloat(s)]: leading white space, an optional sign, then
    [Infinity] or the longest decimal literal; NaN when there is none. *)
Definition parseFloat_str (s : string) : float :=
  let '(neg, s0) := take_sign (skip_ws s) in
  if String.prefix "Infinity" s0
  then (if neg then PrimFloat.neg_infinity else PrimFloat.infinity)
  else
    let '(ip, ni, s1) := take_digits s0 0 0 in
    let '(m, nf, s2) :=
      match s1 with
      | String "." r => take_digits r ip 0
      | _ => (ip, 0, s1)
      end in
    if ni + nf =? 0 then PrimFloat.nan
    else
      let ex :=
        match s2 with
        | String c r =>
            if (Ascii.eqb c "e" || Ascii.eqb c "E")%bool then
              let '(eneg, r') := take_sign r in
              let '(ev, ne, _) := take_digits r' 0 0 in
              if ne =? 0 then 0 else if eneg then - ev else ev
            else 0
        | EmptyString => 0
        end in
      Num.decimal_to_float neg m (ex - nf).

(** [parseFloat] of a query parameter: a missing one reads as
    ["undefined"], which is no number. *)
Definition parseFloat (o : option string) : float :=
  match o with
  | Some s => parseFloat_str s
  | None => PrimFloat.nan
  end.

(** [parseInt(s, 10)]: [None] is NaN. The result is the integer the
    digits denote, which is the double the builtin returns as long as it
    is below 2^53. *)
Definition parseInt (s : string) : option Z :=
  let '(neg, s0) := take_sign (skip_ws s) in
  let '(v, n, _) := take_digits s0 0 0 in
  if n =? 0 then None else Some (if neg then - v else v).

Definition lower_ascii (c : ascii) : ascii :=
  let n := nat_of_ascii c in
  if ((65 <=? n)%nat && (n <=? 90)%nat) then ascii_of_nat (n + 32) else c.

(** [s.toLowerCase()] (on ASCII letters). *)
Fixpoint toLowerCase (s : string) : string :=
  match s with
  | String c r => String (lower_ascii c) (toLowerCase r)
  | EmptyString => EmptyString
  end.

Fixpoint all_ws (s : string) : bool :=
  match s with
  | String c r => is_ws c && all_ws r
  | EmptyString => true
  end.

Fixpoint drop_trailing_ws (s : string) : string :=
  match s with
  | String c r => if all_ws s then EmptyString else String c (drop_trailing_ws r)
  | EmptyString => EmptyString
  end.

(** [s.trim()] (on ASCII white space). *)
Definition trim (s : string) : string := drop_trailing_ws (skip_ws s).

(** [n] decimal digits of [z], zero padded. *)
Fixpoint digits (n : nat) (z : Z) : string :=
  match n with
  | O => EmptyString
  | S n' => digits n' (z / 10) +:+ String (ascii_of_nat (Z.to_nat (48 + z mod 10))) EmptyString
  end.

(** Year, month and day (UTC, proleptic Gregorian) of an instant. *)
Definition utc_date (ms : Z) : Z * Z * Z :=
  let z := ms / 86400000 + 719468 in
  let era := z / 146097 in
  let doe := z - era * 146097 in
  let yoe := (doe - doe / 1460 + doe / 36524 - doe / 146096) / 365 in
  let doy := doe - (365 * yoe + yoe / 4 - yoe / 100) in
  let mp := (5 * doy + 2) / 153 in
  let d := doy - (153 * mp + 2) / 5 + 1 in
  let m := if mp <? 10 then mp + 3 else mp - 9 in
  (yoe + era * 400 + (if m <=? 2 then 1 else 0), m, d).

(** [new Date(ms).getUTCFullYear()] *)
Definition getUTCFullYear (ms : Z) : Z := (utc_date ms).1.1.

(** The time values a [Date] holds: at most 8.64e15 milliseconds on either
    side of the epoch. [new Date(ms)] of any other number is an invalid
    date, whose [toISOString()] throws a [RangeError]. *)
Definition maxTime : Z := 8640000000000000.

Definition valid_time (ms : Z) : bool := (- maxTime <=? ms) && (ms <=? maxTime).

(** [new Date(ms).toISOString()] of a time value [ms]:
    [YYYY-MM-DDTHH:mm:ss.sssZ], with a signed six-digit year outside
    0..9999. A caller whose [ms] comes from the request tests
    [valid_time ms] first and throws where the builtin does. *)
Definition toISOString (ms : Z) : string :=
  let '(y, m, d) := utc_date ms in
  let rest := ms mod 86400000 in
  let year :=
    if (0 <=? y) && (y <=? 9999) then digits 4 y
    else (if y <? 0 then "-" else "+") +:+ digits 6 (Z.abs y) in
  year +:+ "-" +:+ digits 2 m +:+ "-" +:+ digits 2 d +:+ "T"
    +:+ digits 2 (rest / 3600000) +:+ ":"
    +:+ digits 2 (rest / 60000 mod 60) +:+ ":"
    +:+ digits 2 (rest / 1000 mod 60) +:+ "."
    +:+ digits 3 (rest mod 1000) +:+ "Z".

(** [s.slice(0, n)] *)
Fixpoint slice0 (n : nat) (s : string) : string :=
  match n, s with
  | S n', String c r => String c (slice0 n' r)
  | _, _ => EmptyString
  end.

End Str.

(** ** JavaScript values *)

Module Js.

Inductive jsval : Type :=
| JUndefined
| JNull
| JBool (b : bool)
| JNum (x : float)
| JStr (s : string)
| JArr (l : list jsval)
| JObj (o : gmap string jsval).

(** An object is a finite map from property names to values. *)
Abbreviation jsobj := (gmap string jsval).

(** [o.k]: a property the object does not have reads as [undefined]. *)
Definition obj_get (o : jsobj) (k : string) : jsval :=
  default JUndefined (o !! k).

Definition is_nullish (v : jsval) : bool :=
  match v with
  | JUndefined | JNull => true
  | _ => false
  end.

(** The truth value [if (v)], [!v], [v || w] and [v && w] test. *)
Definition truthy (v : jsval) : bool :=
  match v with
  | JUndefined | JNull => false
  | JBool b => b
  | JNum x => Num.num_truthy x
  | JStr s => negb (String.eqb s "")
  | JArr _ | JObj _ => true
  end.

(** [v || w] *)
Definition js_or (v w : jsval) : jsval := if truthy v then v else w.

(** [v.k] for an arbitrary value; [None] is the [TypeError] of reading a
    property of [null] or [undefined]. *)
Definition js_get (v : jsval) (k : string) : option jsval :=
  match v with
  | JUndefined | JNull => None
  | JObj o => Some (obj_get o k)
  | JArr l =>
      Some (if String.eqb k "length" then JNum (Num.Z2F (Z.of_nat (length l)))
            else JUndefined)
  | JStr s =>
      Some (if String.eqb k "length" then JNum (Num.Z2F (Z.of_nat (String.length s)))
            else JUndefined)
  | JBool _ | JNum _ => Some JUndefined
  end.

(** [v[0]] *)
Definition js_first (v : jsval) : option jsval :=
  match v with
  | JUndefined | JNull => None
  | JArr l => Some (default JUndefined (head l))
  | JObj o => Some (obj_get o "0")
  | JStr (String c _) => Some (JStr (String c EmptyString))
  | JStr EmptyString | JBool _ | JNum _ => Some JUndefined
  end.

(** [v === 0] *)
Definition is_zero (v : jsval) : bool :=
  match v with
  | JNum x => PrimFloat.eqb x 0
  | _ => false
  end.

(** [parseFloat(v)]: the argument is first turned into a string. A number
    prints to a literal that reads back as itself; an array prints as its
    elements joined by commas, so its first element decides. *)
Fixpoint parseFloat_val (v : jsval) : float :=
  match v with
  | JStr s => Str.parseFloat_str s
  | JNum x => x
  | JArr (v0 :: _) => parseFloat_val v0
  | _ => PrimFloat.nan
  end.

Definition num_or_null (o : option float) : jsval :=
  match o with
  | Some x => JNum x
  | None => JNull
  end.

(** What [throw] carries: an [Error] with its [name] and [message]. *)
Record js_error : Type := JsError { err_name : string; err_message : string }.

Definition Error (msg : string) : js_error := JsError "Error" msg.
Definition TypeError (msg : string) : js_error := JsError "TypeError" msg.
Definition RangeError (msg : string) : js_error := JsError "RangeError" msg.
Definition AbortError : js_error := JsError "AbortError" "This operation was aborted".
Definition SyntaxError : js_error := JsError "SyntaxError" "Unexpected token in JSON".

(** The most elements an array holds, 2^32 - 1: a [push] on an array of
    that length throws a [RangeError]. *)
Definition maxArrayLength : Z := 4294967295.

End Js.

Import Js.

(** ** The world a request runs in *)

Module Sys.

(** The upstream services, by the URL template the source fills in. *)
Inductive url : Type :=
| UrlNominatim (city : string)
| UrlForecast (lat lon : jsval)
| UrlForecastLight (lat lon : jsval)
| UrlAirQuality (lat lon : string)
| UrlClimate (lat lon startDate endDate : string)
| UrlMarine (lat lon : float) (hourly : list string).

(** What [fetch] resolves to: an HTTP response, whose body [B] is the
    value [resp.json()] parses ([None] when the body is no JSON). *)
Record response (B : Type) : Type := Response { status : Z; body : option B }.
Arguments Response {B}.
Arguments status {B}.
Arguments body {B}.

(** [resp.ok] *)
Definition ok {B} (r : response B) : bool := (200 <=? status r) && (status r <=? 299).

Inductive fetch_outcome (B : Type) : Type :=
| Responds (r : response B)
| Rejects (e : js_error).
Arguments Responds {B}.
Arguments Rejects {B}.

(** One scripted call of [fetch]: how long the upstream takes and what it
    then does. *)
Record served (B : Type) : Type := Served { latency : Z; outcome : fetch_outcome B }.
Arguments Served {B}.
Arguments latency {B}.
Arguments outcome {B}.

Inductive event : Type :=
| EvFetch (u : url) (timeout : Z)
| EvSleep (delay : float).

(** Modelled from the spec: the Response Cache is the [node-cache]
    package, which is not part of the repository's sources. An entry is a
    stored payload with the instant it expires at; [get] and [set] below
    follow the spec's contract ([get(key) -> value | absent],
    [set(key, value, ttlSeconds)], a read never returns an entry whose
    expiry has passed). Lazy eviction and the periodic sweep only remove
    entries no read would return, and are not modelled. *)
Record cache_entry : Type := CacheEntry { value : jsobj; expiresAt : Z }.

Record world (B : Type) : Type := World {
  clock : Z;                      (* what [Date.now()] returns *)
  upstream : nat -> served B;     (* what the n-th call of [fetch] does *)
  fetches : nat;                  (* calls of [fetch] so far *)
  random : nat -> float;          (* what the n-th [Math.random()] returns *)
  draws : nat;                    (* calls of [Math.random] so far *)
  cache : gmap string cache_entry;
  USE_MOCK : option string;       (* [process.env.USE_MOCK] *)
  trace : list event              (* fetches and sleeps, oldest first *)
}.
Arguments World {B}.
Arguments clock {B}.
Arguments upstream {B}.
Arguments fetches {B}.
Arguments random {B}.
Arguments draws {B}.
Arguments cache {B}.
Arguments USE_MOCK {B}.
Arguments trace {B}.

Inductive result (A : Type) : Type :=
| Ok (a : A)
| Throw (e : js_error).
Arguments Ok {A}.
Arguments Throw {A}.

(** A computation that may read and change the world, and may throw. *)
Definition M (B A : Type) : Type := world B -> result A * world B.

Definition ret {B A} (a : A) : M B A := fun w => (Ok a, w).
Definition throw {B A} (e : js_error) : M B A := fun w => (Throw e, w).

Definition bind {B A C} (m : M B A) (k : A -> M B C) : M B C :=
  fun w =>
    match m w with
    | (Ok a, w') => k a w'
    | (Throw e, w') => (Throw e, w')
    end.

(** [try { m } catch (e) { h e }] *)
Definition try_catch {B A} (m : M B A) (h : js_error -> M B A) : M B A :=
  fun w =>
    match m w with
    | (Ok a, w') => (Ok a, w')
    | (Throw e, w') => h e w'
    end.

(** The outcome of [m], with a thrown error caught as a value. *)
Definition attempt_of {B A} (m : M B A) : M B (result A) :=
  fun w => let '(r, w') := m w in (Ok r, w').

Declare Scope js_scope.
Delimit Scope js_scope with js.
Notation "'do' x <- m ;; k" := (bind m (fun x => k))
  (at level 10, x name, m at level 99, k at level 200) : js_scope.
Notation "'exec' m ;; k" := (bind m (fun _ => k))
  (at level 10, m at level 99, k at level 200) : js_scope.

(** [Date.now()] *)
Definition Date_now {B} : M B Z := fun w => (Ok (clock w), w).

(** [Math.random()] *)
Definition Math_random {B} : M B float :=
  fun w =>
    (Ok (random w (draws w)),
     World (clock w) (upstream w) (fetches w) (random w) (S (draws w))
       (cache w) (USE_MOCK w) (trace w)).

(** The time a timer waits: Node replaces a delay that is not between 1
    and 2^31 - 1 by 1 (the integer part of a delay that passes this test
    is at least 1). *)
Definition timer_ms (delay : float) : Z :=
  if (PrimFloat.leb 1 delay && PrimFloat.leb delay 2147483647)%bool
  then Z.max 1 (Num.F2Z delay) else 1.

(** [await new Promise((r) => setTimeout(r, delay))] *)
Definition sleep {B} (delay : float) : M B unit :=
  fun w =>
    (Ok tt,
     World (clock w + timer_ms delay) (upstream w) (fetches w) (random w) (draws w)
       (cache w) (USE_MOCK w) (trace w ++ [EvSleep delay])).

(** [process.env.USE_MOCK === 'true'] *)
Definition mock_forced {B} : M B bool :=
  fun w => (Ok (bool_decide (USE_MOCK w = Some "true")), w).

(** [cache.get(key)]: the stored value while the entry has not expired. *)
Definition cache_get {B} (key : string) : M B (option jsobj) :=
  fun w =>
    (Ok (match cache w !! key with
         | Some e => if expiresAt e <? clock w then None else Some (value e)
         | None => None
         end), w).

(** The default TTL the cache is created with: [stdTTL: 60 * 10]. *)
Definition stdTTL : Z := 60 * 10.

(** [cache.set(key, value, ttl)], the TTL in seconds. *)
Definition cache_set {B} (key : string) (v : jsobj) (ttl : Z) : M B unit :=
  fun w =>
    (Ok tt,
     World (clock w) (upstream w) (fetches w) (random w) (draws w)
       (<[key := CacheEntry v (clock w + ttl * 1000)]> (cache w))
       (USE_MOCK w) (trace w)).

(** [await resp.json()]. The time the body takes to arrive is not
    modelled: the clock moves with the calls of [fetch] and the timers
    only, so it bounds the time a request takes from below. *)
Definition json {B} (r : response B) : M B B :=
  match body r with
  | Some b => ret b
  | None => throw SyntaxError
  end.

End Sys.

Import Sys.
#[local] Open Scope js_scope.

(** ** The upstream client *)

Module Net.

Section Fetch.
Context {B : Type}.

(** [fetchWithTimeout(url, opts, timeout)]: the call is aborted when the
    deadline timer fires before the upstream has answered. *)
Definition fetchWithTimeout (u : url) (timeout : Z) : M B (response B) :=
  fun w =>
    let s := upstream w (fetches w) in
    let answered := latency s <? timeout in
    let w' :=
      World (clock w + (if answered then Z.max 0 (latency s) else timeout))
        (upstream w) (S (fetches w)) (random w) (draws w)
        (cache w) (USE_MOCK w) (trace w ++ [EvFetch u timeout]) in
    if answered then
      match outcome s with
      | Responds r => (Ok r, w')
      | Rejects e => (Throw e, w')
      end
    else (Throw AbortError, w').

(** The delay before the retry that follows attempt number [attempt]
    (counted from 1), [r] being the value [Math.random()] returned. *)
Definition backoff_delay (backoffBase : float) (attempt : nat) (r : float) : float :=
  Num.Math_round (backoffBase * Num.pow2 (attempt - 1) * (0.75 + r * 0.5))%float.

Definition unknown_error : js_error := Error "fetchWithRetries: unknown error".

(** The loop of [fetchWithRetries], from the test [attempt <= retries];
    [fuel] bounds the number of iterations. *)
Fixpoint retry_loop (fuel : nat) (u : url) (timeout : Z) (retries : nat)
    (backoffBase : float) (attempt : nat) (lastErr : option js_error)
    : M B (response B) :=
  match fuel with
  | O => throw (default unknown_error lastErr)
  | S fuel' =>
      if (attempt <=? retries)%nat then
        do r <- attempt_of (fetchWithTimeout u timeout) ;;
        let verdict : response B + option js_error :=
          match r with
          | Ok resp =>
              if ok resp || (status resp <? 500) then inl resp
              else inr (Some (Error ("Upstream responded " +:+ pretty (status resp))))
          | Throw err => inr (Some err)
          end in
        match verdict with
        | inl resp => ret resp
        | inr lastErr' =>
            let attempt' := S attempt in
            if (retries <? attempt')%nat then throw (default unknown_error lastErr')
            else
              do x <- Math_random ;;
              exec sleep (backoff_delay backoffBase attempt' x) ;;
              retry_loop fuel' u timeout retries backoffBase attempt' lastErr'
        end
      else throw (default unknown_error lastErr)
  end.

(** [fetchWithRetries(url, opts, timeout, retries = 2, backoffBase = 300)] *)
Definition fetchWithRetries (u : url) (timeout : Z) (retries : nat)
    (backoffBase : float) : M B (response B) :=
  retry_loop (S retries) u timeout retries backoffBase 0 None.

End Fetch.

End Net.

(** ** The series resampler of [/api/marine] *)

Module Resampler.

(** The parts of the upstream's JSON the route reads. A [time] array is
    given by the instants its strings denote ([new Date(t).getTime()]);
    a numeric array by its cells, [None] for [null]. A field that is
    [None] is a property the JSON does not have. *)
Record Minutely : Type := {
  mn_time : option (list Z);
  mn_shortwave_radiation : option (list (option float));
  mn_other_keys : nat             (* own properties besides these two *)
}.

Record Hourly : Type := {
  hr_time : option (list Z);
  hr_wave_height : option (list (option float));
  hr_windspeed_10m : option (list (option float));
  hr_shortwave_radiation : option (list (option float));
  hr_significant_wave_period : option (list (option float));
  hr_swell_height : option (list (option float))
}.

Record MarineJson : Type := {
  mj_source : jsval;              (* the parsed body as a whole *)
  mj_latitude : jsval;
  mj_longitude : jsval;
  mj_minutely : option Minutely;
  mj_hourly : option Hourly
}.

(** The [series15] object. [time] holds the instants whose
    [toISOString()] the source pushes. *)
Record Series15 : Type := {
  time : list Z;
  shortwave_radiation : list jsval;
  wave_height : list jsval;
  windspeed_10m : list jsval;
  significant_wave_period : list jsval;
  swell_height : list jsval
}.

Definition stepMs : Z := 15 * 60 * 1000.

(** [series15 = { time: [], shortwave_radiation: [], ... }] *)
Definition empty_series : Series15 :=
  {| time := []; shortwave_radiation := []; wave_height := [];
     windspeed_10m := []; significant_wave_period := []; swell_height := [] |}.

(** [arr[i] != null ? Number(arr[i]) : null], for [arr = field || []] *)
Definition cell (arr : option (list (option float))) (i : nat) : option float :=
  match arr with
  | Some l => mjoin (l !! i)
  | None => None
  end.

(** *** Path A: bucket aggregation *)

Record bucket : Type := Bucket { sum : float; count : Z }.

(** [t < bound] and [t > bound], false when the bound is NaN ([None]). *)
Definition lt_bound (t : Z) (bound : option Z) : bool :=
  match bound with Some b => t <? b | None => false end.
Definition gt_bound (t : Z) (bound : option Z) : bool :=
  match bound with Some b => b <? t | None => false end.

(** [Math.floor(t / stepMs) * stepMs] *)
Definition bucket_of (t : Z) : Z := t / stepMs * stepMs.

(** What sample [i] adds to its bucket's sum. *)
Definition contribution (sw : option (list (option float))) (i : nat) : float :=
  default 0%float (cell sw i).

(** The loop over [minTimes], from index [i] on. *)
Fixpoint fill_buckets (sw : option (list (option float)))
    (startTs endTs : option Z) (i : nat) (minTimes : list Z)
    (buckets : gmap Z bucket) : gmap Z bucket :=
  match minTimes with
  | [] => buckets
  | t :: rest =>
      fill_buckets sw startTs endTs (S i) rest
        (if lt_bound t startTs || gt_bound t endTs then buckets
         else
           let b := default (Bucket 0 0) (buckets !! bucket_of t) in
           <[bucket_of t := Bucket (sum b + contribution sw i) (count b + 1)]> buckets)
  end.

(** [Object.keys(buckets).map(k => parseInt(k, 10)).sort((a, b) => a - b)] *)
Definition sorted_keys (buckets : gmap Z bucket) : list Z :=
  merge_sort Z.le (map_to_list buckets).*1.

(** [b.count ? (b.sum / b.count) : null] *)
Definition bucket_mean (b : bucket) : jsval :=
  if count b =? 0 then JNull else JNum (sum b / Num.Z2F (count b)).

(** The loop over the sorted keys; [None] is the [TypeError] of reading
    [count] of a bucket that is not there. A key is the floor of an
    instant of the upstream's [time] array, and the floor of a time value
    is a time value, so [new Date(k).toISOString()] does not throw here. *)
Fixpoint emit_buckets (buckets : gmap Z bucket) (keys : list Z) (s : Series15)
    : option Series15 :=
  match keys with
  | [] => Some s
  | k :: rest =>
      match buckets !! k with
      | Some b =>
          emit_buckets buckets rest
            {| time := time s ++ [k];
               shortwave_radiation := shortwave_radiation s ++ [bucket_mean b];
               wave_height := wave_height s;
               windspeed_10m := windspeed_10m s;
               significant_wave_period := significant_wave_period s;
               swell_height := swell_height s |}
      | None => None
      end
  end.

Definition path_a (minutely : Minutely) (startTs endTs : option Z) : option Series15 :=
  let minTimes := default [] (mn_time minutely) in
  let buckets :=
    fill_buckets (mn_shortwave_radiation minutely) startTs endTs 0 minTimes ∅ in
  emit_buckets buckets (sorted_keys buckets) empty_series.

(** *** Path B: interpolation of the hourly series *)

Record point : Type := {
  ts : Z;
  wave : option float;
  wind : option float;
  sw : option float;
  period : option float;
  swell : option float
}.

(** [times.map((t, i) => ({ ts: ..., wave: ..., ... }))], from index [i] on *)
Fixpoint make_points (h : Hourly) (i : nat) (times : list Z) : list point :=
  match times with
  | [] => []
  | t :: rest =>
      {| ts := t;
         wave := cell (hr_wave_height h) i;
         wind := cell (hr_windspeed_10m h) i;
         sw := cell (hr_shortwave_radiation h) i;
         period := cell (hr_significant_wave_period h) i;
         swell := cell (hr_swell_height h) i |} :: make_points h (S i) rest
  end.

(** [{ wave: ..., wind: ..., sw: ... }], the object [interp] returns *)
Definition triple (wave wind sw : option float) : jsobj :=
  <["wave" := num_or_null wave]>
    (<["wind" := num_or_null wind]> (<["sw" := num_or_null sw]> ∅)).

(** [(aVal == null || bVal == null) ? (aVal != null ? aVal : bVal)
      : (aVal + (bVal - aVal) * frac)] *)
Definition mix (frac : float) (aVal bVal : option float) : option float :=
  match aVal, bVal with
  | Some x, Some y => Some (x + (y - x) * frac)%float
  | Some _, None => aVal
  | None, _ => bVal
  end.

(** [while (i < points.length - 1 && points[i+1].ts < ts) i++] *)
Fixpoint scan (fuel : nat) (points : list point) (t : Z) (i : nat) : nat :=
  match fuel with
  | O => i
  | S fuel' =>
      if (S i <? length points)%nat
         && match points !! S i with Some p => ts p <? t | None => false end
      then scan fuel' points t (S i)
      else i
  end.

(** [interp(ts)]; [None] is the [TypeError] of reading a field of an
    [a] that is [undefined]. *)
Definition interp (points : list point) (t : Z) : option jsobj :=
  match head points, last points with
  | Some first, Some final =>
      if t <=? ts first then Some (triple (wave first) (wind first) (sw first))
      else if ts final <=? t then Some (triple (wave final) (wind final) (sw final))
      else
        let i := scan (length points) points t 0 in
        match points !! i, points !! S i with
        | Some a, Some b =>
            if ts a =? ts b then Some (triple (wave a) (wind a) (sw a))
            else
              let frac := (Num.Z2F (t - ts a) / Num.Z2F (ts b - ts a))%float in
              Some (triple (mix frac (wave a) (wave b)) (mix frac (wind a) (wind b))
                      (mix frac (sw a) (sw b)))
        | Some a, None => Some (triple (wave a) (wind a) (sw a))
        | None, _ => None
        end
  | _, _ => Some (triple None None None)
  end.

(** The instants [for (let ts = startTs; ts <= endTs; ts += stepMs)]
    visits; [fuel] bounds the number of iterations. *)
Fixpoint grid_from (fuel : nat) (t endTs : Z) : list Z :=
  match fuel with
  | O => []
  | S fuel' => if t <=? endTs then t :: grid_from fuel' (t + stepMs) endTs else []
  end.

Definition grid (startTs endTs : Z) : list Z :=
  grid_from (Z.to_nat ((endTs - startTs) / stepMs + 1)) startTs endTs.

(** The body of that loop, over the instants still to visit. It throws
    where the source does: the [TypeError] of [interp], the [RangeError]
    of [new Date(ts).toISOString()] for a [ts] that is no time value, and
    the [RangeError] of a [push] on an array that is full. *)
Fixpoint fill_series (points : list point) (instants : list Z) (s : Series15)
    : result Series15 :=
  match instants with
  | [] => Ok s
  | t :: rest =>
      match interp points t with
      | Some v =>
          if negb (Str.valid_time t) then Throw (RangeError "Invalid time value")
          else if maxArrayLength <=? Z.of_nat (length (time s))
          then Throw (RangeError "Invalid array length")
          else
            fill_series points rest
              {| time := time s ++ [t];
                 wave_height := wave_height s ++ [obj_get v "wave"];
                 windspeed_10m := windspeed_10m s ++ [obj_get v "wind"];
                 shortwave_radiation := shortwave_radiation s ++ [obj_get v "sw"];
                 significant_wave_period := significant_wave_period s ++ [obj_get v "period"];
                 swell_height := swell_height s ++ [obj_get v "swell"] |}
      | None => Throw (TypeError "Cannot read properties of undefined")
      end
  end.

(** [points], built from [json.hourly || {}] and [hourly.time || []] *)
Definition hourly_points (hourly : option Hourly) : list point :=
  match hourly with
  | Some h => make_points h 0 (default [] (hr_time h))
  | None => []
  end.

Definition path_b (hourly : option Hourly) (startTs endTs : Z) : result Series15 :=
  fill_series (hourly_points hourly) (grid startTs endTs) empty_series.

(** The windows whose every instant is a time value and whose grid fits
    an array: the ones that loop fills without a [RangeError]. *)
Definition fillable (startTs endTs : Z) : bool :=
  Str.valid_time startTs && Str.valid_time endTs
  && ((endTs - startTs) / stepMs <? maxArrayLength).

(** *** Choosing the path *)

(** [inSupportedRegion(lat, lon)] *)
Definition inSupportedRegion (lat lon : float) : bool :=
  if (PrimFloat.leb 15 lat && PrimFloat.leb lat 75
      && PrimFloat.leb (-170) lon && PrimFloat.leb lon (-50))%bool then true
  else if (PrimFloat.leb 35 lat && PrimFloat.leb lat 70
           && PrimFloat.leb (-10) lon && PrimFloat.leb lon 40)%bool then true
  else false.

(** [json.minutely && Object.keys(json.minutely).length > 0] *)
Definition hasMinutely (json : MarineJson) : bool :=
  match mj_minutely json with
  | Some m =>
      (0 <? (if mn_time m is Some _ then 1 else 0)
            + (if mn_shortwave_radiation m is Some _ then 1 else 0)
            + mn_other_keys m)%nat
  | None => false
  end.

(** [(forecastSteps + pastSteps) > 0], false when either is NaN *)
Definition wantMinutely15 (forecastSteps pastSteps : option Z) : bool :=
  match forecastSteps, pastSteps with
  | Some f, Some p => 0 <? f + p
  | _, _ => false
  end.

(** [now - pastSteps * stepMs] and [now + forecastSteps * stepMs] *)
Definition startTs_of (now : Z) (pastSteps : option Z) : option Z :=
  (fun p => now - p * stepMs) <$> pastSteps.
Definition endTs_of (now : Z) (forecastSteps : option Z) : option Z :=
  (fun f => now + f * stepMs) <$> forecastSteps.

(** Which part of the route builds [series15]. *)
Inductive path : Type := PathA | PathB | NoPath.

Definition chosen_path (json : MarineJson) (lat lon : float)
    (forecastSteps pastSteps : option Z) : path :=
  if hasMinutely json && inSupportedRegion lat lon then PathA
  else if wantMinutely15 forecastSteps pastSteps then PathB
  else NoPath.

(** The value of [series15] when the payload is built, [now] being what
    [Date.now()] returned: [Ok None] is [null], [Throw] an exception. *)
Definition build_series15 (json : MarineJson) (lat lon : float)
    (forecastSteps pastSteps : option Z) (now : Z) : result (option Series15) :=
  match chosen_path json lat lon forecastSteps pastSteps with
  | PathA =>
      match mj_minutely json with
      | Some minutely =>
          match path_a minutely (startTs_of now pastSteps) (endTs_of now forecastSteps) with
          | Some s => Ok (Some s)
          | None => Throw (TypeError "Cannot read properties of undefined")
          end
      | None => Throw (TypeError "Cannot read properties of undefined")
      end
  | PathB =>
      match forecastSteps, pastSteps with
      | Some f, Some p =>
          match path_b (mj_hourly json) (now - p * stepMs) (now + f * stepMs) with
          | Ok s => Ok (Some s)
          | Throw err => Throw err
          end
      | _, _ => Ok None
      end
  | NoPath => Ok None
  end.

End Resampler.

(** ** The four routes *)

Module Routes.

(** [res.status(code).json(payload)]; [payload] is the object handed to
    [res.json], whose [null]-valued properties the serialised body keeps. *)
Record http_response : Type := Reply { code : Z; payload : jsobj }.

(** [{ error: msg }] *)
Definition error_body (msg : string) : jsobj := {[ "error" := JStr msg ]}.

(** [{ ...payload, cached: b }] *)
Definition with_cached (b : bool) (o : jsobj) : jsobj := <["cached" := JBool b]> o.

(** The [catch (err)] every route ends with. *)
Definition failure (err : js_error) : http_response :=
  if String.eqb (err_name err) "AbortError"
  then Reply 504 (error_body "Upstream timed out")
  else Reply 500 (<["details" := JStr (err_message err)]> (error_body "Internal server error")).

(** [req.query.a || req.query.b] *)
Definition param (q : gmap string string) (a b : string) : option string :=
  match q !! a with
  | Some s => if String.eqb s "" then q !! b else Some s
  | None => q !! b
  end.

(** [req.query.a || dflt] *)
Definition param_or (q : gmap string string) (a dflt : string) : string :=
  match q !! a with
  | Some s => if String.eqb s "" then dflt else s
  | None => dflt
  end.

(** How a template literal prints an integer that may be NaN. *)
Definition show_int (o : option Z) : string :=
  match o with
  | Some z => pretty z
  | None => "NaN"
  end.

Section Routes.

(** Builtins of the host whose results the routes only pass on:
    [Number.prototype.toString], [Math.sin] and the hour of an instant in
    the server's time zone ([Date.prototype.getHours]). *)
Variable num_to_string : float -> string.
Variable Math_sin : float -> float.
Variable getHours : Z -> Z.

(** *** [/api/marine] *)

Definition hourlyParams : list string :=
  ["wave_height"; "windspeed_10m"; "winddirection_10m"; "shortwave_radiation";
   "significant_wave_period"; "swell_height"].
Definition safeParams : list string :=
  ["windspeed_10m"; "winddirection_10m"; "shortwave_radiation"].

(** [Math.max(0, parseInt(req.query.a || dflt, 10))] *)
Definition steps (q : gmap string string) (a dflt : string) : option Z :=
  Z.max 0 <$> Str.parseInt (param_or q a dflt).

Definition marine_key (lat lon : float) (forecastSteps pastSteps : option Z) : string :=
  "marine:" +:+ num_to_string lat +:+ ":" +:+ num_to_string lon +:+ ":"
    +:+ show_int forecastSteps +:+ ":" +:+ show_int pastSteps.

Definition series15_js (s : Resampler.Series15) : jsval :=
  JObj (<["time" := JArr ((fun t => JStr (Str.toISOString t)) <$> Resampler.time s)]>
       (<["shortwave_radiation" := JArr (Resampler.shortwave_radiation s)]>
       (<["wave_height" := JArr (Resampler.wave_height s)]>
       (<["windspeed_10m" := JArr (Resampler.windspeed_10m s)]>
       (<["significant_wave_period" := JArr (Resampler.significant_wave_period s)]>
       (<["swell_height" := JArr (Resampler.swell_height s)]> ∅)))))).

(** [{ latitude: json.latitude || lat, longitude: json.longitude || lon,
       source: json, series15 }] *)
Definition marine_payload (json : Resampler.MarineJson) (lat lon : float)
    (series15 : option Resampler.Series15) : jsobj :=
  <["latitude" := js_or (Resampler.mj_latitude json) (JNum lat)]>
  (<["longitude" := js_or (Resampler.mj_longitude json) (JNum lon)]>
  (<["source" := Resampler.mj_source json]>
  (<["series15" := match series15 with
                   | Some s => series15_js s
                   | None => JNull
                   end]> ∅))).

(** The [try] block of the route. *)
Definition marine_try (lat lon : float) (forecastSteps pastSteps : option Z)
    (cacheKey : string) : M Resampler.MarineJson http_response :=
  do first <- Net.fetchWithTimeout (UrlMarine lat lon hourlyParams) 12000 ;;
  do resp <-
    (if ok first then ret first
     else
       do second <- Net.fetchWithTimeout (UrlMarine lat lon safeParams) 12000 ;;
       if ok second then ret second
       else throw (Error ("Upstream failed: " +:+ pretty (status second)))) ;;
  do json <- Sys.json resp ;;
  do now <- Date_now ;;
  match Resampler.build_series15 json lat lon forecastSteps pastSteps now with
  | Ok series15 =>
      let payload := marine_payload json lat lon series15 in
      exec cache_set cacheKey payload (60 * 5) ;;
      ret (Reply 200 (with_cached false payload))
  | Throw err => throw err
  end.

(** [parseFloat(req.query.lat || req.query.latitude)] and the same for
    the longitude *)
Definition marine_lat (q : gmap string string) : float :=
  Str.parseFloat (param q "lat" "latitude").
Definition marine_lon (q : gmap string string) : float :=
  Str.parseFloat (param q "lon" "longitude").

Definition marine (q : gmap string string) : M Resampler.MarineJson http_response :=
  let lat := marine_lat q in
  let lon := marine_lon q in
  if PrimFloat.is_nan lat || PrimFloat.is_nan lon
  then ret (Reply 400 (error_body "Missing or invalid lat/lon"))
  else
    let forecastSteps := steps q "forecast_minutely_15" "96" in
    let pastSteps := steps q "past_minutely_15" "0" in
    let cacheKey := marine_key lat lon forecastSteps pastSteps in
    do cached <- cache_get cacheKey ;;
    match cached with
    | Some stored => ret (Reply 200 (with_cached true stored))
    | None =>
        try_catch (marine_try lat lon forecastSteps pastSteps cacheKey)
          (fun err => ret (failure err))
    end.

(** *** [/api/forecast] *)

Section Mock.
Context {B : Type}.

(** The five values one pass of the hourly loop pushes. *)
Definition mock_hourly_row (now : Z) (i : Z) : M B (list jsval) :=
  let t := now + i * 60 * 60 * 1000 in
  let hour := Num.Z2F (getHours t) in
  let base := (14 + Math_sin (hour / 24 * Num.PI * 2) * 6)%float in
  do r1 <- Math_random ;;
  let temperature := Num.toFixed1 (base + (r1 * 2 - 1)) in
  do r2 <- Math_random ;;
  do precipitation <-
    (if PrimFloat.ltb r2 0.15
     then do r3 <- Math_random ;; ret (Num.toFixed1 (r3 * 3))
     else ret 0%float) ;;
  do r4 <- Math_random ;;
  do wc <-
    (if PrimFloat.ltb r4 0.05 then ret 95%float
     else
       do r5 <- Math_random ;;
       if PrimFloat.ltb r5 0.1 then ret 51%float
       else
         do r6 <- Math_random ;;
         ret (if PrimFloat.ltb r6 0.2 then 3 else 0)%float) ;;
  do r7 <- Math_random ;;
  ret [JStr (Str.toISOString t); JNum temperature; JNum precipitation; JNum wc;
       JNum (Num.Math_round (5 + r7 * 15))].

(** The three values one pass of the daily loop pushes. *)
Definition mock_daily_row (now : Z) (d : Z) : M B (list jsval) :=
  let day := now + d * 24 * 60 * 60 * 1000 in
  do r1 <- Math_random ;;
  let highs := (18 + Num.Math_round (r1 * 6))%float in
  do r2 <- Math_random ;;
  let lows := (8 + Num.Math_round (r2 * 6))%float in
  ret [JStr (Str.slice0 10 (Str.toISOString day)); JNum highs; JNum lows].

(** [for (let i = first; i < first + n; i++) row(i)] *)
Fixpoint mock_rows (row : Z -> M B (list jsval)) (n : nat) (first : Z)
    : M B (list (list jsval)) :=
  match n with
  | O => ret []
  | S n' =>
      do r <- row first ;;
      do rs <- mock_rows row n' (first + 1) ;;
      ret (r :: rs)
  end.

(** The array a loop has filled with the [j]-th value of every pass. *)
Definition column (j : nat) (rows : list (list jsval)) : jsval :=
  JArr ((fun row => default JUndefined (row !! j)) <$> rows).

(** [parseFloat(v) || 0] *)
Definition coordinate_or_0 (v : jsval) : jsval :=
  let x := parseFloat_val v in
  JNum (if Num.num_truthy x then x else 0%float).

(** [generateMockForecast(lat, lon)] *)
Definition generateMockForecast (lat lon : jsval) : M B jsval :=
  do now <- Date_now ;;
  do hours <- mock_rows (mock_hourly_row now) 48 0 ;;
  do days <- mock_rows (mock_daily_row now) 7 0 ;;
  let first := default [] (head hours) in
  let cell j := default JUndefined (first !! j) in
  let hourly : jsobj :=
    <["time" := column 0 hours]> (<["temperature_2m" := column 1 hours]>
    (<["precipitation" := column 2 hours]> (<["weathercode" := column 3 hours]>
    (<["windspeed_10m" := column 4 hours]> ∅)))) in
  let daily : jsobj :=
    <["time" := column 0 days]> (<["temperature_2m_max" := column 1 days]>
    (<["temperature_2m_min" := column 2 days]> ∅)) in
  let is_day := if (6 <=? getHours now) && (getHours now <? 18) then 1%float else 0%float in
  let current : jsobj :=
    <["time" := cell 0%nat]> (<["temperature" := cell 1%nat]>
    (<["windspeed" := cell 4%nat]> (<["is_day" := JNum is_day]>
    (<["weathercode" := cell 3%nat]> (<["interval" := JNum 900]> ∅))))) in
  ret (JObj (<["latitude" := coordinate_or_0 lat]> (<["longitude" := coordinate_or_0 lon]>
            (<["current_weather" := JObj current]> (<["hourly" := JObj hourly]>
            (<["daily" := JObj daily]> ∅)))))).

End Mock.

(** [{ location, lat, lon, forecast }] *)
Definition forecast_payload (location lat lon forecast : jsval) : jsobj :=
  <["location" := location]> (<["lat" := lat]> (<["lon" := lon]>
  (<["forecast" := forecast]> ∅))).

(** [{ ...payload, cached: false, mock: true }] *)
Definition as_mock (o : jsobj) : jsobj := <["mock" := JBool true]> (with_cached false o).

Definition forecast_key (city : string) : string := "forecast:" +:+ Str.toLowerCase city.

(** [v.k], throwing when [v] is [null] or [undefined]. *)
Definition prop {B} (v : jsval) (k : string) : M B jsval :=
  match js_get v k with
  | Some x => ret x
  | None => throw (TypeError "Cannot read properties of undefined")
  end.

(** The full forecast request: [metData]. *)
Definition fetch_full (lat lon : jsval) : M jsval jsval :=
  do metResp <- Net.fetchWithRetries (UrlForecast lat lon) 15000 2 300 ;;
  if negb (ok metResp)
  then throw (Error ("Open-Meteo failed: " +:+ pretty (status metResp)))
  else Sys.json metResp.

(** The lightweight request that asks for the current weather only. *)
Definition fetch_light (lat lon : jsval) : M jsval jsval :=
  do lwResp <- Net.fetchWithRetries (UrlForecastLight lat lon) 8000 1 300 ;;
  if ok lwResp then
    do lw <- Sys.json lwResp ;;
    do latitude <- prop lw "latitude" ;;
    do longitude <- prop lw "longitude" ;;
    do current_weather <- prop lw "current_weather" ;;
    ret (JObj (<["latitude" := latitude]> (<["longitude" := longitude]>
              (<["current_weather" := current_weather]> ∅))))
  else throw (Error ("Lightweight Open-Meteo failed: " +:+ pretty (status lwResp))).

(** The nested [try]/[catch] around the two requests: either [metData]
    (left) or the reply the innermost [catch] returns at once (right). *)
Definition forecast_data (city : string) (lat lon display_name : jsval)
    : M jsval (jsval + http_response) :=
  try_catch
    (do metData <- fetch_full lat lon ;; ret (inl metData))
    (fun _ =>
       try_catch
         (do metData <- fetch_light lat lon ;; ret (inl metData))
         (fun _ =>
            do metData <- generateMockForecast lat lon ;;
            let payload := forecast_payload (js_or display_name (JStr city)) lat lon metData in
            ret (inr (Reply 200 (as_mock payload))))).

(** The outer [try] block of the route. *)
Definition forecast_try (city cacheKey : string) : M jsval http_response :=
  do nomResp <- Net.fetchWithRetries (UrlNominatim city) 10000 2 300 ;;
  if negb (ok nomResp)
  then throw (Error ("Nominatim failed: " +:+ pretty (status nomResp)))
  else
    do places <- Sys.json nomResp ;;
    do len <- (if truthy places then prop places "length" else ret JUndefined) ;;
    if negb (truthy places) || is_zero len
    then ret (Reply 404 (error_body "Location not found"))
    else
      do place <- (match js_first places with
                   | Some p => ret p
                   | None => throw (TypeError "Cannot read properties of undefined")
                   end) ;;
      do lat <- prop place "lat" ;;
      do lon <- prop place "lon" ;;
      do display_name <- prop place "display_name" ;;
      do data <- forecast_data city lat lon display_name ;;
      match data with
      | inl metData =>
          let payload := forecast_payload display_name lat lon metData in
          exec cache_set cacheKey payload stdTTL ;;
          ret (Reply 200 (with_cached false payload))
      | inr reply => ret reply
      end.

(** [(req.query.city || '').trim()] *)
Definition city_of (q : gmap string string) : string := Str.trim (param_or q "city" "").

Definition forecast (q : gmap string string) : M jsval http_response :=
  let city := city_of q in
  if String.eqb city "" then ret (Reply 400 (error_body "Missing city query parameter"))
  else
    let cacheKey := forecast_key city in
    do cached <- cache_get cacheKey ;;
    match cached with
    | Some stored => ret (Reply 200 (with_cached true stored))
    | None =>
        do forced <- mock_forced ;;
        if forced then
          do mock <- generateMockForecast (JNum 0) (JNum 0) ;;
          let payload := forecast_payload (JStr city) (JNum 0) (JNum 0) mock in
          ret (Reply 200 (as_mock payload))
        else try_catch (forecast_try city cacheKey) (fun err => ret (failure err))
    end.

(** *** [/api/air-quality] and [/api/climate] *)

(** What these two routes compute from the upstream's JSON (the latest
    sample and its PM2.5 category; the annual means, their trend and the
    recent anomaly) is a function of the request and of that JSON, which
    may throw; the climate route may also decline with a 502 and its
    message ([inl]). *)
Variable aq_payload : string -> string -> jsval -> result jsobj.
Variable climate_payload :
  string -> string -> Z -> string -> string -> jsval -> result (string + jsobj).

(** [!v] fails: the parameter is there and not empty. *)
Definition given (o : option string) : option string :=
  match o with
  | Some s => if String.eqb s "" then None else Some s
  | None => None
  end.

Definition aq_key (lat lon : string) : string := "aq:" +:+ lat +:+ ":" +:+ lon.

Definition air_quality_try (lat lon cacheKey : string) : M jsval http_response :=
  do resp <- Net.fetchWithTimeout (UrlAirQuality lat lon) 8000 ;;
  if negb (ok resp)
  then throw (Error ("AirQuality API failed: " +:+ pretty (status resp)))
  else
    do aqData <- Sys.json resp ;;
    match aq_payload lat lon aqData with
    | Ok payload =>
        exec cache_set cacheKey payload (60 * 5) ;;
        ret (Reply 200 (with_cached false payload))
    | Throw err => throw err
    end.

Definition air_quality (q : gmap string string) : M jsval http_response :=
  match given (param q "lat" "latitude"), given (param q "lon" "longitude") with
  | Some lat, Some lon =>
      let cacheKey := aq_key lat lon in
      do cached <- cache_get cacheKey ;;
      match cached with
      | Some stored => ret (Reply 200 (with_cached true stored))
      | None =>
          try_catch (air_quality_try lat lon cacheKey) (fun err => ret (failure err))
      end
  | _, _ => ret (Reply 400 (error_body "Missing lat and/or lon query parameters"))
  end.

(** [parseInt(req.query.years || '30', 10) || 30] *)
Definition years_of (q : gmap string string) : Z :=
  match Str.parseInt (param_or q "years" "30") with
  | Some y => if y =? 0 then 30 else y
  | None => 30
  end.

Definition climate_key (lat lon : string) (clampYears : Z) : string :=
  "climate:" +:+ lat +:+ ":" +:+ lon +:+ ":" +:+ pretty clampYears.

(** [Math.min(Math.max(years, 10), 100)] *)
Definition clampYears_of (q : gmap string string) : Z :=
  Z.min (Z.max (years_of q) 10) 100.

Definition climate_try (lat lon : string) (clampYears : Z) (startDate endDate : string)
    (cacheKey : string) : M jsval http_response :=
  do resp <- Net.fetchWithTimeout (UrlClimate lat lon startDate endDate) 15000 ;;
  if negb (ok resp)
  then throw (Error ("Climate API failed: " +:+ pretty (status resp)))
  else
    do json <- Sys.json resp ;;
    match climate_payload lat lon clampYears startDate endDate json with
    | Ok (inr payload) =>
        exec cache_set cacheKey payload (60 * 60 * 24) ;;
        ret (Reply 200 (with_cached false payload))
    | Ok (inl msg) => ret (Reply 502 (error_body msg))
    | Throw err => throw err
    end.

Definition climate (q : gmap string string) : M jsval http_response :=
  match given (param q "lat" "latitude"), given (param q "lon" "longitude") with
  | Some lat, Some lon =>
      let clampYears := clampYears_of q in
      do now <- Date_now ;;
      let endDate := Str.slice0 10 (Str.toISOString now) in
      let startYear := Str.getUTCFullYear now - clampYears + 1 in
      let startDate := pretty startYear +:+ "-01-01" in
      let cacheKey := climate_key lat lon clampYears in
      do cached <- cache_get cacheKey ;;
      match cached with
      | Some stored => ret (Reply 200 (with_cached true stored))
      | None =>
          try_catch (climate_try lat lon clampYears startDate endDate cacheKey)
            (fun err => ret (failure err))
      end
  | _, _ => ret (Reply 400 (error_body "Missing lat and/or lon query parameters"))
  end.

End Routes.

End Routes.

(** ** The specification's vocabulary

    What the properties below are stated with, written after the
    specification's sentences rather than after the code. *)

Module Spec.

Import Resampler.

(** The native samples of the upstream's [minutely] block: the instant of
    each entry of [time] with the [shortwave_radiation] value at the same
    index, absent when that cell is [null] or missing. *)
Definition samples (m : Minutely) : list (Z * option float) :=
  imap (fun i t => (t, cell (mn_shortwave_radiation m) i)) (default [] (mn_time m)).

(** The samples of the window [startTs, endTs] whose bucket key
    [floor(timestampMs / stepMs) * stepMs] is [k], the step being 15
    minutes. *)
Definition members (startTs endTs k : Z) (xs : list (Z * option float))
    : list (Z * option float) :=
  filter (fun x => (startTs <= x.1 <= endTs) /\ x.1 / (15 * 60 * 1000) * (15 * 60 * 1000) = k) xs.

(** The sum of a bucket: an absent value adds zero. *)
Definition total (xs : list (Z * option float)) : float :=
  foldl (fun acc x => (acc + default 0 x.2)%float) 0%float xs.

(** The arithmetic mean of a bucket, every sample counted. *)
Definition mean (xs : list (Z * option float)) : float :=
  (total xs / Num.Z2F (Z.of_nat (length xs)))%float.

(** The hourly points are in ascending order of time. *)
Definition ascending (points : list point) : Prop :=
  StronglySorted (fun p q => ts p <= ts q) points.

(** [frac = (ts - a.ts) / (b.ts - a.ts)] *)
Definition frac (t : Z) (a b : point) : float :=
  (Num.Z2F (t - ts a) / Num.Z2F (ts b - ts a))%float.

(** The missing-value policy: the present value when exactly one is
    absent, absent when both are, [a + (b - a) * frac] otherwise. *)
Definition blended (fr : float) (aVal bVal : option float) : jsval :=
  match aVal, bVal with
  | Some x, Some y => JNum (x + (y - x) * fr)%float
  | Some x, None => JNum x
  | None, Some y => JNum y
  | None, None => JNull
  end.

(** A retryable outcome of one call of [fetch] under a deadline: no
    answer in time, a network-level failure, or a status of 500 or more. *)
Definition retryable {B} (s : served B) (timeout : Z) : Prop :=
  match outcome s with
  | Responds r => timeout <= latency s \/ 500 <= status r
  | Rejects _ => True
  end.

(** The error [fetchWithRetries] remembers for such an outcome. *)
Definition error_of {B} (s : served B) (timeout : Z) : js_error :=
  if latency s <? timeout then
    match outcome s with
    | Responds r => Error ("Upstream responded " +:+ pretty (status r))
    | Rejects e => e
    end
  else AbortError.

(** The events of a run of calls of [fetch], from attempt number
    [a + 1] on, with [n] retries after it and a sleep before each retry;
    [delay i] is the delay before retry number [i], counted from 1. *)
Fixpoint retry_trace (u : url) (timeout : Z) (delay : nat -> float) (a n : nat)
    : list event :=
  EvFetch u timeout
    :: match n with
       | O => []
       | S n' => EvSleep (delay (S a)) :: retry_trace u timeout delay (S a) n'
       end.

(** The text a request supplies for a coordinate: the value of the
    parameter [a], or of its long name [b], whichever is the first that
    is there and not empty. *)
Definition supplied (q : gmap string string) (a b : string) : option string :=
  match q !! a with
  | Some (String c s) => Some (String c s)
  | _ =>
      match q !! b with
      | Some (String c s) => Some (String c s)
      | _ => None
      end
  end.

(** The coordinate is missing, or does not parse as a number. *)
Definition unusable (q : gmap string string) (a b : string) : Prop :=
  match supplied q a b with
  | Some s => PrimFloat.is_nan (Str.parseFloat_str s) = true
  | None => True
  end.

(** The four endpoints, and the time-to-live of their cache entries in
    seconds: forecast 10 minutes, air quality 5 minutes, climate 24 hours,
    marine 5 minutes. *)
Inductive endpoint : Type := Forecast | AirQuality | Climate | Marine.


(** What a read of the cache at instant [now] returns for [key]. *)
Definition live (cache : gmap string cache_entry) (key : string) (now : Z)
    : option jsobj :=
  match cache !! key with
  | Some e => if expiresAt e <? now then None else Some (value e)
  | None => None
  end.

End Spec.

(** ** The endpoints as one family *)

Module Endpoints.

Import Spec Routes.

(** What [resp.json()] gives a route. *)
Definition body (e : endpoint) : Type :=
  match e with
  | Marine => Resampler.MarineJson
  | _ => jsval
  end.



Section Endpoints.
Variable num_to_string : float -> string.
Variable Math_sin : float -> float.
Variable getHours : Z -> Z.
Variable aq_payload : string -> string -> jsval -> result jsobj.
Variable climate_payload :
  string -> string -> Z -> string -> string -> jsval -> result (string + jsobj).

(** The handler of an endpoint, as Express calls it with a request that
    reached it. The query is given by the parameters that occur once in
    it, each a string ([req.query] holds an array for one that is
    repeated). The rate limiter in front of the forecast, air quality and
    climate handlers answers the requests it refuses itself, without
    calling the handler: see [app] below. *)
Definition route (e : endpoint) : gmap string string -> M (body e) http_response :=
  match e with
  | Forecast => forecast Math_sin getHours
  | AirQuality => air_quality aq_payload
  | Climate => climate climate_payload
  | Marine => marine num_to_string
  end.




(** The cache key of a request the route accepts ([None] for one it
    rejects with a 400). *)
Definition cache_key (e : endpoint) (q : gmap string string) : option string :=
  match e with
  | Forecast =>
      if String.eqb (city_of q) "" then None else Some (forecast_key (city_of q))
  | AirQuality =>
      match given (param q "lat" "latitude"), given (param q "lon" "longitude") with
      | Some lat, Some lon => Some (aq_key lat lon)
      | _, _ => None
      end
  | Climate =>
      match given (param q "lat" "latitude"), given (param q "lon" "longitude") with
      | Some lat, Some lon => Some (climate_key lat lon (clampYears_of q))
      | _, _ => None
      end
  | Marine =>
      if PrimFloat.is_nan (marine_lat q) || PrimFloat.is_nan (marine_lon q) then None
      else Some (marine_key num_to_string (marine_lat q) (marine_lon q)
                   (steps q "forecast_minutely_15" "96") (steps q "past_minutely_15" "0"))
  end.

End Endpoints.

End Endpoints.

(** ** Definitions the proofs use *)

Module Support.

Import Resampler.

(** The test of the bucket loop, [!(t < startTs || t > endTs)]. *)
Definition in_window (startTs endTs : option Z) (t : Z) : bool :=
  negb (lt_bound t startTs || gt_bound t endTs).

(** The samples the bucket loop still has to visit when it stands at
    index [i]. *)
Definition samples_from (sw : option (list (option float))) (i : nat)
    (minTimes : list Z) : list (Z * option float) :=
  imap (fun j t => (t, cell sw (i + j))) minTimes.

(** Those of them the loop adds to bucket [k]. *)
Definition bucket_samples (startTs endTs : option Z) (k : Z)
    (samples : list (Z * option float)) : list (Z * option float) :=
  filter (fun x => in_window startTs endTs x.1 /\ bucket_of x.1 = k) samples.

(** A bucket after the loop has added the samples [xs] to it. *)
Definition accumulate (b : bucket) (xs : list (Z * option float)) : bucket :=
  foldl (fun b x => Bucket (sum b + default 0%float x.2) (count b + 1)) b xs.

(** What a call of [fetch] under a deadline gives its caller, and the
    world it leaves. *)
Definition answer {B} (s : served B) (timeout : Z) : result (response B) :=
  if latency s <? timeout then
    match outcome s with
    | Responds r => Ok r
    | Rejects e => Throw e
    end
  else Throw AbortError.

Definition after_fetch {B} (u : url) (timeout : Z) (w : world B) : world B :=
  let s := upstream w (fetches w) in
  World (clock w + (if latency s <? timeout then Z.max 0 (latency s) else timeout))
    (upstream w) (S (fetches w)) (random w) (draws w)
    (cache w) (USE_MOCK w) (trace w ++ [EvFetch u timeout]).

(** The world after the random draw and the sleep that precede the retry
    following attempt number [attempt]. *)
Definition after_wait {B} (backoffBase : float) (attempt : nat) (w : world B) : world B :=
  let delay := Net.backoff_delay backoffBase attempt (random w (draws w)) in
  World (clock w + timer_ms delay) (upstream w) (fetches w) (random w) (S (draws w))
    (cache w) (USE_MOCK w) (trace w ++ [EvSleep delay]).

(** The delays of the sleeps of a trace, oldest first. *)
Definition sleeps (tr : list event) : list float :=
  omap (fun e => match e with EvSleep d => Some d | EvFetch _ _ => None end) tr.

(** A step that leaves the cache, the environment and the scripts of the
    upstream and of the random source as they are. *)
Definition frame {B} (w w' : world B) : Prop :=
  cache w' = cache w /\ USE_MOCK w' = USE_MOCK w
  /\ upstream w' = upstream w /\ random w' = random w.

(** A step that does not turn the clock back. *)
Definition later {B} (w w' : world B) : Prop := clock w <= clock w'.

(** A computation every run of which is such a step. *)
Definition quiet {B A} (m : M B A) : Prop :=
  forall w r w', m w = (r, w') -> frame w w' /\ later w w'.


(** A computation that never throws. *)
Definition returns {B A} (m : M B A) : Prop :=
  forall w, exists a w', m w = (Ok a, w').

End Support.

(** ** Concrete inputs

    The data the counterexamples and the witnesses are run on. *)

Module Demo.

Import Resampler Routes.

Definition demo_point (t : Z) (v : option float) : point :=
  {| ts := t; wave := v; wind := v; sw := v; period := v; swell := v |}.

Definition demo_minutely : Minutely :=
  {| mn_time := Some [100; 200; 900000; 5000000];
     mn_shortwave_radiation := Some [Some 100%float; None; Some 150%float; Some 1%float];
     mn_other_keys := 0 |}.

Definition demo_hourly : Hourly :=
  {| hr_time := Some [0; 3600000; 7200000];
     hr_wave_height := Some [Some 10%float; Some 20%float; None];
     hr_windspeed_10m := Some [Some 4%float; None; Some 6%float];
     hr_shortwave_radiation := None;
     hr_significant_wave_period := Some [Some 7%float; Some 8%float; Some 9%float];
     hr_swell_height := Some [Some 1%float; Some 2%float; Some 3%float] |}.

Definition demo_json (minutely : option Minutely) : MarineJson :=
  {| mj_source := JNull; mj_latitude := JUndefined; mj_longitude := JUndefined;
     mj_minutely := minutely; mj_hourly := Some demo_hourly |}.

(** The [i]-th point of the demo series. *)
Definition demo_point_of (i : nat) : point :=
  default {| ts := 0; wave := None; wind := None; sw := None; period := None; swell := None |}
    (hourly_points (Some demo_hourly) !! i).

Definition demo_series : Series15 :=
  {| time := [0; 900000];
     shortwave_radiation := [JNum 50; JNum 150];
     wave_height := []; windspeed_10m := [];
     significant_wave_period := []; swell_height := [] |}.

(** A world with an empty cache and an empty trace, at instant [now]. *)
Definition world_at {B} (now : Z) (up : nat -> served B) (rnd : nat -> float)
    (env : option string) : world B :=
  World now up 0 rnd 0 ∅ env [].

(** An upstream that answers every call with a 503 after 10 ms. *)
Definition always_503 {B} : nat -> served B :=
  fun _ => Served 10 (Responds (Response 503 None)).

(** Stand-ins for the host's [Number.prototype.toString] (exact on
    integers), [Math.sin] and [Date.prototype.getHours] (a server in UTC),
    for runs on concrete inputs. *)
Definition demo_num_to_string (x : float) : string := pretty (Num.F2Z x).
Definition demo_sin (x : float) : float := x.
Definition demo_getHours (t : Z) : Z := t / 3600000 mod 24.


(** [?lat=0&lon=0&forecast_minutely_15=0&past_minutely_15=0] *)
Definition zero_window_query : gmap string string :=
  <["lat" := "0"]> (<["lon" := "0"]> (<["forecast_minutely_15" := "0"]>
  (<["past_minutely_15" := "0"]> ∅))).



(** An upstream whose geocoder answers the first call and whose forecast
    service then answers every call with a 503. *)
Definition forecast_upstream_down : nat -> served jsval :=
  fun n =>
    match n with
    | O =>
        Served 20 (Responds (Response 200 (Some (JArr [JObj
          (<["lat" := JStr "23.7"]> (<["lon" := JStr "90.4"]>
          (<["display_name" := JStr "Dhaka, BD"]> ∅)))]))))
    | _ => Served 5 (Responds (Response 503 None))
    end.

(** [?city=%20Dhaka%20] *)
Definition dhaka_query : gmap string string := <["city" := " Dhaka "]> ∅.

End Demo.

(** ** What a request may cost *)

Module Budget.

Import Spec.

(** The calls of [fetch] a request can make at most: the three attempts
    at the geocoder ([retries = 2]), the three at the full forecast and the
    two at the lightweight one ([retries = 1]); the one call of the air
    quality and of the climate route; the full and the safe request of the
    marine route. *)
Definition max_fetches (e : endpoint) : nat :=
  match e with
  | Forecast => (2 + 1) + (2 + 1) + (1 + 1)
  | AirQuality => 1
  | Climate => 1
  | Marine => 1 + 1
  end.

(** The [timeout] argument of the first upstream call of a route, and the
    number of attempts at it. *)
Definition first_timeout (e : endpoint) : Z :=
  match e with
  | Forecast => 10000
  | AirQuality => 8000
  | Climate => 15000
  | Marine => 12000
  end.
Definition first_attempts (e : endpoint) : nat :=
  match e with
  | Forecast => 2 + 1
  | _ => 1
  end.

(** The message of the error a route throws when the upstream answers
    with a status that is not ok (on the marine route, when it does so a
    second time). *)
Definition refusal (e : endpoint) (status : Z) : string :=
  match e with
  | Forecast => "Nominatim failed: "
  | AirQuality => "AirQuality API failed: "
  | Climate => "Climate API failed: "
  | Marine => "Upstream failed: "
  end +:+ pretty status.

(** The reply of the [catch] of a route to an error that is no abort:
    [res.status(500).json({ error: 'Internal server error', details })]. *)
Definition internal_error (details : string) : Routes.http_response :=
  Routes.Reply 500
    (<["details" := JStr details]> (Routes.error_body "Internal server error")).

(** The calls of [fetch] so far, as an integer. *)
Definition fetch_count {B} (w : world B) : Z := Z.of_nat (fetches w).

(** A computation every run of which raises the measure [mu] of the world,
    and by [n] at most. *)
Definition bounded {B A} (mu : world B -> Z) (n : Z) (m : M B A) : Prop :=
  forall w r w', m w = (r, w') -> mu w <= mu w' <= mu w + n.

(** A measure that only looks at the call counter and at the clock. *)
Definition steady {B} (mu : world B -> Z) : Prop :=
  forall w w', fetches w' = fetches w -> clock w' = clock w -> mu w' = mu w.


End Budget.

(** ** The shape of a mock forecast *)

Module MockShape.

(** A step that changes nothing but the number of random draws. *)
Definition only_draws {B} (w w' : world B) : Prop :=
  clock w' = clock w /\ upstream w' = upstream w /\ fetches w' = fetches w
  /\ random w' = random w /\ cache w' = cache w /\ USE_MOCK w' = USE_MOCK w
  /\ trace w' = trace w.

(** What one pass of the hourly loop pushes. *)
Definition hourly_row_ok (now i : Z) (r : list jsval) : Prop :=
  exists temperature precipitation wc windspeed,
    r = [JStr (Str.toISOString (now + i * 60 * 60 * 1000)); JNum temperature;
         JNum precipitation; JNum wc; JNum windspeed]
    /\ wc ∈ [0%float; 3%float; 51%float; 95%float].

Definition daily_row_ok (now d : Z) (r : list jsval) : Prop :=
  exists highs lows,
    r = [JStr (Str.slice0 10 (Str.toISOString (now + d * 24 * 60 * 60 * 1000)));
         JNum highs; JNum lows].

End MockShape.

(** ** [/api/air-quality]: the latest sample and its category *)

Module AirQualityData.

(** What reading a cell of an hourly array gives: a number, [null], or
    [undefined] past the end of the array. *)
Inductive reading : Type :=
| Value (x : float)
| Null
| Undefined.

Definition reading_js (r : reading) : jsval :=
  match r with
  | Value x => JNum x
  | Null => JNull
  | Undefined => JUndefined
  end.

(** The [hourly] block of the upstream's JSON, as far as the route reads
    it: the [time] array, of strings, and six arrays whose cells are
    numbers or [null]. A field that is [None] is a property the block
    does not have; a block that is missing ([aqData.hourly || {}]) has
    none of them. *)
Record AqHourly : Type := {
  aq_time : option (list string);
  aq_pm2_5 : option (list (option float));
  aq_pm10 : option (list (option float));
  aq_carbon_monoxide : option (list (option float));
  aq_nitrogen_dioxide : option (list (option float));
  aq_sulphur_dioxide : option (list (option float));
  aq_ozone : option (list (option float))
}.

(** [arr[i]] *)
Definition at_index (arr : list (option float)) (i : nat) : reading :=
  match arr !! i with
  | Some (Some x) => Value x
  | Some None => Null
  | None => Undefined
  end.

(** [arr && arr[i] != null] *)
Definition has_reading (arr : option (list (option float))) (i : nat) : bool :=
  match arr with
  | Some l => if at_index l i is Value _ then true else false
  | None => false
  end.

(** [arr ? arr[i] : null] *)
Definition pick (arr : option (list (option float))) (i : nat) : reading :=
  match arr with
  | Some l => at_index l i
  | None => Null
  end.

(** The test of the loop: the hour has a PM2.5 or a PM10 value. *)
Definition measured (h : AqHourly) (i : nat) : bool :=
  has_reading (aq_pm2_5 h) i || has_reading (aq_pm10 h) i.

(** [for (let i = n - 1; i >= 0; i--) if (...) { latestIdx = i; break }]:
    [None] is the [-1] the loop leaves when no hour passes the test. *)
Fixpoint latest (h : AqHourly) (n : nat) : option nat :=
  match n with
  | O => None
  | S i => if measured h i then Some i else latest h i
  end.

Definition latestIdx (h : AqHourly) : option nat :=
  latest h (length (default [] (aq_time h))).

Record Sample : Type := {
  s_time : jsval;
  s_pm2_5 : reading;
  s_pm10 : reading;
  s_co : reading;
  s_no2 : reading;
  s_so2 : reading;
  s_o3 : reading
}.

(** [latestIdx >= 0 ? { time: times[latestIdx], ... } : null] *)
Definition sample (h : AqHourly) : option Sample :=
  match latestIdx h with
  | Some i =>
      Some {| s_time := match default [] (aq_time h) !! i with
                        | Some t => JStr t
                        | None => JUndefined
                        end;
              s_pm2_5 := pick (aq_pm2_5 h) i;
              s_pm10 := pick (aq_pm10 h) i;
              s_co := pick (aq_carbon_monoxide h) i;
              s_no2 := pick (aq_nitrogen_dioxide h) i;
              s_so2 := pick (aq_sulphur_dioxide h) i;
              s_o3 := pick (aq_ozone h) i |}
  | None => None
  end.

Record Category : Type := { idx : Z; label : string }.

Definition unknown : Category := {| idx := 0; label := "unknown" |}.

(** [pm25Category(v)] *)
Definition pm25Category (v : reading) : Category :=
  match v with
  | Value x =>
      if PrimFloat.leb x 12.0 then {| idx := 1; label := "Good" |}
      else if PrimFloat.leb x 35.4 then {| idx := 2; label := "Moderate" |}
      else if PrimFloat.leb x 55.4
           then {| idx := 3; label := "Unhealthy for Sensitive Groups" |}
      else if PrimFloat.leb x 150.4 then {| idx := 4; label := "Unhealthy" |}
      else if PrimFloat.leb x 250.4 then {| idx := 5; label := "Very Unhealthy" |}
      else {| idx := 6; label := "Hazardous" |}
  | Null | Undefined => unknown
  end.

(** [sample ? pm25Category(sample.pm2_5) : { idx: 0, label: 'unknown' }] *)
Definition category (h : AqHourly) : Category :=
  match sample h with
  | Some s => pm25Category (s_pm2_5 s)
  | None => unknown
  end.

Definition sample_js (s : Sample) : jsval :=
  JObj (<["time" := s_time s]> (<["pm2_5" := reading_js (s_pm2_5 s)]>
       (<["pm10" := reading_js (s_pm10 s)]> (<["co" := reading_js (s_co s)]>
       (<["no2" := reading_js (s_no2 s)]> (<["so2" := reading_js (s_so2 s)]>
       (<["o3" := reading_js (s_o3 s)]> ∅))))))).

Definition category_js (c : Category) : jsval :=
  JObj (<["idx" := JNum (Num.Z2F (idx c))]> (<["label" := JStr (label c)]> ∅)).

(** A block that is missing reads as [{}]. *)
Definition no_hourly : AqHourly :=
  {| aq_time := None; aq_pm2_5 := None; aq_pm10 := None; aq_carbon_monoxide := None;
     aq_nitrogen_dioxide := None; aq_sulphur_dioxide := None; aq_ozone := None |}.

(** [{ lat, lon, sample, category, source: 'open-meteo' }], for the
    [hourly] block of the body ([None] when it has none). *)
Definition sample_payload (lat lon : string) (hourly : option AqHourly) : jsobj :=
  let h := default no_hourly hourly in
  <["lat" := JStr lat]> (<["lon" := JStr lon]>
  (<["sample" := match sample h with Some s => sample_js s | None => JNull end]>
  (<["category" := category_js (category h)]>
  (<["source" := JStr "open-meteo"]> ∅)))).

End AirQualityData.

(** ** [/api/climate]: annual means, trend and anomaly *)

Module ClimateData.

Import Resampler.

(** The [daily] block of the upstream's JSON. A date of [time] is given
    by the year [parseInt(t.slice(0, 4), 10)] reads from it; a cell of
    [temperature_2m_mean] is a number or [null]. A field that is [None]
    is a property the block does not have. *)
Record ClimateDaily : Type := {
  cd_time : option (list Z);
  cd_temperature_2m_mean : option (list (option float))
}.

Record ClimateJson : Type := {
  cj_latitude : jsval;
  cj_longitude : jsval;
  cj_daily : option ClimateDaily
}.

(** [(json.daily && json.daily.time && json.daily.temperature_2m_mean)
      ? json.daily : null] *)
Definition usable_daily (json : ClimateJson) : option ClimateDaily :=
  match cj_daily json with
  | Some d =>
      match cd_time d, cd_temperature_2m_mean d with
      | Some _, Some _ => Some d
      | _, _ => None
      end
  | None => None
  end.

(** The loop over [time], from index [i] on: a day without a value is
    skipped, the others are added to the sum and the count of their
    year. *)
Fixpoint fill_years (vals : option (list (option float))) (i : nat) (time : list Z)
    (yearsMap : gmap Z bucket) : gmap Z bucket :=
  match time with
  | [] => yearsMap
  | y :: rest =>
      fill_years vals (S i) rest
        (match cell vals i with
         | None => yearsMap
         | Some v =>
             let s := default (Bucket 0 0) (yearsMap !! y) in
             <[y := Bucket (sum s + v) (count s + 1)]> yearsMap
         end)
  end.

Definition yearsMap_of (daily : ClimateDaily) : gmap Z bucket :=
  fill_years (cd_temperature_2m_mean daily) 0 (default [] (cd_time daily)) ∅.

(** [{ year: y, mean: s.count ? s.sum / s.count : null }]; [None] is the
    [TypeError] of reading [count] of a year that is not in the map. *)
Definition annual_row (yearsMap : gmap Z bucket) (y : Z) : option (Z * jsval) :=
  (fun s => (y, bucket_mean s)) <$> yearsMap !! y.

(** [.filter((r) => r.mean != null)], the means that are left being
    numbers *)
Definition with_mean (rows : list (Z * jsval)) : list (Z * float) :=
  omap (fun r => match r.2 with JNum m => Some (r.1, m) | _ => None end) rows.

(** [annual]: a row for every year of the map, in ascending order *)
Definition annual (daily : ClimateDaily) : option (list (Z * float)) :=
  with_mean <$> mapM (annual_row (yearsMap_of daily)) (sorted_keys (yearsMap_of daily)).

(** [a.reduce((a, b) => a + b, 0)] *)
Definition reduce_sum (xs : list float) : float :=
  foldl (fun a b => (a + b)%float) 0%float xs.

(** [a.length ? a.reduce(...) / a.length : null] *)
Definition mean_or_null (xs : list float) : option float :=
  match xs with
  | [] => None
  | _ => Some (reduce_sum xs / Num.Z2F (Z.of_nat (length xs)))%float
  end.

(** The least-squares slope of the means over the years. *)
Definition slopePerYear (rows : list (Z * float)) : float :=
  let n := Num.Z2F (Z.of_nat (length rows)) in
  let x := (fun r => Num.Z2F r.1) <$> rows in
  let y := snd <$> rows in
  let xMean := (reduce_sum x / n)%float in
  let yMean := (reduce_sum y / n)%float in
  let num := foldl (fun acc r => (acc + (Num.Z2F r.1 - xMean) * (r.2 - yMean))%float)
               0%float rows in
  let den := foldl (fun acc r => (acc + (Num.Z2F r.1 - xMean) * (Num.Z2F r.1 - xMean))%float)
               0%float rows in
  if PrimFloat.eqb den 0 then 0%float else (num / den)%float.

Definition baselineStart : Z := 1991.
Definition baselineEnd : Z := 2020.
Definition recentYears : nat := 5.

(** [annual.filter((r) => r.year >= baselineStart && r.year <= baselineEnd)
      .map((r) => r.mean)] *)
Definition baselineVals (rows : list (Z * float)) : list float :=
  snd <$> filter (fun r => baselineStart <= r.1 <= baselineEnd) rows.

(** [annual.slice(-recentYears).map((r) => r.mean)] *)
Definition recentSlice (rows : list (Z * float)) : list float :=
  snd <$> drop (length rows - recentYears) rows.

(** [(baselineMean != null && recentMean != null)
      ? (recentMean - baselineMean) : null] *)
Definition recentAnomaly (rows : list (Z * float)) : option float :=
  match mean_or_null (baselineVals rows), mean_or_null (recentSlice rows) with
  | Some b, Some r => Some (r - b)%float
  | _, _ => None
  end.

Definition row_js (r : Z * float) : jsval :=
  JObj (<["year" := JNum (Num.Z2F r.1)]> (<["mean" := JNum r.2]> ∅)).

(** The payload of a reply with status 200. *)
Definition trend_payload (lat lon : string) (clampYears : Z) (startDate endDate : string)
    (json : ClimateJson) (rows : list (Z * float)) : jsobj :=
  <["latitude" := js_or (cj_latitude json) (JNum (Str.parseFloat_str lat))]>
  (<["longitude" := js_or (cj_longitude json) (JNum (Str.parseFloat_str lon))]>
  (<["start_date" := JStr startDate]> (<["end_date" := JStr endDate]>
  (<["years" := JNum (Num.Z2F clampYears)]>
  (<["annual" := JArr (row_js <$> rows)]>
  (<["trend" := JObj (<["per_year" := JNum (slopePerYear rows)]>
                     (<["per_decade" := JNum (slopePerYear rows * 10)]> ∅))]>
  (<["baseline" := JObj (<["period" := JStr (pretty baselineStart +:+ "-" +:+ pretty baselineEnd)]>
                        (<["mean" := num_or_null (mean_or_null (baselineVals rows))]> ∅))]>
  (<["recent" := JObj (<["years" := JNum (Num.Z2F (Z.of_nat recentYears))]>
                      (<["mean" := num_or_null (mean_or_null (recentSlice rows))]>
                      (<["anomaly" := num_or_null (recentAnomaly rows)]> ∅)))]>
  (<["source" := JStr "open-meteo-climate"]> ∅))))))))).

(** What the route makes of the upstream's JSON: the message of a 502
    ([inl]) or the payload of a 200 ([inr]); [Throw] is an exception. *)
Definition summary (lat lon : string) (clampYears : Z) (startDate endDate : string)
    (json : ClimateJson) : result (string + jsobj) :=
  match usable_daily json with
  | None => Ok (inl "Climate data unavailable from upstream")
  | Some daily =>
      match annual daily with
      | None => Throw (TypeError "Cannot read properties of undefined")
      | Some rows =>
          if (length rows <? 5)%nat then Ok (inl "Insufficient climate data returned")
          else Ok (inr (trend_payload lat lon clampYears startDate endDate json rows))
      end
  end.

(** The values of the days of the year [y] that have one, in the order
    of the array, from index [i] on. *)
Definition year_values (vals : option (list (option float))) (i : nat) (time : list Z)
    (y : Z) : list float :=
  omap (fun x => if decide (x.1 = y) then x.2 else None)
    (imap (fun j t => (t, cell vals (i + j))) time).

End ClimateData.

(** ** The panels of the frontend that read the replies *)

Module Frontend.

(** *** [MarinePanel]: [buildChart] *)

(** A [series15] object as the panel receives it: its arrays hold
    numbers or [null]; a field that is [None] is a property the object
    does not have. *)
Record SeriesJson : Type := {
  sj_time : option (list string);
  sj_wave_height : option (list (option float));
  sj_wave : option (list (option float));
  sj_windspeed_10m : option (list (option float));
  sj_wind : option (list (option float));
  sj_shortwave_radiation : option (list (option float));
  sj_significant_wave_period : option (list (option float));
  sj_swell_height : option (list (option float))
}.

(** What [JSON.stringify] leaves of an array element: a finite number;
    [undefined], [NaN] and the infinities are written as [null]. *)
Definition json_cell (v : jsval) : option float :=
  match v with
  | JNum x => if PrimFloat.is_finite x then Some x else None
  | _ => None
  end.

(** The [series15] of a reply, serialised by [res.json] and parsed by
    [resp.json()]. *)
Definition received (s : Resampler.Series15) : SeriesJson :=
  {| sj_time := Some (Str.toISOString <$> Resampler.time s);
     sj_wave_height := Some (json_cell <$> Resampler.wave_height s);
     sj_wave := None;
     sj_windspeed_10m := Some (json_cell <$> Resampler.windspeed_10m s);
     sj_wind := None;
     sj_shortwave_radiation := Some (json_cell <$> Resampler.shortwave_radiation s);
     sj_significant_wave_period := Some (json_cell <$> Resampler.significant_wave_period s);
     sj_swell_height := Some (json_cell <$> Resampler.swell_height s) |}.

(** A dataset of the chart ([tension: 0.2] and [spanGaps: true] are the
    same in all of them). *)
Record dataset : Type := {
  ds_label : string;
  ds_data : list (option float);
  ds_borderColor : string;
  ds_backgroundColor : string;
  ds_yAxisID : string
}.

Record chart : Type := { labels : list string; datasets : list dataset }.

(** [a || b || []] *)
Definition first_array (a b : option (list (option float))) : list (option float) :=
  match a, b with
  | Some l, _ => l
  | None, Some l => l
  | None, None => []
  end.

(** [if (arr && arr.length) datasets.push({ label, data: arr.map(v =>
      v == null ? null : Number(v)), ... })] *)
Definition push_if (arr : list (option float)) (label border background axis : string)
    (datasets : list dataset) : list dataset :=
  match arr with
  | [] => datasets
  | _ => datasets ++ [{| ds_label := label; ds_data := arr; ds_borderColor := border;
                         ds_backgroundColor := background; ds_yAxisID := axis |}]
  end.

(** [buildChart(series)] *)
Definition buildChart (series : option SeriesJson) : option chart :=
  match series with
  | Some s =>
      match sj_time s with
      | Some time =>
          let wave := first_array (sj_wave_height s) (sj_wave s) in
          let wind := first_array (sj_windspeed_10m s) (sj_wind s) in
          let sw := first_array (sj_shortwave_radiation s) None in
          let swp := first_array (sj_significant_wave_period s)
                       (sj_significant_wave_period s) in
          let swell := first_array (sj_swell_height s) None in
          Some {| labels := time;
                  datasets :=
                    push_if swell "Swell (m)" "rgba(63,81,181,0.9)" "rgba(63,81,181,0.08)" "y"
                    (push_if swp "Sig. wave period (s)" "rgba(156,39,176,0.9)"
                       "rgba(156,39,176,0.08)" "y3"
                    (push_if sw "Solar (W/m²)" "rgba(102,187,106,0.9)"
                       "rgba(102,187,106,0.12)" "y2"
                    (push_if wind "Wind (m/s)" "rgba(255,159,64,0.95)"
                       "rgba(255,159,64,0.12)" "y1"
                    (push_if wave "Wave (m)" "rgba(34,147,214,0.95)"
                       "rgba(34,147,214,0.12)" "y" [])))) |}
      | None => None
      end
  | None => None
  end.

(** *** [AirQualityPanel]: the badge and the advice *)

(** [categoryColor(idx)] *)
Definition categoryColor (idx : Z) : string :=
  match idx with
  | 1 => "#4caf50"
  | 2 => "#ffeb3b"
  | 3 => "#ff9800"
  | 4 => "#f44336"
  | 5 => "#9c27b0"
  | 6 => "#6b0000"
  | _ => "#90a4ae"
  end.

(** [healthAdvice(idx)] *)
Definition healthAdvice (idx : Z) : string :=
  match idx with
  | 1 => "Air is good. Enjoy outdoor activities."
  | 2 => "Moderate. Unusually sensitive people should consider reducing prolonged outdoor exertion."
  | 3 => "Unhealthy for sensitive groups. Kids, older adults, and those with respiratory disease should limit prolonged outdoor exertion."
  | 4 => "Unhealthy. Reduce outdoor activities and consider masks for long exposure."
  | 5 => "Very unhealthy. Avoid outdoor exertion; consider staying indoors."
  | 6 => "Hazardous. Avoid all outdoor activities."
  | _ => "Air quality data unavailable."
  end.

(** *** [App]: the label of a weather code *)

(** [lo <= code && code <= hi] *)
Definition between (lo hi code : float) : bool :=
  PrimFloat.leb lo code && PrimFloat.leb code hi.

(** [mapWeatherCodeToLabel(code)] *)
Definition mapWeatherCodeToLabel (code : float) : string :=
  if PrimFloat.eqb code 0 then "Clear"
  else if PrimFloat.eqb code 1 || PrimFloat.eqb code 2 then "Partly cloudy"
  else if PrimFloat.eqb code 3 then "Cloudy"
  else if between 45 48 code then "Foggy"
  else if between 51 67 code || between 80 82 code then "Rain"
  else if between 71 77 code || between 85 86 code then "Snow"
  else if between 95 99 code then "Thunderstorm"
  else "Unknown".

(** [mapWeatherCodeToEmoji(code)] *)
Definition mapWeatherCodeToEmoji (code : float) : string :=
  if PrimFloat.eqb code 0 then "☀️"
  else if PrimFloat.eqb code 1 || PrimFloat.eqb code 2 then "🌤️"
  else if PrimFloat.eqb code 3 then "☁️"
  else if between 45 48 code then "🌫️"
  else if between 51 67 code || between 80 82 code then "🌧️"
  else if between 71 77 code || between 85 86 code then "🌨️"
  else if between 95 99 code then "⛈️"
  else "ℹ️".

End Frontend.

(** * Properties *)

(** ** Lists *)

Lemma StronglySorted_lookup_lt {A} (R : relation A) (l : list A) i j x y :
  StronglySorted R l -> (i < j)%nat -> l !! i = Some x -> l !! j = Some y -> R x y.
Proof.
  intros Hs. revert i j. induction Hs as [|a l Hs IH Hall]; intros i j Hij Hi Hj.
  - by rewrite lookup_nil in Hi.
  - destruct j as [|j]; [lia|]. destruct i as [|i]; simpl in *.
    + inversion Hi; subst. rewrite Forall_forall in Hall. apply Hall.
      eapply list_elem_of_lookup_2; eauto.
    + eapply (IH i j); eauto with lia.
Qed.

Lemma increasing_of_sorted_NoDup (l : list Z) :
  StronglySorted Z.le l -> NoDup l -> StronglySorted Z.lt l.
Proof.
  induction 1 as [|x l Hs IH Hall]; intros Hnd; [constructor|].
  apply NoDup_cons in Hnd as [Hx Hnd]. constructor; [by apply IH|].
  rewrite Forall_forall in Hall |- *. intros y Hy.
  specialize (Hall y Hy). assert (x <> y) by (intros ->; done). lia.
Qed.

(** ** The resampler *)

Module ResamplerFacts.

Import Resampler Spec Support.

(** *** The scan of [interp] *)

Lemma scan_ge fuel points t i : (i <= scan fuel points t i)%nat.
Proof.
  revert i. induction fuel as [|fuel IH]; intros i; simpl; [lia|].
  destruct (_ && _); [|lia]. specialize (IH (S i)). lia.
Qed.

Lemma scan_passed fuel points t i k :
  (i <= k < scan fuel points t i)%nat ->
  exists p, points !! S k = Some p /\ ts p < t.
Proof.
  revert i. induction fuel as [|fuel IH]; intros i; simpl; [lia|].
  destruct (_ && _) eqn:Hc; [|lia]. intros Hk.
  destruct (decide (k = i)) as [->|Hne].
  - apply andb_prop in Hc as [_ Hc].
    destruct (points !! S i) as [p|]; [|done]. exists p. split; [done|lia].
  - apply (IH (S i)). lia.
Qed.

Lemma scan_stop fuel points t i :
  (length points <= fuel + S i)%nat ->
  (S (scan fuel points t i) < length points)%nat ->
  exists p, points !! S (scan fuel points t i) = Some p /\ t <= ts p.
Proof.
  revert i. induction fuel as [|fuel IH]; intros i; simpl; [lia|].
  destruct (_ && _) eqn:Hc.
  - intros ? ?. apply IH; [lia|done].
  - intros _ Hlt. apply andb_false_iff in Hc as [Hc|Hc].
    + apply Nat.ltb_ge in Hc. lia.
    + destruct (lookup_lt_is_Some_2 points (S i) Hlt) as [p Hp].
      rewrite Hp in Hc |- *. exists p. split; [done|lia].
Qed.

Lemma scan_lt fuel points t i :
  (i < length points)%nat -> (scan fuel points t i < length points)%nat.
Proof.
  revert i. induction fuel as [|fuel IH]; intros i; simpl; [lia|].
  destruct (_ && _) eqn:Hc; [|lia]. intros _. apply IH.
  apply andb_prop in Hc as [Hc _]. by apply Nat.ltb_lt in Hc.
Qed.

(** For an instant strictly inside the range of the points, the scan stops
    at a pair of neighbours [a], [b] with [a.ts < t <= b.ts]. *)
Lemma scan_bracket points t first final :
  head points = Some first -> last points = Some final ->
  ts first < t -> t < ts final ->
  exists a b,
    points !! scan (length points) points t 0 = Some a
    /\ points !! S (scan (length points) points t 0) = Some b
    /\ ts a < t /\ t <= ts b.
Proof.
  intros Hh Hl Hlo Hhi.
  set (i := scan (length points) points t 0).
  assert (Hlen : (0 < length points)%nat).
  { destruct points; [done|simpl; lia]. }
  assert (Hi : (i < length points)%nat) by (by apply scan_lt).
  destruct (lookup_lt_is_Some_2 points i Hi) as [a Ha].
  assert (Hat : ts a < t).
  { destruct (decide (i = 0%nat)) as [Hz|Hnz].
    - rewrite Hz in Ha. rewrite <- head_lookup in Ha. congruence.
    - destruct (scan_passed (length points) points t 0 (pred i)) as (p & Hp & Hlt);
        [fold i; lia|].
      replace (S (pred i)) with i in Hp by lia. congruence. }
  destruct (decide (S i < length points)%nat) as [Hs|Hs].
  - destruct (scan_stop (length points) points t 0) as (b & Hb & Hbt); [lia|done|].
    exists a, b. done.
  - rewrite last_lookup in Hl. replace (pred (length points)) with i in Hl by lia.
    assert (a = final) by congruence. subst. lia.
Qed.

Lemma interp_interior points t first final :
  head points = Some first -> last points = Some final ->
  ts first < t -> t < ts final ->
  exists a b,
    points !! scan (length points) points t 0 = Some a
    /\ points !! S (scan (length points) points t 0) = Some b
    /\ ts a < t /\ t <= ts b
    /\ interp points t = Some (triple (mix (frac t a b) (wave a) (wave b))
                                (mix (frac t a b) (wind a) (wind b))
                                (mix (frac t a b) (sw a) (sw b))).
Proof.
  intros Hh Hl Hlo Hhi.
  destruct (scan_bracket points t first final) as (a & b & Ha & Hb & Hat & Hbt); try done.
  exists a, b. repeat split; try done.
  unfold interp. rewrite Hh, Hl.
  destruct (Z.leb_spec t (ts first)); [lia|].
  destruct (Z.leb_spec (ts final) t); [lia|].
  rewrite Ha, Hb. destruct (Z.eqb_spec (ts a) (ts b)); [lia|]. done.
Qed.

Lemma interp_before points t first :
  head points = Some first -> t <= ts first ->
  interp points t = Some (triple (wave first) (wind first) (sw first)).
Proof.
  intros Hh Hle. unfold interp. rewrite Hh.
  destruct (last points) as [final|] eqn:Hl.
  - destruct (Z.leb_spec t (ts first)); [done|lia].
  - destruct points; [done|]. by rewrite last_cons in Hl; destruct (last points).
Qed.

Lemma interp_after points t first final :
  head points = Some first -> last points = Some final ->
  ts first < t -> ts final <= t ->
  interp points t = Some (triple (wave final) (wind final) (sw final)).
Proof.
  intros Hh Hl Hlo Hhi. unfold interp. rewrite Hh, Hl.
  destruct (Z.leb_spec t (ts first)); [lia|].
  destruct (Z.leb_spec (ts final) t); [done|lia].
Qed.

(** [interp] never throws, and what it returns has exactly the three
    properties [wave], [wind] and [sw]. *)
Lemma interp_triple points t :
  exists x y z, interp points t = Some (triple x y z).
Proof.
  destruct (head points) as [first|] eqn:Hh.
  2:{ unfold interp. rewrite Hh. eauto. }
  destruct (last points) as [final|] eqn:Hl.
  2:{ unfold interp. rewrite Hh, Hl. eauto. }
  destruct (Z.le_gt_cases t (ts first)).
  { rewrite (interp_before _ _ first); eauto. }
  destruct (Z.le_gt_cases (ts final) t).
  { rewrite (interp_after _ _ first final); eauto with lia. }
  destruct (interp_interior points t first final) as (a & b & _ & _ & _ & _ & ->);
    eauto with lia.
Qed.

Lemma triple_wave x y z : obj_get (triple x y z) "wave" = num_or_null x.
Proof. unfold obj_get, triple. by rewrite lookup_insert_eq. Qed.
Lemma triple_wind x y z : obj_get (triple x y z) "wind" = num_or_null y.
Proof. unfold obj_get, triple. rewrite lookup_insert_ne by done. by rewrite lookup_insert_eq. Qed.
Lemma triple_sw x y z : obj_get (triple x y z) "sw" = num_or_null z.
Proof. unfold obj_get, triple. rewrite !lookup_insert_ne by done. by rewrite lookup_insert_eq. Qed.
Lemma triple_period x y z : obj_get (triple x y z) "period" = JUndefined.
Proof. unfold obj_get, triple. rewrite !lookup_insert_ne by done. by rewrite lookup_empty. Qed.
Lemma triple_swell x y z : obj_get (triple x y z) "swell" = JUndefined.
Proof. unfold obj_get, triple. rewrite !lookup_insert_ne by done. by rewrite lookup_empty. Qed.


(** *** The 15-minute grid *)

Lemma stepMs_pos : 0 < stepMs.
Proof. done. Qed.

Lemma grid_from_lookup fuel t e k x :
  grid_from fuel t e !! k = Some x -> x = t + Z.of_nat k * stepMs /\ x <= e.
Proof.
  revert t k. induction fuel as [|fuel IH]; intros t k; simpl; [done|].
  destruct (Z.leb_spec t e); [|done].
  destruct k as [|k]; simpl.
  - intros [= <-]. lia.
  - intros Hk. apply IH in Hk. lia.
Qed.

Lemma grid_from_enough fuel t e k :
  (k < fuel)%nat -> t + Z.of_nat k * stepMs <= e ->
  grid_from fuel t e !! k = Some (t + Z.of_nat k * stepMs).
Proof.
  pose proof stepMs_pos.
  revert t k. induction fuel as [|fuel IH]; intros t k Hk Hle; [lia|]. simpl.
  destruct (Z.leb_spec t e); [|nia].
  destruct k as [|k]; simpl.
  - f_equal. lia.
  - rewrite IH; [f_equal; lia|lia|lia].
Qed.

(** The loop visits exactly the instants [startTs + k * stepMs] that do
    not exceed [endTs]. *)
Lemma grid_lookup startTs endTs k x :
  grid startTs endTs !! k = Some x <-> x = startTs + Z.of_nat k * stepMs /\ x <= endTs.
Proof.
  pose proof stepMs_pos. split.
  - apply grid_from_lookup.
  - intros [-> Hle]. apply grid_from_enough; [|done].
    assert (Z.of_nat k <= (endTs - startTs) / stepMs).
    { apply Z.div_le_lower_bound; lia. }
    lia.
Qed.

Lemma grid_from_ge fuel t e : Forall (fun x => t <= x) (grid_from fuel t e).
Proof.
  pose proof stepMs_pos.
  revert t. induction fuel as [|fuel IH]; intros t; simpl; [constructor|].
  destruct (Z.leb_spec t e); constructor; [lia|].
  eapply Forall_impl; [apply IH|]. simpl. intros. lia.
Qed.

Lemma grid_from_increasing fuel t e : StronglySorted Z.lt (grid_from fuel t e).
Proof.
  pose proof stepMs_pos.
  revert t. induction fuel as [|fuel IH]; intros t; simpl; [constructor|].
  destruct (Z.leb_spec t e); constructor; [apply IH|].
  eapply Forall_impl; [apply grid_from_ge|]. simpl. intros. lia.
Qed.

(** *** Path B *)

(** What the loop has pushed when it ends without an exception. *)
Lemma fill_series_Ok points instants s0 out :
  fill_series points instants s0 = Ok out ->
  exists vs,
    Forall2 (fun t v => interp points t = Some v) instants vs
    /\ out =
       {| time := time s0 ++ instants;
          wave_height := wave_height s0 ++ ((fun v => obj_get v "wave") <$> vs);
          windspeed_10m := windspeed_10m s0 ++ ((fun v => obj_get v "wind") <$> vs);
          shortwave_radiation :=
            shortwave_radiation s0 ++ ((fun v => obj_get v "sw") <$> vs);
          significant_wave_period :=
            significant_wave_period s0 ++ ((fun v => obj_get v "period") <$> vs);
          swell_height := swell_height s0 ++ ((fun v => obj_get v "swell") <$> vs) |}.
Proof.
  revert s0. induction instants as [|t rest IH]; intros s0; simpl.
  - intros [= <-]. exists []. split; [constructor|].
    destruct s0; simpl. by rewrite !app_nil_r.
  - destruct (interp points t) as [v|] eqn:Hv; [|done].
    destruct (negb (Str.valid_time t)); [done|].
    destruct (maxArrayLength <=? Z.of_nat (length (time s0))); [done|].
    intros Hrest. apply IH in Hrest as (vs & Hvs & ->).
    exists (v :: vs). split; [by constructor|].
    simpl. by rewrite <- !app_assoc.
Qed.

(** The loop ends without an exception when every instant is a time
    value and the arrays have room for them. *)
Lemma fill_series_total points instants s0 :
  Forall (fun t => Str.valid_time t = true) instants ->
  Z.of_nat (length (time s0) + length instants) <= maxArrayLength ->
  exists out, fill_series points instants s0 = Ok out.
Proof.
  revert s0. induction instants as [|t rest IH]; intros s0 Hvalid Hroom; simpl.
  - by eexists.
  - apply Forall_cons in Hvalid as [Ht Hrest].
    destruct (interp_triple points t) as (x & y & z & ->).
    rewrite Ht. simpl.
    destruct (Z.leb_spec maxArrayLength (Z.of_nat (length (time s0)))) as [Hfull|_].
    { simpl in Hroom. lia. }
    apply IH; [done|]. simpl. rewrite length_app. simpl in *. lia.
Qed.

Lemma grid_from_length fuel t e : (length (grid_from fuel t e) <= fuel)%nat.
Proof.
  revert t. induction fuel as [|fuel IH]; intros t; simpl; [lia|].
  destruct (t <=? e); simpl; [|lia]. specialize (IH (t + stepMs)). lia.
Qed.

(** A fillable window: every instant of its grid is a time value, and
    there are at most 2^32 - 1 of them. *)
Lemma grid_fillable startTs endTs :
  fillable startTs endTs = true ->
  Forall (fun t => Str.valid_time t = true) (grid startTs endTs)
  /\ Z.of_nat (length (grid startTs endTs)) <= maxArrayLength.
Proof.
  unfold fillable, Str.valid_time. intros H.
  apply andb_prop in H as [H Hlen]. apply andb_prop in H as [Hs He].
  apply andb_prop in Hs as [Hs1 Hs2]. apply andb_prop in He as [He1 He2].
  apply Z.leb_le in Hs1, Hs2, He1, He2. apply Z.ltb_lt in Hlen.
  pose proof stepMs_pos. split.
  - apply Forall_forall. intros x Hx.
    apply list_elem_of_lookup in Hx as [k Hk].
    apply grid_lookup in Hk as [-> Hle].
    apply andb_true_intro. split; apply Z.leb_le; nia.
  - unfold grid.
    pose proof (grid_from_length (Z.to_nat ((endTs - startTs) / stepMs + 1)) startTs endTs).
    unfold maxArrayLength in *. lia.
Qed.

(** Path B on a fillable window does not throw. *)
Lemma path_b_total hourly startTs endTs :
  fillable startTs endTs = true -> exists out, path_b hourly startTs endTs = Ok out.
Proof.
  intros Hw. apply grid_fillable in Hw as [Hvalid Hroom].
  apply fill_series_total; [done|]. simpl. lia.
Qed.

(** Path B throws on a window that starts before the first instant a
    [Date] holds, or after the last. *)
Lemma path_b_invalid_start hourly startTs endTs :
  Str.valid_time startTs = false -> startTs <= endTs ->
  path_b hourly startTs endTs = Throw (RangeError "Invalid time value").
Proof.
  intros Hinvalid Hle. unfold path_b, grid.
  pose proof stepMs_pos.
  assert (Hfuel : 0 <= (endTs - startTs) / stepMs) by (apply Z.div_pos; lia).
  destruct (Z.to_nat ((endTs - startTs) / stepMs + 1)) as [|fuel] eqn:Hn; [lia|].
  simpl. rewrite (proj2 (Z.leb_le _ _) Hle). simpl.
  destruct (interp_triple (hourly_points hourly) startTs) as (x & y & z & ->).
  by rewrite Hinvalid.
Qed.

(** When Path B returns, its [time] is the grid, and row [k] of every
    array is the property of that name of [interp] at the [k]-th instant. *)
Lemma path_b_rows hourly startTs endTs out :
  path_b hourly startTs endTs = Ok out ->
  time out = grid startTs endTs
  /\ forall k t, grid startTs endTs !! k = Some t ->
       exists v,
         interp (hourly_points hourly) t = Some v
         /\ wave_height out !! k = Some (obj_get v "wave")
         /\ windspeed_10m out !! k = Some (obj_get v "wind")
         /\ shortwave_radiation out !! k = Some (obj_get v "sw")
         /\ significant_wave_period out !! k = Some (obj_get v "period")
         /\ swell_height out !! k = Some (obj_get v "swell").
Proof.
  unfold path_b. intros Hout.
  apply fill_series_Ok in Hout as (vs & Hvs & ->).
  split; [done|]. simpl.
  intros k t Hk.
  destruct (Forall2_lookup_l _ _ _ _ _ Hvs Hk) as (v & Hv & Hi).
  exists v. split; [done|]. rewrite !list_lookup_fmap, Hv. done.
Qed.


(** *** Path A *)

Lemma samples_from_cons sw i t rest :
  samples_from sw i (t :: rest) = (t, cell sw i) :: samples_from sw (S i) rest.
Proof.
  unfold samples_from. rewrite imap_cons. f_equal.
  - by rewrite Nat.add_0_r.
  - apply imap_ext. intros j x _. simpl. by rewrite Nat.add_succ_r.
Qed.

Lemma fill_buckets_lookup sw startTs endTs i minTimes m k :
  fill_buckets sw startTs endTs i minTimes m !! k =
    match bucket_samples startTs endTs k (samples_from sw i minTimes) with
    | [] => m !! k
    | xs => Some (accumulate (default (Bucket 0 0) (m !! k)) xs)
    end.
Proof.
  revert i m. induction minTimes as [|t rest IH]; intros i m; [done|].
  rewrite samples_from_cons. simpl fill_buckets. rewrite IH.
  unfold bucket_samples.
  destruct (lt_bound t startTs || gt_bound t endTs) eqn:Hout.
  { rewrite filter_cons_False; [done|].
    unfold in_window. simpl. rewrite Hout. by intros [[] _]. }
  destruct (decide (bucket_of t = k)) as [<-|Hne].
  - rewrite filter_cons_True.
    2:{ unfold in_window. simpl. by rewrite Hout. }
    rewrite lookup_insert_eq. unfold contribution.
    by destruct (filter _ (samples_from sw (S i) rest)).
  - rewrite filter_cons_False by (by intros [_ ?]).
    by rewrite lookup_insert_ne.
Qed.

Lemma accumulate_sum b xs :
  sum (accumulate b xs) = foldl (fun acc x => (acc + default 0 x.2)%float) (sum b) xs
  /\ count (accumulate b xs) = count b + Z.of_nat (length xs).
Proof.
  revert b. induction xs as [|x xs IH]; intros b; simpl; [split; [done|lia]|].
  destruct (IH (Bucket (sum b + default 0%float x.2) (count b + 1))) as [-> ->].
  simpl. split; [done|lia].
Qed.

(** A bucket exists exactly when a sample of the window falls in it, and
    then holds the running sum and the number of those samples. *)
Lemma buckets_filled sw startTs endTs minTimes k :
  fill_buckets sw startTs endTs 0 minTimes ∅ !! k =
    match bucket_samples startTs endTs k (samples_from sw 0 minTimes) with
    | [] => None
    | xs => Some (Bucket (total xs) (Z.of_nat (length xs)))
    end.
Proof.
  rewrite fill_buckets_lookup, lookup_empty. simpl.
  destruct (bucket_samples _ _ _ _) as [|x xs] eqn:Hxs; [done|].
  f_equal. destruct (accumulate_sum (Bucket 0 0) (x :: xs)) as [Hs Hc].
  destruct (accumulate _ _) as [s c]. simpl in *. by subst.
Qed.

Lemma sorted_keys_elem (m : gmap Z bucket) k : k ∈ sorted_keys m <-> is_Some (m !! k).
Proof.
  unfold sorted_keys. rewrite merge_sort_Permutation, list_elem_of_fmap. split.
  - intros ([k' b] & -> & Hin). apply elem_of_map_to_list in Hin. by exists b.
  - intros [b Hb]. exists (k, b). split; [done|]. by apply elem_of_map_to_list.
Qed.

Lemma sorted_keys_increasing (m : gmap Z bucket) : StronglySorted Z.lt (sorted_keys m).
Proof.
  apply increasing_of_sorted_NoDup.
  - apply (StronglySorted_merge_sort Z.le).
  - unfold sorted_keys. rewrite merge_sort_Permutation. apply NoDup_fst_map_to_list.
Qed.

Lemma emit_buckets_spec (m : gmap Z bucket) keys s0 :
  (forall k, k ∈ keys -> is_Some (m !! k)) ->
  emit_buckets m keys s0 =
    Some {| time := time s0 ++ keys;
            shortwave_radiation :=
              shortwave_radiation s0
                ++ ((fun k => bucket_mean (default (Bucket 0 0) (m !! k))) <$> keys);
            wave_height := wave_height s0;
            windspeed_10m := windspeed_10m s0;
            significant_wave_period := significant_wave_period s0;
            swell_height := swell_height s0 |}.
Proof.
  revert s0. induction keys as [|k keys IH]; intros s0 Hin; simpl.
  - destruct s0; simpl. by rewrite !app_nil_r.
  - destruct (Hin k) as [b Hb]; [by left|]. rewrite Hb.
    rewrite IH by (intros; apply Hin; by right). simpl.
    by rewrite <- !app_assoc.
Qed.

Lemma mix_blended fr x y : num_or_null (mix fr x y) = blended fr x y.
Proof. by destruct x, y. Qed.

(** In an ascending series the scan stops at the one pair of neighbours
    with [a.ts < t <= b.ts]. *)
Lemma scan_unique points t i a b :
  ascending points ->
  points !! i = Some a -> points !! S i = Some b -> ts a < t -> t <= ts b ->
  scan (length points) points t 0 = i.
Proof.
  intros Hasc Ha Hb Hat Hbt.
  set (j := scan (length points) points t 0).
  pose proof (lookup_lt_Some _ _ _ Hb) as Hlen.
  destruct (Nat.lt_trichotomy j i) as [Hlt|[Heq|Hgt]]; [|done|].
  - destruct (scan_stop (length points) points t 0) as (p & Hp & Hpt); [lia|fold j; lia|].
    fold j in Hp.
    assert (ts p <= ts a); [|lia].
    destruct (decide (S j = i)) as [Hji|Hji]; [subst i; rewrite Hp in Ha; injection Ha as ->; lia|].
    apply (StronglySorted_lookup_lt _ points (S j) i p a Hasc); [lia|done|done].
  - destruct (scan_passed (length points) points t 0 i) as (p & Hp & Hpt); [fold j; lia|].
    rewrite Hp in Hb. injection Hb as ->. lia.
Qed.

Lemma members_bucket_samples startTs endTs k xs :
  bucket_samples (Some startTs) (Some endTs) k xs = members startTs endTs k xs.
Proof.
  unfold bucket_samples, members. apply list_filter_iff. intros [t v]. simpl.
  unfold in_window, bucket_of, stepMs. simpl.
  destruct (Z.ltb_spec t startTs), (Z.ltb_spec endTs t); simpl; intuition lia.
Qed.

Lemma hasMinutely_Some json :
  hasMinutely json = true -> exists minutely, mj_minutely json = Some minutely.
Proof. unfold hasMinutely. destruct (mj_minutely json); [eauto|done]. Qed.

(** What Path A returns, for any window. *)
Lemma path_a_spec minutely startTs endTs :
  let buckets :=
    fill_buckets (mn_shortwave_radiation minutely) startTs endTs 0
      (default [] (mn_time minutely)) ∅ in
  path_a minutely startTs endTs =
    Some {| time := sorted_keys buckets;
            shortwave_radiation :=
              (fun k => bucket_mean (default (Bucket 0 0) (buckets !! k)))
                <$> sorted_keys buckets;
            wave_height := []; windspeed_10m := [];
            significant_wave_period := []; swell_height := [] |}.
Proof.
  intros buckets. unfold path_a. fold buckets.
  rewrite emit_buckets_spec; [done|].
  intros k. by rewrite sorted_keys_elem.
Qed.


Lemma path_b_lengths hourly startTs endTs out :
  path_b hourly startTs endTs = Ok out ->
  time out = grid startTs endTs
  /\ length (wave_height out) = length (time out)
  /\ length (windspeed_10m out) = length (time out)
  /\ length (shortwave_radiation out) = length (time out)
  /\ length (significant_wave_period out) = length (time out)
  /\ length (swell_height out) = length (time out)
  /\ Forall (eq JUndefined) (significant_wave_period out)
  /\ Forall (eq JUndefined) (swell_height out).
Proof.
  unfold path_b. intros Hout.
  apply fill_series_Ok in Hout as (vs & Hvs & ->).
  simpl. rewrite !length_fmap.
  pose proof (Forall2_length _ _ _ Hvs) as Hlen.
  repeat split; try done.
  - apply Forall_fmap, Forall_forall. intros v Hv. simpl.
    apply list_elem_of_lookup in Hv as [k Hk].
    destruct (Forall2_lookup_r _ _ _ _ _ Hvs Hk) as (t & _ & Ht).
    destruct (interp_triple (hourly_points hourly) t) as (x & y & z & Hi).
    rewrite Hi in Ht. injection Ht as <-. by rewrite triple_period.
  - apply Forall_fmap, Forall_forall. intros v Hv. simpl.
    apply list_elem_of_lookup in Hv as [k Hk].
    destruct (Forall2_lookup_r _ _ _ _ _ Hvs Hk) as (t & _ & Ht).
    destruct (interp_triple (hourly_points hourly) t) as (x & y & z & Hi).
    rewrite Hi in Ht. injection Ht as <-. by rewrite triple_swell.
Qed.

End ResamplerFacts.

(** ** The upstream client *)

Module NetFacts.

Import Spec Support.

Section Fetch.
Context {B : Type}.
Implicit Types w : world B.

Lemma frame_refl w : frame w w.
Proof. by unfold frame. Qed.

Lemma frame_trans w1 w2 w3 : frame w1 w2 -> frame w2 w3 -> frame w1 w3.
Proof. unfold frame. by intros (-> & -> & -> & ->) (-> & -> & -> & ->). Qed.

Lemma later_refl w : later w w.
Proof. unfold later. lia. Qed.

Lemma later_trans w1 w2 w3 : later w1 w2 -> later w2 w3 -> later w1 w3.
Proof. unfold later. lia. Qed.

Lemma timer_ms_pos d : 0 < timer_ms d.
Proof. unfold timer_ms. destruct (_ && _)%bool; lia. Qed.

Lemma fetchWithTimeout_run u timeout w :
  Net.fetchWithTimeout u timeout w
  = (answer (upstream w (fetches w)) timeout, after_fetch u timeout w).
Proof.
  unfold Net.fetchWithTimeout, answer, after_fetch. simpl.
  destruct (latency _ <? timeout); [|done]. by destruct (outcome _).
Qed.

Lemma after_fetch_frame u timeout w : frame w (after_fetch u timeout w).
Proof. by unfold frame, after_fetch. Qed.

Lemma after_fetch_later u timeout w : 0 <= timeout -> later w (after_fetch u timeout w).
Proof.
  intros. unfold later, after_fetch. simpl. destruct (latency _ <? timeout); lia.
Qed.

(** What the loop makes of one call: the response to return, or the error
    to remember. *)
Lemma answer_retryable (s : served B) timeout :
  retryable s timeout ->
  match answer s timeout with
  | Ok resp => ok resp || (status resp <? 500) = false
               /\ error_of s timeout = Error ("Upstream responded " +:+ pretty (status resp))
  | Throw err => error_of s timeout = err
  end.
Proof.
  unfold retryable, answer, error_of.
  destruct (Z.ltb_spec (latency s) timeout); [|done].
  destruct (outcome s) as [r|e]; [|done].
  intros [?|?]; [lia|]. split; [|done].
  unfold ok. destruct (Z.leb_spec (status r) 299), (Z.ltb_spec (status r) 500);
    rewrite ?andb_false_r; simpl; try done; lia.
Qed.

Lemma after_wait_frame backoffBase attempt w : frame w (after_wait backoffBase attempt w).
Proof. by unfold frame, after_wait. Qed.

Lemma after_wait_later backoffBase attempt w : later w (after_wait backoffBase attempt w).
Proof.
  unfold later, after_wait. simpl.
  pose proof (timer_ms_pos (Net.backoff_delay backoffBase attempt (random w (draws w)))). lia.
Qed.

(** One pass of the loop. *)
Lemma retry_loop_step fuel u timeout retries backoffBase attempt lastErr w :
  (attempt <= retries)%nat ->
  Net.retry_loop (S fuel) u timeout retries backoffBase attempt lastErr w =
    let w1 := after_fetch u timeout w in
    let continue lastErr' :=
      if (retries <? S attempt)%nat then (Throw (default Net.unknown_error lastErr'), w1)
      else Net.retry_loop fuel u timeout retries backoffBase (S attempt) lastErr'
             (after_wait backoffBase (S attempt) w1) in
    match answer (upstream w (fetches w)) timeout with
    | Ok resp =>
        if ok resp || (status resp <? 500) then (Ok resp, w1)
        else continue (Some (Error ("Upstream responded " +:+ pretty (status resp))))
    | Throw err => continue (Some err)
    end.
Proof.
  intros Hle. cbn [Net.retry_loop]. rewrite (proj2 (Nat.leb_le _ _) Hle).
  unfold bind at 1, attempt_of. rewrite fetchWithTimeout_run. cbv zeta.
  destruct (answer _ _) as [resp|err].
  - destruct (ok resp || (status resp <? 500)); [done|].
    by destruct (retries <? S attempt)%nat.
  - by destruct (retries <? S attempt)%nat.
Qed.

Section Loop.
Variables (u : url) (timeout : Z) (retries : nat) (backoffBase : float).
Variables (up : nat -> served B) (rnd : nat -> float) (f0 d0 : nat).

(** The delay before retry number [n], counted from 1. *)
Let delay (n : nat) : float :=
  Net.backoff_delay backoffBase n (rnd (d0 + (n - 1))).

(** Every call from attempt [attempt] on fails retryably: the loop gives
    up after the last of them. *)
Lemma retry_loop_exhausted k attempt lastErr w :
  (attempt + k)%nat = retries ->
  upstream w = up -> random w = rnd ->
  fetches w = (f0 + attempt)%nat -> draws w = (d0 + attempt)%nat ->
  (forall n, (attempt <= n <= retries)%nat -> retryable (up (f0 + n)%nat) timeout) ->
  exists w',
    Net.retry_loop (S k) u timeout retries backoffBase attempt lastErr w
    = (Throw (error_of (up (f0 + retries)%nat) timeout), w')
    /\ trace w' = trace w ++ retry_trace u timeout delay attempt k
    /\ fetches w' = (f0 + S retries)%nat
    /\ draws w' = (d0 + retries)%nat
    /\ frame w w'.
Proof.
  revert attempt lastErr w.
  induction k as [|k IH]; intros attempt lastErr w Hk Hup Hrnd Hf Hd Hall;
    rewrite retry_loop_step by lia; cbv zeta;
    pose proof (answer_retryable _ timeout (Hall attempt ltac:(lia))) as Ha;
    rewrite Hup, Hf.
  - assert (attempt = retries) by lia. subst attempt.
    rewrite (proj2 (Nat.ltb_lt _ _)) by lia.
    exists (after_fetch u timeout w).
    assert (Hrest : trace (after_fetch u timeout w) = trace w ++ retry_trace u timeout delay retries 0
                    /\ fetches (after_fetch u timeout w) = (f0 + S retries)%nat
                    /\ draws (after_fetch u timeout w) = (d0 + retries)%nat
                    /\ frame w (after_fetch u timeout w)).
    { split; [done|]. split; [simpl; lia|]. split; [done|]. apply after_fetch_frame. }
    destruct (answer _ _) as [resp|err].
    + destruct Ha as [-> ->]. done.
    + subst err. done.
  - rewrite (proj2 (Nat.ltb_ge _ _)) by lia.
    set (w2 := after_wait backoffBase (S attempt) (after_fetch u timeout w)).
    assert (Hstep : forall lastErr',
      exists w',
        Net.retry_loop (S k) u timeout retries backoffBase (S attempt) lastErr' w2
        = (Throw (error_of (up (f0 + retries)%nat) timeout), w')
        /\ trace w' = trace w ++ retry_trace u timeout delay attempt (S k)
        /\ fetches w' = (f0 + S retries)%nat
        /\ draws w' = (d0 + retries)%nat
        /\ frame w w').
    { intros lastErr'.
      destruct (IH (S attempt) lastErr' w2) as (w' & Hrun & Htr & Hfe & Hdr & Hfr);
        try done; try (simpl; lia).
      { intros n Hn. apply Hall. lia. }
      exists w'. split; [exact Hrun|]. split; [|split; [done|split; [done|]]].
      - rewrite Htr. simpl. rewrite <- !app_assoc. simpl. unfold delay at 2.
        rewrite Hrnd, Hd. simpl. by replace (attempt - 0)%nat with attempt by lia.
      - eapply frame_trans; [|exact Hfr]. eapply frame_trans.
        + apply after_fetch_frame.
        + apply after_wait_frame. }
    destruct (answer _ _) as [resp|err].
    + destruct Ha as [-> _]. apply Hstep.
    + apply Hstep.
Qed.

(** The calls from attempt [attempt] on fail retryably until call number
    [j], which is answered in time with a status below 500: the loop
    returns that response at once. *)
Lemma retry_loop_answered k attempt lastErr w j latency resp :
  (attempt + k)%nat = j -> (j <= retries)%nat ->
  upstream w = up -> random w = rnd ->
  fetches w = (f0 + attempt)%nat -> draws w = (d0 + attempt)%nat ->
  (forall n, (attempt <= n < j)%nat -> retryable (up (f0 + n)%nat) timeout) ->
  up (f0 + j)%nat = Served latency (Responds resp) ->
  latency < timeout -> status resp < 500 ->
  exists w',
    Net.retry_loop (S (retries - attempt)) u timeout retries backoffBase attempt lastErr w
    = (Ok resp, w')
    /\ trace w' = trace w ++ retry_trace u timeout delay attempt k
    /\ fetches w' = (f0 + S j)%nat
    /\ draws w' = (d0 + j)%nat
    /\ frame w w'.
Proof.
  revert attempt lastErr w.
  induction k as [|k IH]; intros attempt lastErr w Hk Hj Hup Hrnd Hf Hd Hall Hans Hlat Hst;
    rewrite retry_loop_step by lia; cbv zeta; rewrite Hup, Hf.
  - assert (attempt = j) by lia. subst attempt.
    rewrite Hans. unfold answer. simpl.
    rewrite (proj2 (Z.ltb_lt _ _) Hlat), (proj2 (Z.ltb_lt _ _) Hst), orb_true_r.
    eexists. split; [done|]. split; [done|]. split; [simpl; lia|]. split; [done|].
    apply after_fetch_frame.
  - pose proof (answer_retryable _ timeout (Hall attempt ltac:(lia))) as Ha.
    rewrite (proj2 (Nat.ltb_ge _ _)) by lia.
    set (w2 := after_wait backoffBase (S attempt) (after_fetch u timeout w)).
    assert (Hstep : forall lastErr',
      exists w',
        Net.retry_loop (retries - attempt) u timeout retries backoffBase (S attempt) lastErr' w2
        = (Ok resp, w')
        /\ trace w' = trace w ++ retry_trace u timeout delay attempt (S k)
        /\ fetches w' = (f0 + S j)%nat
        /\ draws w' = (d0 + j)%nat
        /\ frame w w').
    { intros lastErr'.
      replace (retries - attempt)%nat with (S (retries - S attempt)) by lia.
      destruct (IH (S attempt) lastErr' w2) as (w' & Hrun & Htr & Hfe & Hdr & Hfr);
        try done; try (simpl; lia).
      { intros n Hn. apply Hall. lia. }
      exists w'. split; [exact Hrun|]. split; [|split; [done|split; [done|]]].
      - rewrite Htr. simpl. rewrite <- !app_assoc. simpl. unfold delay at 2.
        rewrite Hrnd, Hd. simpl. by replace (attempt - 0)%nat with attempt by lia.
      - eapply frame_trans; [|exact Hfr]. eapply frame_trans.
        + apply after_fetch_frame.
        + apply after_wait_frame. }
    destruct (answer _ _) as [r|err].
    + destruct Ha as [-> _]. apply Hstep.
    + apply Hstep.
Qed.

End Loop.

(** Whatever the upstream does, the loop only calls [fetch], draws random
    numbers and sleeps. *)
Lemma retry_loop_frame u timeout retries backoffBase k attempt lastErr w r w' :
  0 <= timeout ->
  Net.retry_loop k u timeout retries backoffBase attempt lastErr w = (r, w') ->
  frame w w' /\ later w w'.
Proof.
  intros Ht. revert attempt lastErr w r w'.
  induction k as [|k IH]; intros attempt lastErr w r w'.
  - simpl. intros [= _ <-]. split; [apply frame_refl|apply later_refl].
  - destruct (Nat.leb_spec attempt retries) as [Hle|Hgt].
    + rewrite retry_loop_step by done. cbv zeta.
      pose proof (after_fetch_frame u timeout w) as Hf1.
      pose proof (after_fetch_later u timeout w Ht) as Hl1.
      assert (Hc : forall e r w',
        (if (retries <? S attempt)%nat
         then (Throw (default Net.unknown_error e), after_fetch u timeout w)
         else Net.retry_loop k u timeout retries backoffBase (S attempt) e
                (after_wait backoffBase (S attempt) (after_fetch u timeout w))) = (r, w') ->
        frame w w' /\ later w w').
      { intros e r0 w0. destruct (retries <? S attempt)%nat.
        - by intros [= _ <-].
        - intros Hrun. apply IH in Hrun as [Hf Hl]. split.
          + eapply frame_trans; [|exact Hf].
            eapply frame_trans; [exact Hf1|apply after_wait_frame].
          + eapply later_trans; [|exact Hl].
            eapply later_trans; [exact Hl1|apply after_wait_later]. }
      destruct (answer _ _) as [resp|err]; [|apply Hc].
      destruct (ok resp || (status resp <? 500)); [|apply Hc].
      by intros [= _ <-].
    + cbn [Net.retry_loop]. rewrite (proj2 (Nat.leb_gt _ _)) by lia.
      intros [= _ <-]. split; [apply frame_refl|apply later_refl].
Qed.

End Fetch.

Lemma float_263_neq : 263%float <> 262.5%float.
Proof. intros H. apply (f_equal Prim2SF) in H. vm_compute in H. discriminate H. Qed.

End NetFacts.

(** ** Computations *)

Module MonadFacts.

Import Spec Support Routes NetFacts.

Section Quiet.
Context {B : Type}.
Implicit Types w : world B.

Lemma quiet_ret {A} (a : A) : quiet (ret (B:=B) a).
Proof. intros w r w' [= _ <-]. split; [apply frame_refl|apply later_refl]. Qed.

Lemma quiet_throw {A} e : quiet (throw (B:=B) (A:=A) e).
Proof. intros w r w' [= _ <-]. split; [apply frame_refl|apply later_refl]. Qed.

Lemma quiet_bind {A C} (m : M B A) (k : A -> M B C) :
  quiet m -> (forall a, quiet (k a)) -> quiet (bind m k).
Proof.
  intros Hm Hk w r w'. unfold bind.
  destruct (m w) as [[a|e] w1] eqn:Hrun; destruct (Hm _ _ _ Hrun) as [Hf Hl].
  - intros Hrun2. destruct (Hk a _ _ _ Hrun2). split.
    + by eapply frame_trans. + by eapply later_trans.
  - by intros [= _ <-].
Qed.

Lemma quiet_try_catch {A} (m : M B A) (h : js_error -> M B A) :
  quiet m -> (forall e, quiet (h e)) -> quiet (try_catch m h).
Proof.
  intros Hm Hh w r w'. unfold try_catch.
  destruct (m w) as [[a|e] w1] eqn:Hrun; destruct (Hm _ _ _ Hrun) as [Hf Hl].
  - by intros [= _ <-].
  - intros Hrun2. destruct (Hh e _ _ _ Hrun2). split.
    + by eapply frame_trans. + by eapply later_trans.
Qed.

Lemma quiet_Date_now : quiet (Date_now (B:=B)).
Proof. intros w r w' [= _ <-]. split; [apply frame_refl|apply later_refl]. Qed.

Lemma quiet_Math_random : quiet (Math_random (B:=B)).
Proof. intros w r w' [= _ <-]. split; [done|]. unfold later. simpl. lia. Qed.

Lemma quiet_mock_forced : quiet (mock_forced (B:=B)).
Proof. intros w r w' [= _ <-]. split; [apply frame_refl|apply later_refl]. Qed.

Lemma quiet_cache_get key : quiet (cache_get (B:=B) key).
Proof. intros w r w' [= _ <-]. split; [apply frame_refl|apply later_refl]. Qed.

Lemma quiet_json (r : response B) : quiet (Sys.json r).
Proof. unfold Sys.json. destruct (body r); [apply quiet_ret|apply quiet_throw]. Qed.

Lemma quiet_prop v k : quiet (prop (B:=B) v k).
Proof. unfold prop. destruct (js_get v k); [apply quiet_ret|apply quiet_throw]. Qed.

Lemma quiet_fetchWithTimeout u timeout : 0 <= timeout -> quiet (Net.fetchWithTimeout (B:=B) u timeout).
Proof.
  intros Ht w r w'. rewrite fetchWithTimeout_run. intros [= _ <-].
  split; [apply after_fetch_frame|by apply after_fetch_later].
Qed.

Lemma quiet_fetchWithRetries u timeout retries backoffBase :
  0 <= timeout -> quiet (Net.fetchWithRetries (B:=B) u timeout retries backoffBase).
Proof. intros Ht w r w'. unfold Net.fetchWithRetries. by apply retry_loop_frame. Qed.

(** [try { m } catch (err) { return reply(err) }] always returns. *)
Lemma try_catch_returns {A} (m : M B A) (f : js_error -> A) w :
  exists a w', try_catch m (fun e => ret (f e)) w = (Ok a, w').
Proof. unfold try_catch. destruct (m w) as [[a|e] w1]; eauto. Qed.

Lemma quiet_sleep d : quiet (sleep (B:=B) d).
Proof.
  intros w r w' [= _ <-]. split; [done|]. unfold later. simpl.
  pose proof (timer_ms_pos d). lia.
Qed.

Lemma bind_inv {A C} (m : M B A) (k : A -> M B C) w r w' :
  bind m k w = (r, w') ->
  (exists a w1, m w = (Ok a, w1) /\ k a w1 = (r, w'))
  \/ (exists e, m w = (Throw e, w') /\ r = Throw e).
Proof.
  unfold bind. destruct (m w) as [[a|e] w1]; [eauto|].
  intros [= <- <-]. eauto.
Qed.

Lemma try_catch_inv {A} (m : M B A) (h : js_error -> M B A) w r w' :
  try_catch m h w = (r, w') ->
  (exists a, m w = (Ok a, w') /\ r = Ok a)
  \/ (exists e w1, m w = (Throw e, w1) /\ h e w1 = (r, w')).
Proof.
  unfold try_catch. destruct (m w) as [[a|e] w1]; [|eauto].
  intros [= <- <-]. eauto.
Qed.

Lemma returns_ret {A} (a : A) : returns (ret (B:=B) a).
Proof. intros w. by exists a, w. Qed.

Lemma returns_bind {A C} (m : M B A) (k : A -> M B C) :
  returns m -> (forall a, returns (k a)) -> returns (bind m k).
Proof.
  intros Hm Hk w. unfold bind. destruct (Hm w) as (a & w1 & ->). apply Hk.
Qed.

Lemma returns_Math_random : returns (Math_random (B:=B)).
Proof. intros w. unfold Math_random. eauto. Qed.

Lemma returns_Date_now : returns (Date_now (B:=B)).
Proof. intros w. unfold Date_now. eauto. Qed.

End Quiet.

Create HintDb quiet.
#[export] Hint Resolve quiet_ret quiet_throw quiet_Date_now quiet_Math_random
  quiet_mock_forced quiet_cache_get quiet_json quiet_prop quiet_sleep : quiet.
#[export] Hint Resolve returns_ret returns_Math_random returns_Date_now : quiet.
#[export] Hint Extern 2 (returns (bind _ _)) => apply returns_bind; [|intros] : quiet.
#[export] Hint Extern 3 (returns (if ?c then _ else _)) => destruct c : quiet.
#[export] Hint Extern 1 (quiet (Net.fetchWithTimeout _ _)) =>
  apply quiet_fetchWithTimeout; lia : quiet.
#[export] Hint Extern 1 (quiet (Net.fetchWithRetries _ _ _ _)) =>
  apply quiet_fetchWithRetries; lia : quiet.
#[export] Hint Extern 2 (quiet (bind _ _)) => apply quiet_bind; [|intros] : quiet.
#[export] Hint Extern 2 (quiet (try_catch _ _)) => apply quiet_try_catch; [|intros] : quiet.
#[export] Hint Extern 3 (quiet (if ?c then _ else _)) => destruct c : quiet.
#[export] Hint Extern 3 (quiet (match ?c with _ => _ end)) => destruct c : quiet.

End MonadFacts.

Import Spec Support Routes Endpoints NetFacts MonadFacts.

(** Inverts the run [H] of a [bind]: the first computation returned and
    the rest ran (goal 1, with what is known of the step), or it threw. *)
Ltac run H :=
  let a := fresh "a" in
  let w1 := fresh "w" in
  let Hm := fresh "Hm" in
  let e := fresh "e" in
  apply bind_inv in H as [(a & w1 & Hm & H)|(e & Hm & ->)];
  [ match type of Hm with
    | ?m ?w = _ =>
        let Hq := fresh "Hq" in
        assert (Hq : quiet m) by eauto 20 with quiet;
        pose proof (Hq _ _ _ Hm) as [? ?]; clear Hq
    end
  | match type of Hm with
    | ?m ?w = _ =>
        let Hq := fresh "Hq" in
        assert (Hq : quiet m) by eauto 20 with quiet;
        pose proof (Hq _ _ _ Hm) as [? ?]; clear Hq
    end ].

(** Closes a goal about the cache or the clock of worlds linked by steps. *)
Ltac same_world :=
  unfold frame, later in *; simpl in *;
  repeat match goal with H : _ /\ _ |- _ => destruct H end;
  first [ congruence | lia ].

(** ** The routes *)

Module RouteFacts.

Lemma marine_try_cases lat lon forecastSteps pastSteps key
    (w : world Resampler.MarineJson) r w' :
  marine_try lat lon forecastSteps pastSteps key w = (r, w') ->
  later w w'
  /\ ((exists e, r = Throw e /\ cache w' = cache w)
      \/ exists json series15,
           Resampler.build_series15 json lat lon forecastSteps pastSteps (clock w')
           = Ok series15
           /\ r = Ok (Reply 200 (with_cached false (marine_payload json lat lon series15)))
           /\ cache w'
              = <[key := CacheEntry (marine_payload json lat lon series15)
                           (clock w' + 60 * 5 * 1000)]> (cache w)).
Proof.
  unfold marine_try. intros H.
  run H; [|split; [same_world|left; eexists; split; [done|same_world]]].
  run H; [|split; [same_world|left; eexists; split; [done|same_world]]].
  run H; [|split; [same_world|left; eexists; split; [done|same_world]]].
  run H; [|split; [same_world|left; eexists; split; [done|same_world]]].
  injection Hm2 as <- <-.
  destruct (Resampler.build_series15 _ _ _ _ _ _) as [series15|err] eqn:Hb.
  - unfold bind, cache_set, ret in H. simpl in H. injection H as <- <-. simpl.
    split; [same_world|]. right. exists a1, series15.
    split; [done|]. split; [done|]. f_equal. same_world.
  - injection H as <- <-. split; [same_world|left; eexists; split; [done|same_world]].
Qed.

Lemma failure_code err : code (failure err) = 504 \/ code (failure err) = 500.
Proof. unfold failure. destruct (String.eqb _ _); auto. Qed.

Lemma failure_not_cached err : payload (failure err) !! "cached" = None.
Proof. unfold failure, error_body. by destruct (String.eqb _ _). Qed.

Lemma cache_get_run {B} key (w : world B) :
  cache_get key w = (Ok (live (cache w) key (clock w)), w).
Proof. done. Qed.

Lemma parseFloat_param q a b :
  PrimFloat.is_nan (Str.parseFloat (param q a b)) = true <-> unusable q a b.
Proof.
  unfold unusable, supplied, param.
  destruct (q !! a) as [[|c s]|]; simpl; try done;
    destruct (q !! b) as [[|c' s']|]; simpl; done.
Qed.

Section Marine.
Variable num_to_string : float -> string.

(** The replies of the marine route. *)
Lemma marine_cases (q : gmap string string) (w : world Resampler.MarineJson) :
  let lat := marine_lat q in
  let lon := marine_lon q in
  let forecastSteps := steps q "forecast_minutely_15" "96" in
  let pastSteps := steps q "past_minutely_15" "0" in
  let key := marine_key num_to_string lat lon forecastSteps pastSteps in
  exists reply w',
    marine num_to_string q w = (Ok reply, w')
    /\ later w w'
    /\ if PrimFloat.is_nan lat || PrimFloat.is_nan lon
       then reply = Reply 400 (error_body "Missing or invalid lat/lon") /\ w' = w
       else
         match live (cache w) key (clock w) with
         | Some stored => reply = Reply 200 (with_cached true stored) /\ w' = w
         | None =>
             (exists err, reply = failure err /\ cache w' = cache w)
             \/ exists json series15,
                  Resampler.build_series15 json lat lon forecastSteps pastSteps (clock w')
                  = Ok series15
                  /\ reply = Reply 200 (with_cached false (marine_payload json lat lon series15))
                  /\ cache w'
                     = <[key := CacheEntry (marine_payload json lat lon series15)
                                  (clock w' + 60 * 5 * 1000)]> (cache w)
         end.
Proof.
  intros lat lon forecastSteps pastSteps key. unfold marine.
  fold lat lon.
  destruct (PrimFloat.is_nan lat || PrimFloat.is_nan lon).
  { eexists _, _. split; [done|]. split; [apply later_refl|done]. }
  fold forecastSteps pastSteps key.
  unfold bind at 1. rewrite cache_get_run.
  destruct (live (cache w) key (clock w)) as [stored|].
  { eexists _, _. split; [done|]. split; [apply later_refl|done]. }
  unfold try_catch.
  destruct (marine_try lat lon forecastSteps pastSteps key w) as [[reply|err] w1] eqn:Hrun;
    apply marine_try_cases in Hrun as [Hl Hcase]; eexists _, _; (split; [done|]);
    (split; [done|]).
  - destruct Hcase as [(e & [=] & _)|(json & series15 & Hb & [= ->] & Hc)].
    right. by exists json, series15.
  - destruct Hcase as [(e & [= <-] & Hc)|(json & series15 & _ & [=] & _)].
    left. by exists err.
Qed.

End Marine.


Section Forecast.
Variable Math_sin : float -> float.
Variable getHours : Z -> Z.

Section Mock.
Context {B : Type}.

Lemma quiet_mock_hourly_row now i : quiet (mock_hourly_row (B:=B) Math_sin getHours now i).
Proof. unfold mock_hourly_row. eauto 30 with quiet. Qed.

Lemma returns_mock_hourly_row now i : returns (mock_hourly_row (B:=B) Math_sin getHours now i).
Proof. unfold mock_hourly_row. eauto 30 with quiet. Qed.

Lemma quiet_mock_daily_row now d : quiet (mock_daily_row (B:=B) now d).
Proof. unfold mock_daily_row. eauto 30 with quiet. Qed.

Lemma returns_mock_daily_row now d : returns (mock_daily_row (B:=B) now d).
Proof. unfold mock_daily_row. eauto 30 with quiet. Qed.

Lemma quiet_mock_rows (row : Z -> M B (list jsval)) n first :
  (forall i, quiet (row i)) -> quiet (mock_rows row n first).
Proof.
  intros Hrow. revert first. induction n as [|n IH]; intros first; simpl;
    eauto 10 with quiet.
Qed.

Lemma returns_mock_rows (row : Z -> M B (list jsval)) n first :
  (forall i, returns (row i)) -> returns (mock_rows row n first).
Proof.
  intros Hrow. revert first. induction n as [|n IH]; intros first; simpl;
    eauto 10 with quiet.
Qed.

Lemma quiet_generateMockForecast lat lon :
  quiet (generateMockForecast (B:=B) Math_sin getHours lat lon).
Proof.
  unfold generateMockForecast.
  apply quiet_bind; [apply quiet_Date_now|intros now].
  apply quiet_bind; [apply quiet_mock_rows, quiet_mock_hourly_row|intros hours].
  apply quiet_bind; [apply quiet_mock_rows, quiet_mock_daily_row|intros days].
  apply quiet_ret.
Qed.

(** The mock generator never throws. *)
Lemma returns_generateMockForecast lat lon :
  returns (generateMockForecast (B:=B) Math_sin getHours lat lon).
Proof.
  unfold generateMockForecast.
  apply returns_bind; [apply returns_Date_now|intros now].
  apply returns_bind; [apply returns_mock_rows, returns_mock_hourly_row|intros hours].
  apply returns_bind; [apply returns_mock_rows, returns_mock_daily_row|intros days].
  apply returns_ret.
Qed.

End Mock.

Lemma quiet_fetch_full lat lon : quiet (fetch_full lat lon).
Proof. unfold fetch_full. eauto 20 with quiet. Qed.

Lemma quiet_fetch_light lat lon : quiet (fetch_light lat lon).
Proof. unfold fetch_light. eauto 30 with quiet. Qed.

Lemma quiet_forecast_data city lat lon display_name :
  quiet (forecast_data Math_sin getHours city lat lon display_name).
Proof.
  unfold forecast_data.
  apply quiet_try_catch; [apply quiet_bind; [apply quiet_fetch_full|intros; apply quiet_ret]|].
  intros _.
  apply quiet_try_catch; [apply quiet_bind; [apply quiet_fetch_light|intros; apply quiet_ret]|].
  intros _. apply quiet_bind; [apply quiet_generateMockForecast|intros; apply quiet_ret].
Qed.

(** What the nested [try]/[catch] gives: the upstream's data, or the
    mock reply when both requests have failed. *)
Lemma forecast_data_cases city lat lon display_name (w : world jsval) r w' :
  forecast_data Math_sin getHours city lat lon display_name w = (r, w') ->
  (exists metData, r = Ok (inl metData))
  \/ (exists e1 w1 e2 w2 mock,
        fetch_full lat lon w = (Throw e1, w1)
        /\ fetch_light lat lon w1 = (Throw e2, w2)
        /\ generateMockForecast Math_sin getHours lat lon w2 = (Ok mock, w')
        /\ r = Ok (inr (Reply 200 (as_mock
                   (forecast_payload (js_or display_name (JStr city)) lat lon mock))))).
Proof.
  unfold forecast_data, try_catch, bind at 1.
  destruct (fetch_full lat lon w) as [[metData|e1] w1] eqn:Hfull.
  { intros [= <- <-]. left. by eexists. }
  unfold bind at 1.
  destruct (fetch_light lat lon w1) as [[metData|e2] w2] eqn:Hlight.
  { intros [= <- <-]. left. by eexists. }
  unfold bind.
  destruct (returns_generateMockForecast (B:=jsval) lat lon w2) as (mock & w3 & Hmock).
  rewrite Hmock. intros [= <- <-]. right. by exists e1, w1, e2, w2, mock.
Qed.

(** The replies of the outer [try] block. *)
Lemma forecast_try_cases city key (w : world jsval) r w' :
  forecast_try Math_sin getHours city key w = (r, w') ->
  later w w' /\ USE_MOCK w' = USE_MOCK w
  /\ ((exists e, r = Throw e /\ cache w' = cache w)
      \/ (r = Ok (Reply 404 (error_body "Location not found")) /\ cache w' = cache w)
      \/ (exists location lat lon mock,
            r = Ok (Reply 200 (as_mock (forecast_payload location lat lon mock)))
            /\ cache w' = cache w)
      \/ exists location lat lon metData,
           r = Ok (Reply 200 (with_cached false (forecast_payload location lat lon metData)))
           /\ cache w'
              = <[key := CacheEntry (forecast_payload location lat lon metData)
                           (clock w' + stdTTL * 1000)]> (cache w)).
Proof.
  pose proof quiet_forecast_data as Hfd.
  unfold forecast_try. intros H.
  run H; [|split; [same_world|split; [same_world|left; eexists; split; [done|same_world]]]].
  destruct (negb (ok a)).
  { injection H as <- <-.
    split; [same_world|split; [same_world|left; eexists; split; [done|same_world]]]. }
  run H; [|split; [same_world|split; [same_world|left; eexists; split; [done|same_world]]]].
  run H; [|split; [same_world|split; [same_world|left; eexists; split; [done|same_world]]]].
  destruct (negb (truthy a0) || is_zero a1).
  { injection H as <- <-.
    split; [same_world|split; [same_world|right; left; split; [done|same_world]]]. }
  run H; [|split; [same_world|split; [same_world|left; eexists; split; [done|same_world]]]].
  run H; [|split; [same_world|split; [same_world|left; eexists; split; [done|same_world]]]].
  run H; [|split; [same_world|split; [same_world|left; eexists; split; [done|same_world]]]].
  run H; [|split; [same_world|split; [same_world|left; eexists; split; [done|same_world]]]].
  apply bind_inv in H as [(data & w8 & Hdata & H)|(e & Hdata & ->)];
    pose proof (Hfd _ _ _ _ _ _ _ Hdata) as [? ?].
  2:{ split; [same_world|split; [same_world|left; eexists; split; [done|same_world]]]. }
  apply forecast_data_cases in Hdata
    as [(metData & [= ->])|(e1 & w9 & e2 & w10 & mock & _ & _ & _ & [= ->])].
  - unfold bind, cache_set, ret in H. simpl in H. injection H as <- <-. simpl.
    split; [same_world|]. split; [same_world|]. right. right. right.
    eexists _, _, _, _. split; [done|]. f_equal. same_world.
  - injection H as <- <-. split; [same_world|]. split; [same_world|]. right. right. left.
    eexists _, _, _, _. split; [done|same_world].
Qed.

Lemma mock_forced_run {B} (w : world B) :
  mock_forced w = (Ok (bool_decide (USE_MOCK w = Some "true")), w).
Proof. done. Qed.

(** The replies of the forecast route. *)
Lemma forecast_cases (q : gmap string string) (w : world jsval) :
  let city := city_of q in
  let key := forecast_key city in
  exists reply w',
    forecast Math_sin getHours q w = (Ok reply, w')
    /\ later w w' /\ USE_MOCK w' = USE_MOCK w
    /\ if String.eqb city ""
       then reply = Reply 400 (error_body "Missing city query parameter") /\ w' = w
       else
         match live (cache w) key (clock w) with
         | Some stored => reply = Reply 200 (with_cached true stored) /\ w' = w
         | None =>
             if bool_decide (USE_MOCK w = Some "true") then
               exists mock,
                 generateMockForecast Math_sin getHours (JNum 0) (JNum 0) w = (Ok mock, w')
                 /\ reply = Reply 200 (as_mock
                              (forecast_payload (JStr city) (JNum 0) (JNum 0) mock))
                 /\ cache w' = cache w
             else
               (exists err, reply = failure err /\ cache w' = cache w)
               \/ (reply = Reply 404 (error_body "Location not found")
                   /\ cache w' = cache w)
               \/ (exists location lat lon mock,
                     reply = Reply 200 (as_mock (forecast_payload location lat lon mock))
                     /\ cache w' = cache w)
               \/ exists location lat lon metData,
                    reply = Reply 200 (with_cached false
                                        (forecast_payload location lat lon metData))
                    /\ cache w'
                       = <[key := CacheEntry (forecast_payload location lat lon metData)
                                    (clock w' + stdTTL * 1000)]> (cache w)
         end.
Proof.
  intros city key. unfold forecast. fold city.
  destruct (String.eqb city "").
  { eexists _, _. split; [done|]. split; [apply later_refl|done]. }
  fold key. unfold bind at 1. rewrite cache_get_run.
  destruct (live (cache w) key (clock w)) as [stored|].
  { eexists _, _. split; [done|]. split; [apply later_refl|done]. }
  unfold bind at 1. rewrite mock_forced_run.
  destruct (bool_decide (USE_MOCK w = Some "true")).
  - unfold bind.
    destruct (returns_generateMockForecast (B:=jsval) (JNum 0) (JNum 0) w) as (mock & w1 & Hmock).
    rewrite Hmock.
    destruct (quiet_generateMockForecast _ _ _ _ _ Hmock) as [Hf Hl].
    eexists _, _. split; [done|]. split; [done|]. split; [same_world|].
    exists mock. split; [done|]. split; [done|same_world].
  - unfold try_catch.
    destruct (forecast_try Math_sin getHours city key w) as [[reply|err] w1] eqn:Hrun;
      apply forecast_try_cases in Hrun as (Hl & He & Hcase); eexists _, _; (split; [done|]);
      (split; [done|]); (split; [done|]).
    + destruct Hcase as [(e & [=] & _)|[([= ->] & Hc)|[(l & la & lo & m & [= ->] & Hc)|(l & la & lo & m & [= ->] & Hc)]]].
      * right. left. done.
      * right. right. left. by eexists _, _, _, _.
      * right. right. right. by eexists _, _, _, _.
    + destruct Hcase as [(e & [= <-] & Hc)|[([=] & _)|[(l & la & lo & m & [=] & _)|(l & la & lo & m & [=] & _)]]].
      left. by exists err.
Qed.

End Forecast.

Lemma live_later (c : gmap string cache_entry) key t t' :
  live c key t = None -> t <= t' -> live c key t' = None.
Proof.
  unfold live. destruct (c !! key) as [e|]; [|done].
  destruct (Z.ltb_spec (expiresAt e) t); [|done].
  intros _ ?. destruct (Z.ltb_spec (expiresAt e) t'); [done|lia].
Qed.

Lemma as_mock_flags o :
  as_mock o !! "mock" = Some (JBool true) /\ as_mock o !! "cached" = Some (JBool false).
Proof.
  unfold as_mock, with_cached. split.
  - by rewrite lookup_insert_eq.
  - rewrite lookup_insert_ne by done. by rewrite lookup_insert_eq.
Qed.

Lemma plain_payload_no_mock location lat lon metData :
  with_cached false (forecast_payload location lat lon metData) !! "mock" = None.
Proof. unfold with_cached, forecast_payload. by rewrite !lookup_insert_ne, lookup_empty. Qed.

Lemma failure_no_mock err : payload (failure err) !! "mock" = None.
Proof. unfold failure, error_body. by destruct (String.eqb _ _). Qed.


Section Routes.
Variable num_to_string : float -> string.
Variable Math_sin : float -> float.
Variable getHours : Z -> Z.
Variable aq_payload : string -> string -> jsval -> result jsobj.
Variable climate_payload :
  string -> string -> Z -> string -> string -> jsval -> result (string + jsobj).



Lemma error_body_not_cached msg : error_body msg !! "cached" = None.
Proof. done. Qed.




End Routes.
End RouteFacts.

(** * The claims *)

Import Resampler Demo ResamplerFacts RouteFacts.

(** C1 as the spec words it fails at an hourly instant whose own value is
    absent: with points at 0, 60 and 120 minutes whose [wave] values are
    absent, absent and 7, the instant 60 min is bracketed by the second
    and the third point, exactly one of whose values is absent, yet the
    output is not the present value 7: [interp] blends the first and the
    second point there, and gives [null]. *)
Lemma interpolation_knot_counterexample :
  ~ (forall (points : list point) (t : Z) (i : nat) (a b first final : point) (v : jsobj) (y : float),
       head points = Some first -> last points = Some final ->
       ts first < t < ts final ->
       points !! i = Some a -> points !! S i = Some b ->
       ts a <= t <= ts b -> ts a <> ts b ->
       wave a = None -> wave b = Some y ->
       interp points t = Some v ->
       obj_get v "wave" = JNum y).
Proof.
  intros H.
  specialize (H [demo_point 0 None; demo_point 3600000 None; demo_point 7200000 (Some 7%float)]
                3600000 1%nat (demo_point 3600000 None) (demo_point 7200000 (Some 7%float))
                (demo_point 0 None) (demo_point 7200000 (Some 7%float))
                (triple None None None) 7%float).
  discriminate H; try reflexivity; simpl; lia.
Qed.

(** C1 (amended): in every series the interpolation path returns, at
    every grid instant [t] strictly inside the range of an ascending
    hourly series, for the neighbouring points [a], [b] with
    [a.ts < t <= b.ts], each of [wave_height], [windspeed_10m] and
    [shortwave_radiation] is the present value when exactly one of [a]'s
    and [b]'s is absent, absent ([null]) when both are, and
    [a + (b - a) * frac] with [frac = (t - a.ts) / (b.ts - a.ts)] when both
    are present; values 10 at 0 and 20 at 60 min give exactly 12.5 at 15
    min. The path returns a series over every window the loop fills
    (every instant a time value of a [Date], at most 2^32 - 1 of them). *)
Theorem interpolation_blend :
  (forall (hourly : option Hourly) (startTs endTs : Z) (out : Series15)
          (first final a b : point) (k i : nat) (t : Z),
     path_b hourly startTs endTs = Ok out ->
     ascending (hourly_points hourly) ->
     head (hourly_points hourly) = Some first ->
     last (hourly_points hourly) = Some final ->
     grid startTs endTs !! k = Some t ->
     ts first < t < ts final ->
     hourly_points hourly !! i = Some a ->
     hourly_points hourly !! S i = Some b ->
     ts a < t <= ts b ->
     wave_height out !! k = Some (blended (frac t a b) (wave a) (wave b))
     /\ windspeed_10m out !! k = Some (blended (frac t a b) (wind a) (wind b))
     /\ shortwave_radiation out !! k = Some (blended (frac t a b) (sw a) (sw b)))
  /\ (forall (hourly : option Hourly) (startTs endTs : Z),
        fillable startTs endTs = true ->
        exists out, path_b hourly startTs endTs = Ok out)
  /\ (forall a b : point,
        ts a = 0 -> ts b = 60 * 60 * 1000 ->
        wave a = Some 10%float -> wave b = Some 20%float ->
        exists v, interp [a; b] (15 * 60 * 1000) = Some v
                  /\ obj_get v "wave" = JNum 12.5%float).
Proof.
  split; [|split].
  - intros hourly startTs endTs out first final a b k i t Hout Hasc Hh Hl Hk [Hlo Hhi] Ha Hb
      [Hat Hbt].
    destruct (path_b_rows hourly startTs endTs out Hout) as [_ Hrows].
    destruct (Hrows k t Hk) as (v & Hv & Hw & Hwi & Hs & _).
    destruct (interp_interior _ t first final Hh Hl Hlo Hhi)
      as (a' & b' & Ha' & Hb' & _ & _ & Hi).
    rewrite (scan_unique _ t i a b Hasc Ha Hb Hat Hbt) in Ha', Hb'.
    assert (a' = a) by congruence. assert (b' = b) by congruence. subst a' b'.
    rewrite Hi in Hv. injection Hv as <-.
    rewrite Hw, Hwi, Hs, triple_wave, triple_wind, triple_sw, !mix_blended. done.
  - intros hourly startTs endTs. apply path_b_total.
  - intros a b Hta Htb Hwa Hwb.
    destruct (interp_interior [a; b] (15 * 60 * 1000) a b) as (a' & b' & Ha' & Hb' & _ & _ & Hi);
      [done|done|lia|lia|].
    simpl in Ha', Hb'. rewrite Htb in Ha', Hb'. simpl in Ha', Hb'.
    injection Ha' as <-. injection Hb' as <-.
    eexists. split; [exact Hi|].
    rewrite triple_wave. unfold frac. rewrite Hwa, Hwb, Hta, Htb. reflexivity.
Qed.

(** The blend on the demonstration series: between the points at 0 and at
    60 minutes the instant 15 min gets 12.5 for the wave height. *)
Lemma interpolation_blend_witness :
  exists out,
    path_b (Some demo_hourly) 0 900000 = Ok out
    /\ wave_height out !! 1%nat = Some (JNum 12.5)
    /\ windspeed_10m out !! 1%nat = Some (JNum 4)
    /\ shortwave_radiation out !! 1%nat = Some JNull.
Proof.
  destruct interpolation_blend as (Hvalues & Hsome & _).
  destruct (Hsome (Some demo_hourly) 0 900000 eq_refl) as [out Hout].
  exists out. split; [exact Hout|].
  apply (Hvalues (Some demo_hourly) 0 900000 out
           (demo_point_of 0) (demo_point_of 2) (demo_point_of 0) (demo_point_of 1)
           1%nat 0%nat 900000); try reflexivity; try (simpl; lia); [exact Hout|].
  unfold ascending. simpl. repeat constructor; simpl; lia.
Defined.

(** C2: in the bucket-aggregation path (upstream minutely data present,
    coordinates inside a supported region) the native samples of
    [startTs, endTs] are grouped by [floor(t / stepMs) * stepMs], the step
    being 15 minutes; a bucket is in the output exactly when it received a
    sample; the output times are the bucket keys in strictly ascending
    order; and each [shortwave_radiation] value is the bucket's sum over
    its sample count, an absent value adding 0 to the sum and 1 to the
    count. *)
Theorem bucket_aggregation (json : MarineJson) (lat lon : float)
    (forecastSteps pastSteps now : Z) :
  hasMinutely json = true ->
  inSupportedRegion lat lon = true ->
  let startTs := now - pastSteps * (15 * 60 * 1000) in
  let endTs := now + forecastSteps * (15 * 60 * 1000) in
  exists minutely out,
    mj_minutely json = Some minutely
    /\ build_series15 json lat lon (Some forecastSteps) (Some pastSteps) now = Ok (Some out)
    /\ (forall k, k ∈ time out <-> members startTs endTs k (samples minutely) <> [])
    /\ StronglySorted Z.lt (time out)
    /\ (forall j k, time out !! j = Some k ->
          shortwave_radiation out !! j
          = Some (JNum (mean (members startTs endTs k (samples minutely))))).
Proof.
  intros Hmin Hreg startTs endTs.
  destruct (hasMinutely_Some json Hmin) as [minutely Hm].
  pose proof (path_a_spec minutely (Some startTs) (Some endTs)) as Hpa.
  simpl in Hpa.
  set (buckets := fill_buckets _ _ _ _ _ _) in Hpa.
  assert (Hlook : forall k, buckets !! k =
            match members startTs endTs k (samples minutely) with
            | [] => None
            | xs => Some (Bucket (total xs) (Z.of_nat (length xs)))
            end).
  { intros k. unfold buckets. rewrite buckets_filled, members_bucket_samples. done. }
  eexists minutely, _. split; [done|]. split.
  { unfold build_series15, chosen_path. rewrite Hmin, Hreg, Hm. simpl.
    unfold startTs_of, endTs_of. simpl. fold startTs endTs buckets.
    unfold stepMs. fold startTs endTs. by rewrite Hpa. }
  simpl. split; [|split].
  - intros k. rewrite sorted_keys_elem, Hlook.
    destruct (members _ _ _ _); split; intros H; done.
  - apply sorted_keys_increasing.
  - intros j k Hj. rewrite list_lookup_fmap, Hj. simpl.
    assert (Hk : k ∈ sorted_keys buckets) by (eapply list_elem_of_lookup_2; eauto).
    apply sorted_keys_elem in Hk as [b Hb]. rewrite Hb. simpl.
    rewrite Hlook in Hb.
    destruct (members _ _ _ _) as [|x xs] eqn:Hxs; [done|].
    injection Hb as <-. unfold bucket_mean, mean. simpl count.
    destruct (Z.eqb_spec (Z.of_nat (length (x :: xs))) 0) as [H0|_]; [simpl in H0; lia|done].
Qed.

(** The aggregation on the demonstration minutely data, inside a supported
    region. *)
Lemma bucket_aggregation_witness :
  hasMinutely (demo_json (Some demo_minutely)) = true
  /\ inSupportedRegion 50 10 = true
  /\ exists minutely out,
       mj_minutely (demo_json (Some demo_minutely)) = Some minutely
       /\ build_series15 (demo_json (Some demo_minutely)) 50 10 (Some 1) (Some 0) 0
          = Ok (Some out)
       /\ (forall k, k ∈ time out <-> members (0 - 0 * 900000) (0 + 1 * 900000) k (samples minutely) <> [])
       /\ StronglySorted Z.lt (time out)
       /\ (forall j k, time out !! j = Some k ->
             shortwave_radiation out !! j
             = Some (JNum (mean (members (0 - 0 * 900000) (0 + 1 * 900000) k (samples minutely))))).
Proof.
  split; [reflexivity|]. split; [reflexivity|].
  apply (bucket_aggregation (demo_json (Some demo_minutely)) 50 10 1 0 0); reflexivity.
Defined.

(** C3 as the spec words it fails on the delay: with a base of 300 ms and
    a random draw of 0.25 the product [300 * 2^0 * (0.75 + 0.25 * 0.5)] is
    262.5, and the loop sleeps [Math.round] of it, 263 ms. *)
Lemma backoff_delay_counterexample :
  ~ (forall (w w' : world unit) (u : url) (timeout : Z) (retries : nat)
            (backoffBase : float) (r : result (response unit)) (n : nat) (d : float),
       trace w = [] ->
       Net.fetchWithRetries u timeout retries backoffBase w = (r, w') ->
       sleeps (trace w') !! n = Some d ->
       d = (backoffBase * Num.pow2 n * (0.75 + random w (draws w + n) * 0.5))%float).
Proof.
  intros H.
  pose proof (H (world_at 0 always_503 (fun _ => 0.25%float) None) _
                (UrlNominatim "x") 1000 1%nat 300%float _ 0%nat 263%float
                eq_refl eq_refl eq_refl) as H'.
  vm_compute in H'. by apply float_263_neq.
Qed.

(** C3 (amended): [fetchWithRetries] returns at once, with no retry and no
    delay, a response whose status is below 500 (every 4xx included); it
    calls [fetch] again only after a network-level failure, a timeout or a
    status of 500 or more; against an upstream that keeps failing in that
    way it calls [fetch] exactly [retries + 1] times and throws the last
    error; and the delay before retry number [n] (counted from 1) is
    [Math.round(backoffBase * 2^(n-1) * jitter)], the jitter being
    [0.75 + 0.5 * r] for the value [r] that [Math.random()] returned. *)
Theorem fetchWithRetries_policy {B} (u : url) (timeout : Z) (retries : nat)
    (backoffBase : float) (w : world B) :
  let delay (n : nat) : float :=
    Num.Math_round
      (backoffBase * Num.pow2 (n - 1) * (0.75 + random w (draws w + (n - 1)) * 0.5))%float in
  (forall latency resp,
     upstream w (fetches w) = Served latency (Responds resp) ->
     latency < timeout -> status resp < 500 ->
     exists w',
       Net.fetchWithRetries u timeout retries backoffBase w = (Ok resp, w')
       /\ trace w' = trace w ++ [EvFetch u timeout]
       /\ fetches w' = S (fetches w) /\ draws w' = draws w)
  /\ (forall r w',
        Net.fetchWithRetries u timeout retries backoffBase w = (r, w') ->
        (S (fetches w) < fetches w')%nat ->
        retryable (upstream w (fetches w)) timeout)
  /\ (forall j latency resp,
        (j <= retries)%nat ->
        (forall n, (n < j)%nat -> retryable (upstream w (fetches w + n)%nat) timeout) ->
        upstream w (fetches w + j)%nat = Served latency (Responds resp) ->
        latency < timeout -> status resp < 500 ->
        exists w',
          Net.fetchWithRetries u timeout retries backoffBase w = (Ok resp, w')
          /\ trace w' = trace w ++ retry_trace u timeout delay 0 j
          /\ fetches w' = (fetches w + S j)%nat)
  /\ ((forall n, (n <= retries)%nat -> retryable (upstream w (fetches w + n)%nat) timeout) ->
      exists w',
        Net.fetchWithRetries u timeout retries backoffBase w
        = (Throw (error_of (upstream w (fetches w + retries)%nat) timeout), w')
        /\ trace w' = trace w ++ retry_trace u timeout delay 0 retries
        /\ fetches w' = (fetches w + S retries)%nat).
Proof.
  intros delay.
  assert (Hanswered : forall j latency resp,
        (j <= retries)%nat ->
        (forall n, (n < j)%nat -> retryable (upstream w (fetches w + n)%nat) timeout) ->
        upstream w (fetches w + j)%nat = Served latency (Responds resp) ->
        latency < timeout -> status resp < 500 ->
        exists w',
          Net.fetchWithRetries u timeout retries backoffBase w = (Ok resp, w')
          /\ trace w' = trace w ++ retry_trace u timeout delay 0 j
          /\ fetches w' = (fetches w + S j)%nat
          /\ draws w' = (draws w + j)%nat).
  { intros j latency resp Hj Hfail Hans Hlat Hst.
    destruct (retry_loop_answered u timeout retries backoffBase (upstream w) (random w)
                (fetches w) (draws w) j 0%nat None w j latency resp)
      as (w' & Hrun & Htr & Hfe & Hdr & _); try done; try lia.
    { intros n Hn. apply Hfail. lia. }
    exists w'. unfold Net.fetchWithRetries.
    replace (S retries) with (S (retries - 0)) by lia. done. }
  split; [|split; [|split]].
  - intros latency resp Hans Hlat Hst.
    destruct (Hanswered 0%nat latency resp) as (w' & Hrun & Htr & Hfe & Hdr);
      try done; try lia.
    { by rewrite Nat.add_0_r. }
    exists w'. split; [done|]. split; [done|]. split; lia.
  - intros r w' Hrun Hmore. unfold retryable.
    destruct (upstream w (fetches w)) as [latency [resp|e]] eqn:Hup; simpl; [|done].
    destruct (Z.le_gt_cases timeout latency); [by left|].
    destruct (Z.le_gt_cases 500 (status resp)); [by right|].
    destruct (Hanswered 0%nat latency resp) as (w2 & Hrun2 & _ & Hfe & _);
      try done; try lia.
    { by rewrite Nat.add_0_r. }
    rewrite Hrun in Hrun2. injection Hrun2 as _ ->. lia.
  - intros j latency resp Hj Hfail Hans Hlat Hst.
    destruct (Hanswered j latency resp) as (w' & Hrun & Htr & Hfe & _); try done.
    by exists w'.
  - intros Hfail.
    destruct (retry_loop_exhausted u timeout retries backoffBase (upstream w) (random w)
                (fetches w) (draws w) retries 0%nat None w)
      as (w' & Hrun & Htr & Hfe & _); try done; try lia.
    { intros n Hn. apply Hfail. lia. }
    by exists w'.
Qed.

(** Where C4 fails: a request for one step ahead and none back
    ([forecast_minutely_15=1], [past_minutely_15=0]) outside the supported
    regions, made at the instant of the first hourly point, is answered by
    the interpolation path over the window of that instant and the one 15
    minutes later. The first hourly point carries a significant wave
    period of 7 and a swell height of 1, and at its instant (clamped to
    it) the series holds [undefined] for both, next to the clamped
    [wave_height] 10. *)
Lemma clamp_loses_period_and_swell :
  (exists p, head (hourly_points (mj_hourly (demo_json None))) = Some p
             /\ ts p = 0 /\ period p = Some 7%float /\ swell p = Some 1%float)
  /\ chosen_path (demo_json None) 0 0 (Some 1) (Some 0) = PathB
  /\ exists out,
      build_series15 (demo_json None) 0 0 (Some 1) (Some 0) 0 = Ok (Some out)
      /\ time out = [0; 900000]
      /\ wave_height out = [JNum 10; JNum 12.5]
      /\ significant_wave_period out = [JUndefined; JUndefined]
      /\ swell_height out = [JUndefined; JUndefined].
Proof.
  split; [eexists; repeat split; reflexivity|].
  split; [reflexivity|].
  eexists. split; [vm_compute; reflexivity|]. repeat split.
Qed.

(** X1: in every series the interpolation path returns, the three
    interpolated variables are clamped to the boundary point's values
    outside the range of the hourly points; and the path returns a series
    over every window the loop fills (every instant a time value of a
    [Date], at most 2^32 - 1 of them). *)
Theorem interpolation_clamps (hourly : option Hourly) (startTs endTs : Z)
    (first final : point) :
  head (hourly_points hourly) = Some first ->
  last (hourly_points hourly) = Some final ->
  (forall out k t,
     path_b hourly startTs endTs = Ok out ->
     grid startTs endTs !! k = Some t ->
     (t <= ts first ->
      wave_height out !! k = Some (num_or_null (wave first))
      /\ windspeed_10m out !! k = Some (num_or_null (wind first))
      /\ shortwave_radiation out !! k = Some (num_or_null (sw first)))
     /\ (ts first < t -> ts final <= t ->
         wave_height out !! k = Some (num_or_null (wave final))
         /\ windspeed_10m out !! k = Some (num_or_null (wind final))
         /\ shortwave_radiation out !! k = Some (num_or_null (sw final))))
  /\ (fillable startTs endTs = true ->
      exists out, path_b hourly startTs endTs = Ok out).
Proof.
  intros Hh Hl. split; [|apply path_b_total].
  intros out k t Hout Hk.
  destruct (path_b_rows hourly startTs endTs out Hout) as [_ Hrows].
  destruct (Hrows k t Hk) as (v & Hv & -> & -> & -> & _).
  split.
  - intros Hle. rewrite (interp_before _ _ first Hh Hle) in Hv. injection Hv as <-.
    by rewrite triple_wave, triple_wind, triple_sw.
  - intros Hlo Hhi. rewrite (interp_after _ _ first final Hh Hl Hlo Hhi) in Hv.
    injection Hv as <-. by rewrite triple_wave, triple_wind, triple_sw.
Qed.

(** The clamp on the demonstration series, over the window of one step
    ahead of the instant of its first point: that instant takes the
    point's three interpolated values. *)
Lemma interpolation_clamps_witness :
  exists out,
    path_b (Some demo_hourly) 0 900000 = Ok out
    /\ wave_height out !! 0%nat = Some (JNum 10)
    /\ windspeed_10m out !! 0%nat = Some (JNum 4)
    /\ shortwave_radiation out !! 0%nat = Some JNull.
Proof.
  destruct (interpolation_clamps (Some demo_hourly) 0 900000 (demo_point_of 0)
              (demo_point_of 2) eq_refl eq_refl) as [Hvalues Hsome].
  destruct (Hsome eq_refl) as [out Hout].
  exists out. split; [exact Hout|].
  destruct (Hvalues out 0%nat 0 Hout eq_refl) as [Hfirst _].
  apply Hfirst. reflexivity.
Defined.




(** C6 as the spec words it fails in the bucket-aggregation path: one
    native sample in the window gives one [time] entry, while
    [wave_height] stays empty. *)
Lemma series15_lengths_counterexample :
  ~ (forall json lat lon forecastSteps pastSteps now out,
       build_series15 json lat lon forecastSteps pastSteps now = Ok (Some out) ->
       length (wave_height out) = length (time out)).
Proof.
  intros H.
  pose proof (H (demo_json (Some demo_minutely)) 50%float 10%float (Some 1) (Some 0) 0) as H'.
  vm_compute in H'. specialize (H' _ eq_refl). discriminate H'.
Qed.

(** C6 (amended): in every [series15] the route builds, the instants of
    [time] are strictly increasing and [shortwave_radiation] is as long as
    [time]; in the interpolation path so are [wave_height],
    [windspeed_10m], [significant_wave_period] and [swell_height], while
    in the bucket-aggregation path those four arrays are empty. *)
Theorem series15_shape (json : MarineJson) (lat lon : float)
    (forecastSteps pastSteps : option Z) (now : Z) (out : Series15) :
  build_series15 json lat lon forecastSteps pastSteps now = Ok (Some out) ->
  StronglySorted Z.lt (time out)
  /\ length (shortwave_radiation out) = length (time out)
  /\ match chosen_path json lat lon forecastSteps pastSteps with
     | PathB =>
         length (wave_height out) = length (time out)
         /\ length (windspeed_10m out) = length (time out)
         /\ length (significant_wave_period out) = length (time out)
         /\ length (swell_height out) = length (time out)
     | _ =>
         wave_height out = [] /\ windspeed_10m out = []
         /\ significant_wave_period out = [] /\ swell_height out = []
     end.
Proof.
  unfold build_series15.
  destruct (chosen_path json lat lon forecastSteps pastSteps).
  - destruct (mj_minutely json) as [minutely|]; [|done].
    rewrite path_a_spec. intros [= <-]. simpl.
    split; [apply sorted_keys_increasing|]. by rewrite length_fmap.
  - destruct forecastSteps as [f|], pastSteps as [p|]; try done.
    destruct (path_b _ _ _) as [s|] eqn:Hb; [|done]. intros [= <-].
    apply path_b_lengths in Hb as (Ht & ? & ? & ? & ? & ? & _).
    split; [|done]. rewrite Ht. apply grid_from_increasing.
  - done.
Qed.

(** The shape of the series built from the demonstration minutely data. *)
Lemma series15_shape_witness :
  build_series15 (demo_json (Some demo_minutely)) 50 10 (Some 1) (Some 0) 0
  = Ok (Some demo_series)
  /\ StronglySorted Z.lt (time demo_series)
  /\ length (shortwave_radiation demo_series) = length (time demo_series)
  /\ match chosen_path (demo_json (Some demo_minutely)) 50 10 (Some 1) (Some 0) with
     | PathB =>
         length (wave_height demo_series) = length (time demo_series)
         /\ length (windspeed_10m demo_series) = length (time demo_series)
         /\ length (significant_wave_period demo_series) = length (time demo_series)
         /\ length (swell_height demo_series) = length (time demo_series)
     | _ =>
         wave_height demo_series = [] /\ windspeed_10m demo_series = []
         /\ significant_wave_period demo_series = [] /\ swell_height demo_series = []
     end.
Proof.
  split; [vm_compute; reflexivity|].
  apply (series15_shape (demo_json (Some demo_minutely)) 50 10 (Some 1) (Some 0) 0).
  vm_compute. reflexivity.
Defined.

(** C7: the forecast route returns a synthesized mock forecast when the
    [USE_MOCK] flag is set and when both the full and the lightweight
    request have failed; whenever it does, the reply has status 200 and
    carries [mock: true] and [cached: false], and the cache is left as it
    was, so that the same request repeated at once is not answered from the
    cache and, under the flag, gets a mock generated anew from the clock
    and the random source as they then are. *)
Theorem mock_forecast_is_ephemeral (Math_sin : float -> float) (getHours : Z -> Z) :
  (* the USE_MOCK flag *)
  (forall (q : gmap string string) (w : world jsval),
     city_of q <> "" ->
     live (cache w) (forecast_key (city_of q)) (clock w) = None ->
     USE_MOCK w = Some "true" ->
     exists mock w',
       generateMockForecast Math_sin getHours (JNum 0) (JNum 0) w = (Ok mock, w')
       /\ forecast Math_sin getHours q w
          = (Ok (Reply 200 (as_mock (forecast_payload (JStr (city_of q)) (JNum 0) (JNum 0) mock))),
             w')
       /\ cache w' = cache w)
  (* both requests failed *)
  /\ (forall (city : string) (lat lon display_name : jsval) (w w1 w2 : world jsval)
             (e1 e2 : js_error),
        fetch_full lat lon w = (Throw e1, w1) ->
        fetch_light lat lon w1 = (Throw e2, w2) ->
        exists mock w',
          generateMockForecast Math_sin getHours lat lon w2 = (Ok mock, w')
          /\ forecast_data Math_sin getHours city lat lon display_name w
             = (Ok (inr (Reply 200 (as_mock
                   (forecast_payload (js_or display_name (JStr city)) lat lon mock)))), w')
          /\ cache w' = cache w)
  (* whenever the reply is a mock *)
  /\ (forall (q : gmap string string) (w w' : world jsval) (reply : http_response),
        forecast Math_sin getHours q w = (Ok reply, w') ->
        live (cache w) (forecast_key (city_of q)) (clock w) = None ->
        payload reply !! "mock" = Some (JBool true) ->
        code reply = 200
        /\ payload reply !! "cached" = Some (JBool false)
        /\ cache w' = cache w
        /\ forall (reply2 : http_response) (w2 : world jsval),
             forecast Math_sin getHours q w' = (Ok reply2, w2) ->
             payload reply2 !! "cached" <> Some (JBool true)
             /\ (USE_MOCK w = Some "true" ->
                 exists mock2,
                   generateMockForecast Math_sin getHours (JNum 0) (JNum 0) w' = (Ok mock2, w2)
                   /\ payload reply2 !! "forecast" = Some mock2)).
Proof.
  split; [|split].
  - intros q w Hcity Hmiss Hflag.
    destruct (forecast_cases Math_sin getHours q w) as (reply & w' & Hrun & _ & _ & Hcase).
    destruct (String.eqb_spec (city_of q) ""); [done|].
    rewrite Hmiss in Hcase. rewrite bool_decide_eq_true_2 in Hcase by done.
    destruct Hcase as (mock & Hmock & -> & Hc). by exists mock, w'.
  - intros city lat lon display_name w w1 w2 e1 e2 Hfull Hlight.
    destruct (returns_generateMockForecast Math_sin getHours (B:=jsval) lat lon w2)
      as (mock & w3 & Hmock).
    exists mock, w3. split; [done|]. split.
    + unfold forecast_data, try_catch, bind at 1. rewrite Hfull.
      unfold bind at 1. rewrite Hlight. unfold bind. by rewrite Hmock.
    + destruct (quiet_fetch_full _ _ _ _ _ Hfull) as [? _].
      destruct (quiet_fetch_light _ _ _ _ _ Hlight) as [? _].
      destruct (quiet_generateMockForecast Math_sin getHours _ _ _ _ _ Hmock) as [? _].
      same_world.
  - intros q w w' reply Hrun Hmiss Hmock.
    destruct (forecast_cases Math_sin getHours q w) as (reply' & w1 & Hrun' & Hl & He & Hcase).
    rewrite Hrun in Hrun'. injection Hrun' as <- <-.
    assert (Hshape : code reply = 200
                     /\ payload reply !! "cached" = Some (JBool false)
                     /\ cache w' = cache w
                     /\ String.eqb (city_of q) "" = false).
    { destruct (String.eqb (city_of q) "").
      { destruct Hcase as [-> _]. done. }
      rewrite Hmiss in Hcase.
      destruct (bool_decide (USE_MOCK w = Some "true")).
      - destruct Hcase as (mock & _ & -> & Hc). simpl.
        by destruct (as_mock_flags (forecast_payload (JStr (city_of q)) (JNum 0) (JNum 0) mock)).
      - destruct Hcase as [(err & -> & _)|[(-> & _)|[(l & la & lo & m & -> & Hc)|(l & la & lo & m & -> & _)]]].
        + by rewrite failure_no_mock in Hmock.
        + done.
        + simpl. by destruct (as_mock_flags (forecast_payload l la lo m)).
        + simpl in Hmock. by rewrite plain_payload_no_mock in Hmock. }
    destruct Hshape as (Hcode & Hcached & Hcache & Hcity).
    split; [done|]. split; [done|]. split; [done|].
    intros reply2 w2 Hrun2.
    destruct (forecast_cases Math_sin getHours q w') as (reply2' & w2' & Hrun2' & _ & _ & Hcase2).
    rewrite Hrun2 in Hrun2'. injection Hrun2' as <- <-.
    rewrite Hcity, Hcache in Hcase2.
    rewrite (live_later _ _ _ (clock w') Hmiss Hl) in Hcase2.
    rewrite He in Hcase2.
    destruct (bool_decide (USE_MOCK w = Some "true")) eqn:Hflag.
    + destruct Hcase2 as (mock2 & Hmock2 & -> & _). simpl. split.
      * destruct (as_mock_flags (forecast_payload (JStr (city_of q)) (JNum 0) (JNum 0) mock2))
          as [_ ->]. done.
      * intros _. exists mock2. split; [done|].
        unfold as_mock, with_cached, forecast_payload.
        rewrite !lookup_insert_ne by done. by rewrite lookup_insert_eq.
    + split.
      * destruct Hcase2 as [(err & -> & _)|[(-> & _)|[(l & la & lo & m & -> & _)|(l & la & lo & m & -> & _)]]].
        -- by rewrite failure_not_cached.
        -- done.
        -- simpl. by destruct (as_mock_flags (forecast_payload l la lo m)) as [_ ->].
        -- simpl. unfold with_cached. by rewrite lookup_insert_eq.
      * intros Hset. apply bool_decide_eq_false_1 in Hflag. done.
Qed.

(** The fallback on a concrete run: the geocoder answers, the forecast
    service answers every call with a 503, and the reply is a mock that
    leaves the cache empty. *)
Lemma mock_forecast_witness :
  let w := world_at 1000 forecast_upstream_down (fun _ => 0.5%float) None in
  exists reply w',
    forecast demo_sin demo_getHours dhaka_query w = (Ok reply, w')
    /\ payload reply !! "mock" = Some (JBool true)
    /\ code reply = 200
    /\ payload reply !! "cached" = Some (JBool false)
    /\ cache w' = ∅
    /\ fetches w' = 6%nat.
Proof.
  intros w.
  destruct (forecast demo_sin demo_getHours dhaka_query w) as [[reply|err] w'] eqn:Hrun;
    [|vm_compute in Hrun; discriminate Hrun].
  exists reply, w'. split; [reflexivity|].
  assert (Hmock : payload reply !! "mock" = Some (JBool true)).
  { vm_compute in Hrun. injection Hrun as <- _. reflexivity. }
  split; [exact Hmock|].
  destruct (proj2 (proj2 (mock_forecast_is_ephemeral demo_sin demo_getHours))
              dhaka_query w w' reply Hrun eq_refl Hmock) as (Hcode & Hcached & Hcache & _).
  split; [exact Hcode|]. split; [exact Hcached|]. split; [exact Hcache|].
  vm_compute in Hrun. injection Hrun as _ <-. reflexivity.
Defined.



(** C9: the marine route replies 400 exactly when the latitude or the
    longitude is missing or does not parse as a number, and so accepts
    [lat=0] and [lon=0]: a zero coordinate is not a missing one. *)
Theorem marine_validation (num_to_string : float -> string) (q : gmap string string)
    (w : world Resampler.MarineJson) :
  exists reply w',
    marine num_to_string q w = (Ok reply, w')
    /\ (code reply = 400 <-> unusable q "lat" "latitude" \/ unusable q "lon" "longitude")
    /\ (q !! "lat" = Some "0" -> q !! "lon" = Some "0" ->
        marine_lat q = 0%float /\ marine_lon q = 0%float /\ code reply <> 400).
Proof.
  destruct (marine_cases num_to_string q w) as (reply & w' & Hrun & _ & Hcase).
  exists reply, w'. split; [done|].
  assert (Hiff : code reply = 400
                 <-> unusable q "lat" "latitude" \/ unusable q "lon" "longitude").
  { rewrite <- !parseFloat_param. fold (marine_lat q) (marine_lon q).
    destruct (PrimFloat.is_nan (marine_lat q) || PrimFloat.is_nan (marine_lon q)) eqn:Hnan.
    - destruct Hcase as [-> _]. simpl. split; [|done]. intros _.
      by apply orb_prop in Hnan.
    - apply orb_false_elim in Hnan as [-> ->].
      split; [|by intros [|]]. intros Hcode.
      destruct (live _ _ _).
      + destruct Hcase as [-> _]. done.
      + destruct Hcase as [(err & -> & _)|(json & s & _ & -> & _)]; [|done].
        destruct (failure_code err) as [H|H]; rewrite H in Hcode; done. }
  split; [done|]. intros Hlat Hlon.
  assert (Hl : marine_lat q = 0%float).
  { unfold marine_lat, param. by rewrite Hlat. }
  assert (Hn : marine_lon q = 0%float).
  { unfold marine_lon, param. by rewrite Hlon. }
  split; [done|]. split; [done|]. rewrite Hiff.
  unfold unusable, supplied. rewrite Hlat, Hlon. by intros [|].
Qed.

(** C10: in the interpolation path the object [interp] returns has the
    properties [wave], [wind] and [sw] and no other, so in every series
    that path returns every entry of [significant_wave_period] and of
    [swell_height] is [undefined], one per grid instant, whatever the
    upstream's hourly arrays hold; and the path does return a series over
    every window the loop fills (every instant a time value of a [Date],
    at most 2^32 - 1 of them). *)
Theorem interpolation_drops_period_and_swell (hourly : option Hourly)
    (startTs endTs : Z) :
  (forall t, exists v,
      interp (hourly_points hourly) t = Some v
      /\ forall k, is_Some (v !! k) <-> k = "wave" \/ k = "wind" \/ k = "sw")
  /\ (forall out,
        path_b hourly startTs endTs = Ok out ->
        time out = grid startTs endTs
        /\ significant_wave_period out = replicate (length (grid startTs endTs)) JUndefined
        /\ swell_height out = replicate (length (grid startTs endTs)) JUndefined)
  /\ (fillable startTs endTs = true ->
      exists out, path_b hourly startTs endTs = Ok out).
Proof.
  split; [|split].
  - intros t. destruct (interp_triple (hourly_points hourly) t) as (x & y & z & ->).
    eexists. split; [done|]. intros k. unfold triple.
    rewrite !lookup_insert_is_Some, lookup_empty. split.
    + intros [?|[_ [?|[_ [?|[_ H]]]]]]; subst; auto. by apply is_Some_None in H.
    + intros [-> | [-> | ->]]; auto 10.
  - intros out Hout.
    apply path_b_lengths in Hout as (Ht & _ & _ & _ & Hp & Hs & Hpu & Hsu).
    split; [done|].
    rewrite Ht in Hp, Hs. rewrite <- Hp at 1. rewrite <- Hs.
    split; symmetry; apply replicate_as_Forall; split; done.
  - apply path_b_total.
Qed.

(** The demonstration series over the window of one step: its hourly
    arrays hold periods 7, 8, 9 and swells 1, 2, 3, and both output arrays
    are two [undefined]. *)
Lemma interpolation_drops_witness :
  exists out,
    path_b (Some demo_hourly) 0 900000 = Ok out
    /\ significant_wave_period out = [JUndefined; JUndefined]
    /\ swell_height out = [JUndefined; JUndefined].
Proof.
  destruct (interpolation_drops_period_and_swell (Some demo_hourly) 0 900000)
    as (_ & Hall & Hsome).
  destruct (Hsome eq_refl) as [out Hout].
  exists out. split; [exact Hout|].
  destruct (Hall out Hout) as (_ & Hp & Hs). split; [exact Hp|exact Hs].
Defined.

(** * Further properties of the code *)

(** ** What a request may cost *)

Module BudgetFacts.

Import Budget RouteFacts.

Lemma steady_fetch_count {B} : steady (fetch_count (B:=B)).
Proof. intros w w' Hf _. unfold fetch_count. by rewrite Hf. Qed.

Section Bounded.
Context {B : Type}.
Variable mu : world B -> Z.
Hypothesis mu_steady : steady mu.

Lemma bounded_ret {A} n (a : A) : 0 <= n -> bounded mu n (ret a).
Proof. intros ? w r w' [= _ <-]. lia. Qed.

Lemma bounded_throw {A} n e : 0 <= n -> bounded mu n (throw (A:=A) e).
Proof. intros ? w r w' [= _ <-]. lia. Qed.

Lemma bounded_weaken {A} n n' (m : M B A) : bounded mu n m -> n <= n' -> bounded mu n' m.
Proof. intros Hm ? w r w' Hrun. specialize (Hm _ _ _ Hrun). lia. Qed.

Lemma bounded_bind {A C} n1 n2 (m : M B A) (k : A -> M B C) :
  0 <= n2 ->
  bounded mu n1 m -> (forall a, bounded mu n2 (k a)) -> bounded mu (n1 + n2) (bind m k).
Proof.
  intros ? Hm Hk w r w' Hrun.
  apply bind_inv in Hrun as [(a & w1 & H1 & H2)|(e & H1 & _)].
  - specialize (Hm _ _ _ H1). specialize (Hk _ _ _ _ H2). lia.
  - specialize (Hm _ _ _ H1). lia.
Qed.

Lemma bounded_try_catch {A} n1 n2 (m : M B A) (h : js_error -> M B A) :
  0 <= n2 ->
  bounded mu n1 m -> (forall e, bounded mu n2 (h e)) -> bounded mu (n1 + n2) (try_catch m h).
Proof.
  intros ? Hm Hh w r w' Hrun.
  apply try_catch_inv in Hrun as [(a & H1 & _)|(e & w1 & H1 & H2)].
  - specialize (Hm _ _ _ H1). lia.
  - specialize (Hm _ _ _ H1). specialize (Hh _ _ _ _ H2). lia.
Qed.

(** A step that costs nothing, before the rest. *)
Lemma bounded_then {A C} n (m : M B A) (k : A -> M B C) :
  0 <= n ->
  bounded mu 0 m -> (forall a, bounded mu n (k a)) -> bounded mu n (bind m k).
Proof. intros. by apply (bounded_bind 0 n). Qed.

(** A step that bears the whole cost, the rest costing nothing. *)
Lemma bounded_first {A C} n (m : M B A) (k : A -> M B C) :
  bounded mu n m -> (forall a, bounded mu 0 (k a)) -> bounded mu n (bind m k).
Proof.
  intros Hm Hk. eapply bounded_weaken; [apply (bounded_bind n 0); [lia|done|done]|lia].
Qed.

Lemma bounded_try {A} n (m : M B A) (h : js_error -> M B A) :
  bounded mu n m -> (forall e, bounded mu 0 (h e)) -> bounded mu n (try_catch m h).
Proof.
  intros Hm Hh. eapply bounded_weaken; [apply (bounded_try_catch n 0); [lia|done|done]|lia].
Qed.

Lemma bounded_Date_now n : 0 <= n -> bounded mu n Date_now.
Proof. intros ? w r w' [= _ <-]. lia. Qed.

Lemma bounded_mock_forced n : 0 <= n -> bounded mu n mock_forced.
Proof. intros ? w r w' [= _ <-]. lia. Qed.

Lemma bounded_cache_get n key : 0 <= n -> bounded mu n (cache_get key).
Proof. intros ? w r w' [= _ <-]. lia. Qed.

Lemma bounded_json n (resp : response B) : 0 <= n -> bounded mu n (Sys.json resp).
Proof.
  intros. unfold Sys.json. destruct (Sys.body resp); [by apply bounded_ret|by apply bounded_throw].
Qed.

Lemma bounded_prop n v k : 0 <= n -> bounded mu n (prop v k).
Proof.
  intros. unfold prop. destruct (js_get v k); [by apply bounded_ret|by apply bounded_throw].
Qed.

Lemma bounded_Math_random n : 0 <= n -> bounded mu n Math_random.
Proof.
  intros ? w r w' [= _ <-]. rewrite (mu_steady w (World _ _ _ _ _ _ _ _)) by done. lia.
Qed.

Lemma bounded_cache_set n key v ttl : 0 <= n -> bounded mu n (cache_set key v ttl).
Proof.
  intros ? w r w' [= _ <-]. rewrite (mu_steady w (World _ _ _ _ _ _ _ _)) by done. lia.
Qed.

End Bounded.

Section Fetch.
Context {B : Type}.
Implicit Types w : world B.

Lemma calls_fetchWithTimeout u timeout :
  bounded fetch_count 1 (Net.fetchWithTimeout (B:=B) u timeout).
Proof.
  intros w r w'. rewrite fetchWithTimeout_run. intros [= _ <-].
  unfold fetch_count, after_fetch. simpl. lia.
Qed.

Lemma retry_trace_ext u timeout (d1 d2 : nat -> float) a n :
  (forall i, (a < i)%nat -> d1 i = d2 i) ->
  retry_trace u timeout d1 a n = retry_trace u timeout d2 a n.
Proof.
  revert a. induction n as [|n IH]; intros a H; simpl; [done|].
  rewrite H by lia. do 2 f_equal. apply IH. intros. apply H. lia.
Qed.

Lemma returned_below_500 (resp : response B) :
  ok resp || (status resp <? 500) = true -> status resp < 500.
Proof.
  unfold ok. destruct (Z.ltb_spec (status resp) 500); [done|].
  rewrite orb_false_r. intros [_ ?%Z.leb_le]%andb_prop. lia.
Qed.

(** Any run of the loop from attempt [attempt] on, [k] retries being
    left: [n] of them were made, a sleep before each. *)
Lemma retry_loop_any u timeout retries backoffBase k attempt lastErr w r w' :
  (attempt + k)%nat = retries ->
  Net.retry_loop (S k) u timeout retries backoffBase attempt lastErr w = (r, w') ->
  exists n,
    (n <= k)%nat
    /\ fetches w' = (fetches w + S n)%nat
    /\ draws w' = (draws w + n)%nat
    /\ trace w' = trace w ++ retry_trace u timeout
         (fun i => Net.backoff_delay backoffBase i (random w (draws w + (i - 1 - attempt))%nat))
         attempt n
    /\ frame w w'
    /\ (forall resp, r = Ok resp -> status resp < 500)
    /\ ((n < k)%nat -> exists resp, r = Ok resp).
Proof.
  revert attempt lastErr w.
  induction k as [|k IH]; intros attempt lastErr w Hk; rewrite retry_loop_step by lia; cbv zeta.
  - rewrite (proj2 (Nat.ltb_lt _ _)) by lia. intros Hrun. exists 0%nat.
    assert (Hw : w' = after_fetch u timeout w).
    { destruct (answer _ _) as [resp|err]; [destruct (ok resp || _)|]; by injection Hrun. }
    subst w'. split; [lia|]. split; [simpl; lia|]. split; [simpl; lia|]. split; [done|].
    split; [apply after_fetch_frame|]. split; [|lia].
    intros resp ->. destruct (answer _ _) as [resp'|err]; [|done].
    destruct (ok resp' || _) eqn:E; [|done]. injection Hrun as ->.
    by apply returned_below_500.
  - rewrite (proj2 (Nat.ltb_ge _ _)) by lia.
    set (w1 := after_fetch u timeout w).
    set (w2 := after_wait backoffBase (S attempt) w1).
    assert (Hstop : forall resp, ok resp || (status resp <? 500) = true ->
              (Ok resp, w1) = (r, w') ->
              exists n,
                (n <= S k)%nat /\ fetches w' = (fetches w + S n)%nat
                /\ draws w' = (draws w + n)%nat
                /\ trace w' = trace w ++ retry_trace u timeout
                     (fun i => Net.backoff_delay backoffBase i
                                 (random w (draws w + (i - 1 - attempt))%nat)) attempt n
                /\ frame w w'
                /\ (forall resp, r = Ok resp -> status resp < 500)
                /\ ((n < S k)%nat -> exists resp, r = Ok resp)).
    { intros resp Hok [= <- <-]. exists 0%nat.
      split; [lia|]. split; [simpl; lia|]. split; [simpl; lia|]. split; [done|].
      split; [apply after_fetch_frame|]. split; [|by eexists].
      intros ? [= <-]. by apply returned_below_500. }
    assert (Hgo : forall lastErr',
              Net.retry_loop (S k) u timeout retries backoffBase (S attempt) lastErr' w2 = (r, w') ->
              exists n,
                (n <= S k)%nat /\ fetches w' = (fetches w + S n)%nat
                /\ draws w' = (draws w + n)%nat
                /\ trace w' = trace w ++ retry_trace u timeout
                     (fun i => Net.backoff_delay backoffBase i
                                 (random w (draws w + (i - 1 - attempt))%nat)) attempt n
                /\ frame w w'
                /\ (forall resp, r = Ok resp -> status resp < 500)
                /\ ((n < S k)%nat -> exists resp, r = Ok resp)).
    { intros lastErr' Hrun.
      apply IH in Hrun as (n & Hn & Hf & Hd & Ht & Hfr & Hst & Hearly); [|lia].
      exists (S n). split; [lia|]. split; [rewrite Hf; simpl; lia|].
      split; [rewrite Hd; simpl; lia|]. split.
      - rewrite Ht. simpl. rewrite <- !app_assoc. simpl.
        replace (attempt - 0 - attempt)%nat with 0%nat by lia.
        rewrite Nat.add_0_r. do 3 f_equal.
        apply retry_trace_ext. intros i Hi. do 2 f_equal. lia.
      - split; [|split; [done|intros; apply Hearly; lia]].
        eapply frame_trans; [|exact Hfr].
        eapply frame_trans; [apply after_fetch_frame|apply after_wait_frame]. }
    destruct (answer _ _) as [resp|err]; [|apply Hgo].
    destruct (ok resp || _) eqn:E; [by apply Hstop|apply Hgo].
Qed.

Lemma calls_fetchWithRetries u timeout retries backoffBase :
  bounded fetch_count (Z.of_nat (S retries))
    (Net.fetchWithRetries (B:=B) u timeout retries backoffBase).
Proof.
  intros w r w' Hrun. apply retry_loop_any in Hrun as (n & Hn & Hf & _); [|lia].
  unfold fetch_count. lia.
Qed.

End Fetch.

End BudgetFacts.

Import Budget BudgetFacts.

(** X2: whatever the upstream does, [fetchWithRetries] calls [fetch] at
    least once and at most [retries + 1] times, draws one random number and
    sleeps once before each call after the first (never after the last),
    leaves the cache alone, stops before the last attempt only by returning
    a response, and never returns a response whose status is 500 or more. *)
Theorem fetchWithRetries_bounded {B} (u : url) (timeout : Z) (retries : nat)
    (backoffBase : float) (w w' : world B) (r : result (response B)) :
  Net.fetchWithRetries u timeout retries backoffBase w = (r, w') ->
  exists n,
    (n <= retries)%nat
    /\ fetches w' = (fetches w + S n)%nat
    /\ draws w' = (draws w + n)%nat
    /\ trace w' = trace w ++ retry_trace u timeout
         (fun i => Net.backoff_delay backoffBase i (random w (draws w + (i - 1))%nat)) 0 n
    /\ cache w' = cache w
    /\ (forall resp, r = Ok resp -> status resp < 500)
    /\ ((n < retries)%nat -> exists resp, r = Ok resp).
Proof.
  intros Hrun. apply retry_loop_any in Hrun as (n & Hn & Hf & Hd & Ht & Hfr & Hst & He); [|lia].
  exists n. split; [done|]. split; [done|]. split; [done|]. split.
  - rewrite Ht. f_equal. apply retry_trace_ext. intros. do 2 f_equal. lia.
  - split; [apply Hfr|]. by split.
Qed.

(** Bounds a computation whose steps cost nothing. *)
Ltac idle_step :=
  match goal with
  | |- bounded _ _ (ret _) => apply bounded_ret; lia
  | |- bounded _ _ (throw _) => apply bounded_throw; lia
  | |- bounded _ _ Date_now => apply bounded_Date_now; lia
  | |- bounded _ _ mock_forced => apply bounded_mock_forced; lia
  | |- bounded _ _ (cache_get _) => apply bounded_cache_get; lia
  | |- bounded _ _ (Sys.json _) => apply bounded_json; lia
  | |- bounded _ _ (prop _ _) => apply bounded_prop; lia
  | |- bounded _ _ Math_random =>
      apply bounded_Math_random; [apply steady_fetch_count|lia]
  | |- bounded _ _ (cache_set _ _ _) =>
      apply bounded_cache_set; [apply steady_fetch_count|lia]
  | |- bounded _ _ (bind _ _) => apply bounded_then; [lia| |intros]
  | |- bounded _ _ (if ?c then _ else _) => destruct c
  | |- bounded _ _ (match ?c with _ => _ end) => destruct c
  end.
Ltac idle := repeat idle_step.

Module RouteBudget.

Import RouteFacts.

Section Mock.
Context {B : Type}.
Variables (Math_sin : float -> float) (getHours : Z -> Z).
Variable mu : world B -> Z.
Hypothesis mu_steady : steady mu.

Lemma bounded_mock_rows (row : Z -> M B (list jsval)) n first :
  (forall i, bounded mu 0 (row i)) -> bounded mu 0 (mock_rows row n first).
Proof.
  intros Hrow. revert first. induction n as [|n IH]; intros first; simpl.
  - apply bounded_ret. lia.
  - apply bounded_then; [lia|apply Hrow|intros r].
    apply bounded_then; [lia|apply IH|intros rs]. apply bounded_ret. lia.
Qed.

Lemma bounded_generateMockForecast lat lon :
  bounded mu 0 (generateMockForecast Math_sin getHours lat lon).
Proof.
  unfold generateMockForecast.
  apply bounded_then; [lia|by apply bounded_Date_now|intros now].
  apply bounded_then; [lia| |intros hours].
  { apply bounded_mock_rows. intros i. unfold mock_hourly_row.
    repeat first
      [ apply bounded_ret; lia
      | apply bounded_Math_random; [done|lia]
      | apply bounded_then; [lia| |intros]
      | match goal with |- bounded _ _ (if ?c then _ else _) => destruct c end ]. }
  apply bounded_then; [lia| |intros days].
  { apply bounded_mock_rows. intros i. unfold mock_daily_row.
    repeat first
      [ apply bounded_ret; lia
      | apply bounded_Math_random; [done|lia]
      | apply bounded_then; [lia| |intros] ]. }
  apply bounded_ret. lia.
Qed.

End Mock.

Section Forecast.
Variables (Math_sin : float -> float) (getHours : Z -> Z).

Lemma calls_fetch_full lat lon : bounded fetch_count 3 (fetch_full lat lon).
Proof.
  unfold fetch_full. apply (bounded_first _ 3); [apply calls_fetchWithRetries|intros]. idle.
Qed.

Lemma calls_fetch_light lat lon : bounded fetch_count 2 (fetch_light lat lon).
Proof.
  unfold fetch_light. apply (bounded_first _ 2); [apply calls_fetchWithRetries|intros]. idle.
Qed.

Lemma calls_forecast_data city lat lon display_name :
  bounded fetch_count 5 (forecast_data Math_sin getHours city lat lon display_name).
Proof.
  unfold forecast_data. apply (bounded_try_catch _ 3 2); [lia| |intros _].
  { apply (bounded_first _ 3); [apply calls_fetch_full|intros]. idle. }
  apply (bounded_try _ 2); [ |intros _].
  { apply (bounded_first _ 2); [apply calls_fetch_light|intros]. idle. }
  apply bounded_then; [lia| |intros]; [|idle].
  apply bounded_generateMockForecast, steady_fetch_count.
Qed.

Lemma calls_forecast_try city key :
  bounded fetch_count 8 (forecast_try Math_sin getHours city key).
Proof.
  unfold forecast_try. apply (bounded_bind _ 3 5); [lia|apply calls_fetchWithRetries|intros nomResp].
  destruct (negb (ok nomResp)); [idle|].
  apply bounded_then; [lia|idle|intros places].
  apply bounded_then; [lia|idle|intros len].
  destruct (_ || _); [idle|].
  apply bounded_then; [lia|idle|intros place].
  apply bounded_then; [lia|idle|intros lat].
  apply bounded_then; [lia|idle|intros lon].
  apply bounded_then; [lia|idle|intros display_name].
  apply (bounded_first _ 5); [apply calls_forecast_data|intros data]. idle.
Qed.

Lemma calls_forecast q : bounded fetch_count 8 (forecast Math_sin getHours q).
Proof.
  unfold forecast. destruct (String.eqb _ _); [idle|].
  apply bounded_then; [lia|idle|intros cached]. destruct cached; [idle|].
  apply bounded_then; [lia|idle|intros forced]. destruct forced.
  - apply bounded_then; [lia| |intros]; [|idle].
    eapply bounded_weaken; [apply bounded_generateMockForecast, steady_fetch_count|lia].
  - apply (bounded_try _ 8); [apply calls_forecast_try|intros]. idle.
Qed.

End Forecast.

Section Single.
Variable num_to_string : float -> string.
Variable aq_payload : string -> string -> jsval -> result jsobj.
Variable climate_payload :
  string -> string -> Z -> string -> string -> jsval -> result (string + jsobj).
(** The routes of one or two calls without a sleep, measured by the call
    counter ([c = 1], the count of one call) or by the clock ([c] the
    deadline of a call). *)
Variable mu : world jsval -> Z.
Variable nu : world Resampler.MarineJson -> Z.
Hypothesis mu_steady : steady mu.
Hypothesis nu_steady : steady nu.

Lemma bounded_air_quality c q :
  0 <= c ->
  (forall u, bounded mu c (Net.fetchWithTimeout u 8000)) ->
  bounded mu c (air_quality aq_payload q).
Proof.
  intros ? Hfetch. unfold air_quality.
  destruct (given _); [|idle]. destruct (given _); [|idle].
  apply bounded_then; [lia|idle|intros cached]. destruct cached; [idle|].
  apply (bounded_try _ c); [ |intros; idle].
  unfold air_quality_try.
  apply (bounded_first _ c); [apply Hfetch|intros resp].
  destruct (negb _); [idle|].
  apply bounded_then; [lia|idle|intros]. destruct (aq_payload _ _ _); [|idle].
  apply bounded_then; [lia| |intros; idle]. by apply bounded_cache_set.
Qed.

Lemma bounded_climate c q :
  0 <= c ->
  (forall u, bounded mu c (Net.fetchWithTimeout u 15000)) ->
  bounded mu c (climate climate_payload q).
Proof.
  intros ? Hfetch. unfold climate.
  destruct (given _); [|idle]. destruct (given _); [|idle].
  apply bounded_then; [lia|idle|intros now].
  apply bounded_then; [lia|idle|intros cached]. destruct cached; [idle|].
  apply (bounded_try _ c); [ |intros; idle].
  unfold climate_try.
  apply (bounded_first _ c); [apply Hfetch|intros resp].
  destruct (negb _); [idle|].
  apply bounded_then; [lia|idle|intros]. destruct (climate_payload _ _ _ _ _ _) as [[?|?]|]; [idle| |idle].
  apply bounded_then; [lia| |intros; idle]. by apply bounded_cache_set.
Qed.

Lemma bounded_marine c q :
  0 <= c ->
  (forall u, bounded nu c (Net.fetchWithTimeout u 12000)) ->
  bounded nu (c + c) (marine num_to_string q).
Proof.
  intros ? Hfetch. unfold marine.
  destruct (_ || _); [idle|].
  apply bounded_then; [lia|idle|intros cached]. destruct cached; [idle|].
  apply (bounded_try _ (c + c)); [ |intros; idle].
  unfold marine_try.
  apply (bounded_bind _ c c); [lia|apply Hfetch|intros first].
  apply (bounded_first _ c); [ |intros resp].
  { destruct (ok first); [idle|].
    apply (bounded_first _ c); [apply Hfetch|intros second]. idle. }
  apply bounded_then; [lia|idle|intros json].
  apply bounded_then; [lia|idle|intros now].
  destruct (Resampler.build_series15 _ _ _ _ _ _); [|idle].
  apply bounded_then; [lia| |intros; idle]. by apply bounded_cache_set.
Qed.

End Single.

End RouteBudget.

Import RouteBudget Demo.

(** X3: a request makes at most eight upstream calls on the forecast
    route, one on the air quality and on the climate route and two on the
    marine route, whatever the upstream does and however the request
    ends. *)
Theorem upstream_budget (num_to_string : float -> string) (Math_sin : float -> float)
    (getHours : Z -> Z) (aq_payload : string -> string -> jsval -> result jsobj)
    (climate_payload : string -> string -> Z -> string -> string -> jsval
                       -> result (string + jsobj))
    (e : endpoint) (q : gmap string string) (w w' : world (body e))
    (r : result http_response) :
  route num_to_string Math_sin getHours aq_payload climate_payload e q w = (r, w') ->
  (fetches w <= fetches w' <= fetches w + max_fetches e)%nat.
Proof.
  destruct e; simpl in *; intros Hrun.
  - apply calls_forecast in Hrun. unfold fetch_count in Hrun. lia.
  - apply (bounded_air_quality aq_payload fetch_count steady_fetch_count 1) in Hrun;
      [unfold fetch_count in Hrun; lia|lia|intros; apply calls_fetchWithTimeout].
  - apply (bounded_climate climate_payload fetch_count steady_fetch_count 1) in Hrun;
      [unfold fetch_count in Hrun; lia|lia|intros; apply calls_fetchWithTimeout].
  - apply (bounded_marine num_to_string fetch_count steady_fetch_count 1) in Hrun;
      [unfold fetch_count in Hrun; lia|lia|intros; apply calls_fetchWithTimeout].
Qed.

(** The budget of a forecast request whose upstream fails after the
    geocoder: six of the eight calls. *)
Lemma upstream_budget_witness :
  let w := world_at 1000 forecast_upstream_down (fun _ => 0.5%float) None in
  exists r w',
    forecast demo_sin demo_getHours dhaka_query w = (r, w')
    /\ fetches w' = 6%nat
    /\ (fetches w <= fetches w' <= fetches w + 8)%nat.
Proof.
  intros w.
  destruct (forecast demo_sin demo_getHours dhaka_query w) as [r w'] eqn:Hrun.
  exists r, w'. split; [reflexivity|].
  split; [vm_compute in Hrun; injection Hrun as _ <-; reflexivity|].
  exact (upstream_budget demo_num_to_string demo_sin demo_getHours
           (fun _ _ _ => Ok ∅) (fun _ _ _ _ _ _ => Ok (inl ""%string))
           Forecast dhaka_query w w' r Hrun).
Defined.

Module OutcomeFacts.

Import RouteFacts.

Lemma failure_abort : failure AbortError = Reply 504 (error_body "Upstream timed out").
Proof. done. Qed.

Lemma failure_Error msg : failure (Error msg) = internal_error msg.
Proof. done. Qed.

Section Fetch.
Context {B : Type}.
Implicit Types w : world B.

Lemma fetchWithTimeout_late u timeout w :
  timeout <= latency (upstream w (fetches w)) ->
  Net.fetchWithTimeout u timeout w = (Throw AbortError, after_fetch u timeout w).
Proof.
  intros. rewrite fetchWithTimeout_run. unfold answer.
  by rewrite (proj2 (Z.ltb_ge _ _)).
Qed.

Lemma fetchWithTimeout_answered u timeout w l resp :
  upstream w (fetches w) = Served l (Responds resp) -> l < timeout ->
  Net.fetchWithTimeout u timeout w = (Ok resp, after_fetch u timeout w).
Proof.
  intros Hup ?. rewrite fetchWithTimeout_run. unfold answer. rewrite Hup. simpl.
  by rewrite (proj2 (Z.ltb_lt _ _)).
Qed.

Lemma fetchWithRetries_late u timeout retries backoffBase w :
  (forall n, (n <= retries)%nat -> timeout <= latency (upstream w (fetches w + n)%nat)) ->
  exists w',
    Net.fetchWithRetries u timeout retries backoffBase w = (Throw AbortError, w')
    /\ cache w' = cache w /\ fetches w' = (fetches w + S retries)%nat.
Proof.
  intros Hlate.
  destruct (retry_loop_exhausted u timeout retries backoffBase (upstream w) (random w)
              (fetches w) (draws w) retries 0%nat None w)
    as (w' & Hrun & _ & Hfe & _ & Hfr); try done; try lia.
  { intros n Hn. specialize (Hlate n ltac:(lia)). unfold retryable.
    destruct (outcome _); [by left|done]. }
  exists w'. split; [|split; [apply Hfr|done]].
  unfold Net.fetchWithRetries. rewrite Hrun. do 2 f_equal.
  unfold error_of. by rewrite (proj2 (Z.ltb_ge _ _)) by (apply Hlate; lia).
Qed.

Lemma fetchWithRetries_answered u timeout retries backoffBase w l resp :
  upstream w (fetches w) = Served l (Responds resp) -> l < timeout -> status resp < 500 ->
  Net.fetchWithRetries u timeout retries backoffBase w = (Ok resp, after_fetch u timeout w).
Proof.
  intros Hup ? ?. unfold Net.fetchWithRetries. rewrite retry_loop_step by lia. cbv zeta.
  unfold answer. rewrite Hup. simpl. rewrite (proj2 (Z.ltb_lt _ _)) by done.
  by rewrite (proj2 (Z.ltb_lt (status resp) 500)), orb_true_r by done.
Qed.

End Fetch.

End OutcomeFacts.

Import OutcomeFacts.

(** X4: when the first upstream call of a request that misses the cache
    is not answered within its deadline (10 s for the geocoder, at each of
    its three attempts; 8 s, 15 s and 12 s for the air quality, the climate
    and the marine upstream, asked once), the route replies 504 with
    [{ error: 'Upstream timed out' }] and leaves the cache as it was. *)
Theorem timeout_gives_504 (num_to_string : float -> string) (Math_sin : float -> float)
    (getHours : Z -> Z) (aq_payload : string -> string -> jsval -> result jsobj)
    (climate_payload : string -> string -> Z -> string -> string -> jsval
                       -> result (string + jsobj))
    (e : endpoint) (q : gmap string string) (w : world (body e)) (key : string) :
  cache_key num_to_string e q = Some key ->
  live (cache w) key (clock w) = None ->
  (e = Forecast -> USE_MOCK w <> Some "true") ->
  (forall n, (n < first_attempts e)%nat ->
     first_timeout e <= latency (upstream w (fetches w + n)%nat)) ->
  exists w',
    route num_to_string Math_sin getHours aq_payload climate_payload e q w
    = (Ok (Reply 504 (error_body "Upstream timed out")), w')
    /\ cache w' = cache w
    /\ fetches w' = (fetches w + first_attempts e)%nat.
Proof.
  destruct e; simpl in *; intros Hkey Hlive Hmock Hlate.
  - unfold forecast. destruct (String.eqb (city_of q) ""); [done|].
    injection Hkey as <-.
    unfold bind at 1. rewrite cache_get_run, Hlive.
    unfold bind at 1. rewrite mock_forced_run, bool_decide_eq_false_2 by auto.
    unfold try_catch, forecast_try. unfold bind at 1.
    destruct (fetchWithRetries_late (UrlNominatim (city_of q)) 10000 2 300 w)
      as (w' & -> & Hc & Hf).
    { intros n Hn. apply Hlate. lia. }
    by exists w'.
  - unfold air_quality.
    destruct (given (param q "lat" "latitude")) as [lat|]; [|done].
    destruct (given (param q "lon" "longitude")) as [lon|]; [|done].
    injection Hkey as <-.
    unfold bind at 1. rewrite cache_get_run, Hlive.
    unfold try_catch, air_quality_try. unfold bind at 1.
    rewrite fetchWithTimeout_late by (specialize (Hlate 0%nat); rewrite Nat.add_0_r in Hlate; auto).
    eexists. split; [done|]. split; [done|]. simpl. lia.
  - unfold climate.
    destruct (given (param q "lat" "latitude")) as [lat|]; [|done].
    destruct (given (param q "lon" "longitude")) as [lon|]; [|done].
    injection Hkey as <-.
    unfold bind at 1, Date_now. unfold bind at 1. rewrite cache_get_run, Hlive.
    unfold try_catch, climate_try. unfold bind at 1.
    rewrite fetchWithTimeout_late by (specialize (Hlate 0%nat); rewrite Nat.add_0_r in Hlate; auto).
    eexists. split; [done|]. split; [done|]. simpl. lia.
  - unfold marine.
    destruct (PrimFloat.is_nan (marine_lat q) || PrimFloat.is_nan (marine_lon q)); [done|].
    injection Hkey as <-.
    unfold bind at 1. rewrite cache_get_run, Hlive.
    unfold try_catch, marine_try. unfold bind at 1.
    rewrite fetchWithTimeout_late by (specialize (Hlate 0%nat); rewrite Nat.add_0_r in Hlate; auto).
    eexists. split; [done|]. split; [done|]. simpl. lia.
Qed.

(** A marine upstream that never answers within the deadline. *)
Lemma timeout_gives_504_witness :
  let w := world_at 1000 (fun _ => Served 12000 (Responds (Response 200 (Some (demo_json None)))))
             (fun _ => 0.5%float) None in
  exists w',
    marine demo_num_to_string zero_window_query w
    = (Ok (Reply 504 (error_body "Upstream timed out")), w')
    /\ cache w' = cache w
    /\ fetches w' = 1%nat.
Proof.
  intros w.
  apply (timeout_gives_504 demo_num_to_string demo_sin demo_getHours
           (fun _ _ _ => Ok ∅) (fun _ _ _ _ _ _ => Ok (inl ""%string))
           Marine zero_window_query w
           (marine_key demo_num_to_string 0 0 (Some 0) (Some 0))).
  - reflexivity.
  - reflexivity.
  - discriminate.
  - intros n _. simpl. lia.
Defined.

(** Three failing calls, the third of which ends the loop. *)
Lemma fetchWithRetries_bounded_witness :
  let w := world_at 0 (always_503 (B:=unit)) (fun _ => 0.5%float) None in
  exists n,
    (n <= 2)%nat
    /\ fetches (Net.fetchWithRetries (UrlNominatim "x") 10000 2 300 w).2 = (0 + S n)%nat.
Proof.
  intros w.
  destruct (Net.fetchWithRetries (UrlNominatim "x") 10000 2 300 w) as [r w'] eqn:Hrun.
  destruct (fetchWithRetries_bounded _ _ _ _ _ _ _ Hrun) as (n & Hn & Hf & _).
  exists n. split; [exact Hn|exact Hf].
Defined.

(** X5: when the marine upstream answers the full request with a status
    that is not ok (any, not only 400), the route asks once more, with the
    safe list of hourly variables, and makes no third call. An answer that
    is not ok gives a 500 whose details are ['Upstream failed: <status>']
    and leaves the cache as it was. An ok answer with a JSON body is
    served with status 200 and stored when [series15] is built; when
    building it throws, the reply is the one of the route's [catch] and
    the cache is left as it was. *)
Theorem marine_safe_retry (num_to_string : float -> string) (q : gmap string string)
    (w : world MarineJson) (l1 l2 : Z) (r1 r2 : response MarineJson) :
  let lat := marine_lat q in
  let lon := marine_lon q in
  let forecastSteps := steps q "forecast_minutely_15" "96" in
  let pastSteps := steps q "past_minutely_15" "0" in
  let key := marine_key num_to_string lat lon forecastSteps pastSteps in
  PrimFloat.is_nan lat || PrimFloat.is_nan lon = false ->
  live (cache w) key (clock w) = None ->
  upstream w (fetches w) = Served l1 (Responds r1) -> l1 < 12000 -> ok r1 = false ->
  upstream w (S (fetches w)) = Served l2 (Responds r2) -> l2 < 12000 ->
  exists reply w',
    marine num_to_string q w = (Ok reply, w')
    /\ trace w' = trace w ++ [EvFetch (UrlMarine lat lon hourlyParams) 12000;
                              EvFetch (UrlMarine lat lon safeParams) 12000]
    /\ (ok r2 = false ->
        reply = internal_error (refusal Marine (status r2)) /\ cache w' = cache w)
    /\ (forall json, ok r2 = true -> Sys.body r2 = Some json ->
        match build_series15 json lat lon forecastSteps pastSteps (clock w') with
        | Ok series15 =>
            reply = Reply 200 (with_cached false (marine_payload json lat lon series15))
            /\ cache w' = <[key := CacheEntry (marine_payload json lat lon series15)
                                     (clock w' + 300 * 1000)]> (cache w)
        | Throw err => reply = failure err /\ cache w' = cache w
        end).
Proof.
  intros lat lon forecastSteps pastSteps key Hnan Hlive Hup1 Hl1 Hok1 Hup2 Hl2.
  unfold marine. fold lat lon. rewrite Hnan. fold forecastSteps pastSteps key.
  unfold bind at 1. rewrite cache_get_run, Hlive.
  unfold try_catch, marine_try. unfold bind at 1.
  rewrite (fetchWithTimeout_answered _ _ _ l1 r1) by done.
  unfold bind at 1. rewrite Hok1. unfold bind at 1.
  rewrite (fetchWithTimeout_answered _ _ _ l2 r2) by done.
  destruct (ok r2) eqn:Hok2.
  - unfold ret at 1, Sys.json. destruct (Sys.body r2) as [json|] eqn:Hbody.
    + unfold bind at 1, ret at 1. unfold bind at 1, Date_now.
      destruct (build_series15 json lat lon forecastSteps pastSteps
                  (clock (after_fetch (UrlMarine lat lon safeParams) 12000
                            (after_fetch (UrlMarine lat lon hourlyParams) 12000 w))))
        as [series15|err] eqn:Hb.
      * eexists _, _. split; [reflexivity|]. simpl snd.
        split; [simpl; by rewrite <- app_assoc|]. split; [done|].
        intros json' _ [= <-]. simpl clock. simpl in Hb. rewrite Hb. done.
      * eexists _, _. split; [reflexivity|]. simpl snd.
        split; [simpl; by rewrite <- app_assoc|]. split; [done|].
        intros json' _ [= <-]. rewrite Hb. done.
    + eexists _, _. split; [reflexivity|].
      split; [simpl; by rewrite <- app_assoc|]. split; [done|]. done.
  - eexists _, _. split; [reflexivity|].
    split; [simpl; by rewrite <- app_assoc|]. split; [|done]. done.
Qed.

(** The full request is refused with a 400, the safe one answered. *)
Lemma marine_safe_retry_witness :
  let up (n : nat) : served MarineJson :=
    match n with
    | O => Served 20 (Responds (Response 400 None))
    | _ => Served 30 (Responds (Response 200 (Some (demo_json None))))
    end in
  let w := world_at 1000 up (fun _ => 0.5%float) None in
  exists reply w',
    marine demo_num_to_string zero_window_query w = (Ok reply, w')
    /\ trace w' = [EvFetch (UrlMarine 0 0 hourlyParams) 12000;
                   EvFetch (UrlMarine 0 0 safeParams) 12000]
    /\ code reply = 200.
Proof.
  intros up w.
  destruct (marine_safe_retry demo_num_to_string zero_window_query w 20 30
              (Response 400 None) (Response 200 (Some (demo_json None)))
              eq_refl eq_refl eq_refl eq_refl eq_refl eq_refl eq_refl)
    as (reply & w' & Hrun & Htr & _ & Hok).
  exists reply, w'. split; [exact Hrun|]. split; [exact Htr|].
  destruct (Hok (demo_json None) eq_refl eq_refl) as [-> _]. reflexivity.
Defined.

(** X6: a geocoder answer that is ok but names no place (an empty array,
    or a body that is falsy) makes the forecast route reply 404 with
    [{ error: 'Location not found' }] after that one call; nothing is
    cached, so the next request for the city asks the geocoder again. *)
Theorem forecast_location_not_found (Math_sin : float -> float) (getHours : Z -> Z)
    (q : gmap string string) (w : world jsval) (l : Z) (resp : response jsval)
    (places : jsval) :
  city_of q <> "" ->
  live (cache w) (forecast_key (city_of q)) (clock w) = None ->
  USE_MOCK w <> Some "true" ->
  upstream w (fetches w) = Served l (Responds resp) -> l < 10000 ->
  ok resp = true -> Sys.body resp = Some places ->
  truthy places = false \/ places = JArr [] ->
  exists w',
    forecast Math_sin getHours q w = (Ok (Reply 404 (error_body "Location not found")), w')
    /\ cache w' = cache w
    /\ fetches w' = S (fetches w)
    /\ live (cache w') (forecast_key (city_of q)) (clock w') = None.
Proof.
  intros Hcity Hlive Hmock Hup Hl Hok Hbody Hempty.
  unfold forecast. rewrite (proj2 (String.eqb_neq _ _)) by done.
  unfold bind at 1. rewrite cache_get_run, Hlive.
  unfold bind at 1. rewrite mock_forced_run, bool_decide_eq_false_2 by done.
  unfold try_catch, forecast_try. unfold bind at 1.
  assert (Hst : status resp < 500).
  { unfold ok in Hok. apply andb_prop in Hok as [_ ?%Z.leb_le]. lia. }
  rewrite (fetchWithRetries_answered _ _ _ _ _ l resp) by done.
  rewrite Hok. simpl negb. cbv iota.
  unfold Sys.json. rewrite Hbody. unfold bind at 1, ret at 1.
  set (w1 := after_fetch (UrlNominatim (city_of q)) 10000 w).
  assert (Hlive1 : live (cache w1) (forecast_key (city_of q)) (clock w1) = None).
  { unfold live in *. simpl. destruct (cache w !! _) as [entry|]; [|done].
    destruct (Z.ltb_spec (expiresAt entry) (clock w)); [|done].
    rewrite (proj2 (Z.ltb_lt _ _)); [done|].
    destruct (latency _ <? 10000); lia. }
  destruct Hempty as [Hfalsy| ->].
  - rewrite Hfalsy. unfold bind at 1, ret at 1. simpl.
    exists w1. done.
  - simpl truthy. cbv iota. unfold prop. simpl js_get. unfold bind at 1, ret at 1.
    replace (negb true || is_zero (JNum (Num.Z2F (Z.of_nat (length (@nil jsval))))))
      with true by (vm_compute; reflexivity).
    exists w1. done.
Qed.

(** The geocoder knows no place of the name. *)
Lemma forecast_location_not_found_witness :
  let w := world_at 1000 (fun _ => Served 20 (Responds (Response 200 (Some (JArr [])))))
             (fun _ => 0.5%float) None in
  exists w',
    forecast demo_sin demo_getHours dhaka_query w
    = (Ok (Reply 404 (error_body "Location not found")), w')
    /\ cache w' = cache w
    /\ fetches w' = 1%nat.
Proof.
  intros w.
  destruct (forecast_location_not_found demo_sin demo_getHours dhaka_query w 20
              (Response 200 (Some (JArr []))) (JArr []))
    as (w' & Hrun & Hc & Hf & _).
  - vm_compute. discriminate.
  - reflexivity.
  - discriminate.
  - reflexivity.
  - simpl. lia.
  - reflexivity.
  - reflexivity.
  - right. reflexivity.
  - exists w'. split; [exact Hrun|]. split; [exact Hc|exact Hf].
Defined.

(** X7: an upstream answer in time whose status is not ok is not asked
    for again by the air quality and the climate route, nor, when the
    status is below 500, by the forecast route for its geocoder: the reply
    is a 500 with [error: 'Internal server error'] whose details name the
    upstream and the status, after that one call, and nothing is cached. *)
Theorem refusal_gives_500 (num_to_string : float -> string) (Math_sin : float -> float)
    (getHours : Z -> Z) (aq_payload : string -> string -> jsval -> result jsobj)
    (climate_payload : string -> string -> Z -> string -> string -> jsval
                       -> result (string + jsobj))
    (e : endpoint) (q : gmap string string) (w : world (body e)) (key : string)
    (l : Z) (resp : response (body e)) :
  e <> Marine ->
  cache_key num_to_string e q = Some key ->
  live (cache w) key (clock w) = None ->
  (e = Forecast -> USE_MOCK w <> Some "true" /\ status resp < 500) ->
  upstream w (fetches w) = Served l (Responds resp) -> l < first_timeout e ->
  ok resp = false ->
  exists w',
    route num_to_string Math_sin getHours aq_payload climate_payload e q w
    = (Ok (internal_error (refusal e (status resp))), w')
    /\ cache w' = cache w
    /\ fetches w' = S (fetches w).
Proof.
  destruct e; simpl in *; intros Hne Hkey Hlive Hmock Hup Hl Hok; [| | |done].
  - unfold forecast. destruct (String.eqb (city_of q) ""); [done|].
    injection Hkey as <-. destruct Hmock as [Hmock Hst]; [done|].
    unfold bind at 1. rewrite cache_get_run, Hlive.
    unfold bind at 1. rewrite mock_forced_run, bool_decide_eq_false_2 by done.
    unfold try_catch, forecast_try. unfold bind at 1.
    rewrite (fetchWithRetries_answered _ _ _ _ _ l resp) by done.
    rewrite Hok. simpl negb. cbv iota. by eexists.
  - unfold air_quality.
    destruct (given (param q "lat" "latitude")) as [lat|]; [|done].
    destruct (given (param q "lon" "longitude")) as [lon|]; [|done].
    injection Hkey as <-.
    unfold bind at 1. rewrite cache_get_run, Hlive.
    unfold try_catch, air_quality_try. unfold bind at 1.
    rewrite (fetchWithTimeout_answered _ _ _ l resp) by done.
    rewrite Hok. simpl negb. cbv iota. by eexists.
  - unfold climate.
    destruct (given (param q "lat" "latitude")) as [lat|]; [|done].
    destruct (given (param q "lon" "longitude")) as [lon|]; [|done].
    injection Hkey as <-.
    unfold bind at 1, Date_now. unfold bind at 1. rewrite cache_get_run, Hlive.
    unfold try_catch, climate_try. unfold bind at 1.
    rewrite (fetchWithTimeout_answered _ _ _ l resp) by done.
    rewrite Hok. simpl negb. cbv iota. by eexists.
Qed.

(** The geocoder refuses the request with a 429. *)
Lemma refusal_gives_500_witness :
  let w := world_at 1000 (fun _ => Served 20 (Responds (Response 429 None)))
             (fun _ => 0.5%float) None in
  exists w',
    forecast demo_sin demo_getHours dhaka_query w
    = (Ok (internal_error "Nominatim failed: 429"), w')
    /\ cache w' = cache w
    /\ fetches w' = 1%nat.
Proof.
  intros w.
  apply (refusal_gives_500 demo_num_to_string demo_sin demo_getHours
           (fun _ _ _ => Ok ∅) (fun _ _ _ _ _ _ => Ok (inl ""%string))
           Forecast dhaka_query w (forecast_key "Dhaka") 20 (Response 429 None)).
  - discriminate.
  - reflexivity.
  - reflexivity.
  - intros _. split; [discriminate|simpl; lia].
  - reflexivity.
  - simpl. lia.
  - reflexivity.
Defined.

Module WindowFacts.

Lemma length_by_lookup {A} (l : list A) (n : nat) :
  (forall k, is_Some (l !! k) <-> (k < n)%nat) -> length l = n.
Proof.
  intros H.
  pose proof (H (length l)) as H1. pose proof (H n) as H2.
  rewrite lookup_lt_is_Some in H1, H2. lia.
Qed.

(** The grid of a window of [n] steps has [n + 1] instants. *)
Lemma grid_length startTs n :
  0 <= n -> length (grid startTs (startTs + n * stepMs)) = Z.to_nat (n + 1).
Proof.
  intros Hn. apply length_by_lookup. intros k. pose proof stepMs_pos. split.
  - intros [x [-> Hle]%grid_lookup]. nia.
  - intros Hk. exists (startTs + Z.of_nat k * stepMs). apply grid_lookup. split; [done|]. nia.
Qed.

Lemma bucket_of_aligned t :
  bucket_of t mod stepMs = 0 /\ t - stepMs < bucket_of t <= t.
Proof.
  unfold bucket_of. pose proof stepMs_pos. split.
  - apply Z.mod_mul. lia.
  - pose proof (Z.mul_div_le t stepMs ltac:(lia)).
    pose proof (Z.mod_pos_bound t stepMs ltac:(lia)).
    pose proof (Z.div_mod t stepMs ltac:(lia)). lia.
Qed.

(** A bucket that is there holds a sample of the window. *)
Lemma bucket_has_sample sw startTs endTs minTimes k b :
  fill_buckets sw startTs endTs 0 minTimes ∅ !! k = Some b ->
  exists t, t ∈ minTimes /\ in_window startTs endTs t = true /\ bucket_of t = k.
Proof.
  rewrite buckets_filled.
  destruct (bucket_samples _ _ _ _) as [|x xs] eqn:E; [done|]. intros _.
  assert (Hx : x ∈ bucket_samples startTs endTs k (samples_from sw 0 minTimes))
    by (rewrite E; left).
  unfold bucket_samples in Hx. apply list_elem_of_filter in Hx as [[Hw Hk] Hin].
  unfold samples_from in Hin. apply list_elem_of_lookup in Hin as [i Hi].
  rewrite list_lookup_imap in Hi.
  destruct (minTimes !! i) as [t|] eqn:Ht; [|done]. injection Hi as <-. simpl in *.
  exists t. split; [by eapply list_elem_of_lookup_2|]. split; [|done].
  by destruct (in_window startTs endTs t).
Qed.

End WindowFacts.

Import WindowFacts.

(** X8: a series of the interpolation path holds every 15-minute
    instant from [now - pastSteps * 15 min] to
    [now + forecastSteps * 15 min], both ends included: it has
    [pastSteps + forecastSteps + 1] instants, the [k]-th of which lies [k]
    steps after the first. The path returns such a series over every
    window the loop fills (its two ends time values of a [Date], at most
    2^32 - 1 instants), and throws a [RangeError] on a window whose first
    instant is no time value of a [Date]. *)
Theorem interpolation_grid (json : MarineJson) (lat lon : float)
    (forecastSteps pastSteps now : Z) :
  0 <= forecastSteps -> 0 <= pastSteps ->
  chosen_path json lat lon (Some forecastSteps) (Some pastSteps) = PathB ->
  (forall series15,
     build_series15 json lat lon (Some forecastSteps) (Some pastSteps) now = Ok series15 ->
     exists out,
       series15 = Some out
       /\ length (time out) = Z.to_nat (pastSteps + forecastSteps + 1)
       /\ (forall k : nat,
             Z.of_nat k <= pastSteps + forecastSteps ->
             time out !! k = Some (now - pastSteps * stepMs + Z.of_nat k * stepMs))
       /\ head (time out) = Some (now - pastSteps * stepMs)
       /\ last (time out) = Some (now + forecastSteps * stepMs))
  /\ (fillable (now - pastSteps * stepMs) (now + forecastSteps * stepMs) = true ->
      exists out,
        build_series15 json lat lon (Some forecastSteps) (Some pastSteps) now
        = Ok (Some out))
  /\ (Str.valid_time (now - pastSteps * stepMs) = false ->
      build_series15 json lat lon (Some forecastSteps) (Some pastSteps) now
      = Throw (RangeError "Invalid time value")).
Proof.
  intros Hf Hp Hpath. unfold build_series15. rewrite Hpath. split; [|split].
  - intros series15.
    destruct (path_b _ _ _) as [out|err] eqn:Hout; [|done].
    intros [= <-]. exists out. split; [done|].
    destruct (path_b_rows _ _ _ out Hout) as [Ht _]. rewrite Ht.
    replace (now + forecastSteps * stepMs)
      with (now - pastSteps * stepMs + (pastSteps + forecastSteps) * stepMs) by lia.
    pose proof (grid_length (now - pastSteps * stepMs) (pastSteps + forecastSteps)
                  ltac:(lia)) as Hlen.
    pose proof stepMs_pos.
    assert (Hk : forall k : nat,
              Z.of_nat k <= pastSteps + forecastSteps ->
              grid (now - pastSteps * stepMs)
                (now - pastSteps * stepMs + (pastSteps + forecastSteps) * stepMs) !! k
              = Some (now - pastSteps * stepMs + Z.of_nat k * stepMs)).
    { intros k Hle. apply grid_lookup. split; [done|]. nia. }
    split; [done|]. split; [done|]. split.
    + rewrite head_lookup. rewrite (Hk 0%nat) by lia. f_equal. lia.
    + rewrite last_lookup, Hlen.
      replace (Init.Nat.pred (Z.to_nat (pastSteps + forecastSteps + 1)))
        with (Z.to_nat (pastSteps + forecastSteps)) by lia.
      rewrite Hk by lia. rewrite Z2Nat.id by lia. done.
  - intros Hfill.
    destruct (path_b_total (mj_hourly json) _ _ Hfill) as [out ->]. by exists out.
  - intros Hinvalid. pose proof stepMs_pos.
    rewrite path_b_invalid_start; [done|done|nia].
Qed.

(** One step back and two ahead: four instants. *)
Lemma interpolation_grid_witness :
  exists out,
    build_series15 (demo_json None) 0 0 (Some 2) (Some 1) 900000 = Ok (Some out)
    /\ time out = [0; 900000; 1800000; 2700000]
    /\ length (time out) = 4%nat.
Proof.
  destruct (interpolation_grid (demo_json None) 0 0 2 1 900000) as (Hshape & Hsome & _);
    [lia|lia|reflexivity|].
  destruct (Hsome eq_refl) as [out Hb].
  exists out. split; [exact Hb|].
  destruct (Hshape (Some out) Hb) as (out' & Heq & Hlen & _).
  injection Heq as <-. split; [|exact Hlen].
  vm_compute in Hb. injection Hb as <-. reflexivity.
Defined.

(** X9: where the bucket-aggregation path applies (minutely data upstream,
    coordinates in a supported region) and no native sample falls into the
    window, [series15] is an object whose six arrays are empty, not [null]:
    the interpolation path does not run in its place, whatever hourly data
    the upstream sent and however many steps were asked for. *)
Theorem empty_window_is_not_interpolated (json : MarineJson) (lat lon : float)
    (minutely : Minutely) (forecastSteps pastSteps now : Z) :
  hasMinutely json = true -> inSupportedRegion lat lon = true ->
  mj_minutely json = Some minutely ->
  Forall (fun t => t < now - pastSteps * stepMs \/ now + forecastSteps * stepMs < t)
    (default [] (mn_time minutely)) ->
  build_series15 json lat lon (Some forecastSteps) (Some pastSteps) now
  = Ok (Some empty_series).
Proof.
  intros Hmin Hreg Hm Hout.
  unfold build_series15, chosen_path. rewrite Hmin, Hreg, Hm. simpl.
  rewrite path_a_spec. cbv zeta.
  set (buckets := fill_buckets _ _ _ _ _ _).
  assert (Hempty : buckets = ∅).
  { apply map_eq. intros k. rewrite lookup_empty.
    destruct (buckets !! k) as [b|] eqn:Hb; [|done].
    apply bucket_has_sample in Hb as (t & Hin & Hw & _).
    rewrite Forall_forall in Hout. specialize (Hout t Hin).
    unfold in_window, lt_bound, gt_bound in Hw. simpl in Hw.
    destruct (Z.ltb_spec t (now - pastSteps * stepMs)),
      (Z.ltb_spec (now + forecastSteps * stepMs) t); simpl in Hw; try done; lia. }
  rewrite Hempty. unfold sorted_keys. rewrite map_to_list_empty. done.
Qed.

(** The only native sample is older than the window. *)
Lemma empty_window_is_not_interpolated_witness :
  let minutely :=
    {| mn_time := Some [0]; mn_shortwave_radiation := Some [Some 5%float];
       mn_other_keys := 0 |} in
  wantMinutely15 (Some 4) (Some 0) = true
  /\ build_series15 (demo_json (Some minutely)) 50 10 (Some 4) (Some 0) 1000
     = Ok (Some empty_series).
Proof.
  intros minutely. split; [reflexivity|].
  apply (empty_window_is_not_interpolated (demo_json (Some minutely)) 50 10 minutely 4 0 1000).
  - reflexivity.
  - reflexivity.
  - reflexivity.
  - constructor; [left; unfold stepMs; simpl; lia|constructor].
Defined.

(** X10: in the bucket-aggregation path every output instant is a whole
    multiple of 15 minutes, and lies no more than one step before the
    start of the window and not after its end. *)
Theorem bucket_keys_aligned (json : MarineJson) (lat lon : float)
    (forecastSteps pastSteps now : Z) (out : Series15) :
  chosen_path json lat lon (Some forecastSteps) (Some pastSteps) = PathA ->
  build_series15 json lat lon (Some forecastSteps) (Some pastSteps) now = Ok (Some out) ->
  Forall (fun k => k mod stepMs = 0
                   /\ now - pastSteps * stepMs - stepMs < k <= now + forecastSteps * stepMs)
    (time out).
Proof.
  intros Hpath. unfold build_series15. rewrite Hpath.
  destruct (mj_minutely json) as [minutely|]; [|done].
  rewrite path_a_spec. cbv zeta. intros [= <-]. simpl.
  apply Forall_forall. intros k Hk.
  apply sorted_keys_elem in Hk as [b Hb].
  apply bucket_has_sample in Hb as (t & _ & Hw & <-).
  destruct (bucket_of_aligned t) as [Hmod Hnear]. split; [done|].
  unfold in_window, lt_bound, gt_bound, startTs_of, endTs_of in Hw. simpl in Hw.
  destruct (Z.ltb_spec t (now - pastSteps * stepMs)),
    (Z.ltb_spec (now + forecastSteps * stepMs) t); simpl in Hw; try done; lia.
Qed.

(** The demonstration samples fall into the buckets 0 and 900000. *)
Lemma bucket_keys_aligned_witness :
  Forall (fun k => k mod stepMs = 0 /\ 0 - 0 * stepMs - stepMs < k <= 0 + 1 * stepMs)
    (time demo_series).
Proof.
  apply (bucket_keys_aligned (demo_json (Some demo_minutely)) 50 10 1 0 0 demo_series).
  - reflexivity.
  - vm_compute. reflexivity.
Defined.

(** X11: when the upstream sent no hourly block, or one without times, a
    series of the interpolation path still holds the whole grid, with
    [null] at every instant for [wave_height], [windspeed_10m] and
    [shortwave_radiation]; and the path returns a series over every window
    the loop fills (its two ends time values of a [Date], at most 2^32 - 1
    instants). *)
Theorem interpolation_without_hourly (hourly : option Hourly) (startTs endTs : Z) :
  match hourly with
  | Some h => default [] (hr_time h) = []
  | None => True
  end ->
  (forall out,
     path_b hourly startTs endTs = Ok out ->
     time out = grid startTs endTs
     /\ wave_height out = replicate (length (grid startTs endTs)) JNull
     /\ windspeed_10m out = replicate (length (grid startTs endTs)) JNull
     /\ shortwave_radiation out = replicate (length (grid startTs endTs)) JNull)
  /\ (fillable startTs endTs = true ->
      exists out, path_b hourly startTs endTs = Ok out).
Proof.
  intros Hnone. split; [|apply path_b_total].
  intros out Hb.
  assert (Hpts : hourly_points hourly = []).
  { unfold hourly_points. destruct hourly as [h|]; [|done]. by rewrite Hnone. }
  destruct (path_b_rows hourly startTs endTs out Hb) as [Ht Hrows].
  destruct (path_b_lengths hourly startTs endTs out Hb) as (_ & Hw & Hwi & Hs & _).
  split; [done|].
  rewrite Ht in Hw, Hwi, Hs.
  assert (Hcell : forall k t, grid startTs endTs !! k = Some t ->
            wave_height out !! k = Some JNull
            /\ windspeed_10m out !! k = Some JNull
            /\ shortwave_radiation out !! k = Some JNull).
  { intros k t Hk. destruct (Hrows k t Hk) as (v & Hv & -> & -> & -> & _).
    rewrite Hpts in Hv. injection Hv as <-. done. }
  repeat split; apply list_eq; intros k;
    (destruct (grid startTs endTs !! k) as [t|] eqn:Hk;
     [ destruct (Hcell k t Hk) as (H1 & H2 & H3);
       rewrite lookup_replicate_2 by (by eapply lookup_lt_Some); done
     | rewrite lookup_ge_None_2 by (apply lookup_ge_None in Hk; lia);
       symmetry; apply lookup_ge_None_2; rewrite length_replicate;
       by apply lookup_ge_None in Hk ]).
Qed.

(** No hourly block at all, over a window of two instants. *)
Lemma interpolation_without_hourly_witness :
  exists out,
    path_b None 0 900000 = Ok out
    /\ time out = [0; 900000]
    /\ wave_height out = [JNull; JNull]
    /\ windspeed_10m out = [JNull; JNull]
    /\ shortwave_radiation out = [JNull; JNull].
Proof.
  destruct (interpolation_without_hourly None 0 900000 I) as [Hvalues Hsome].
  destruct (Hsome eq_refl) as [out Hout].
  exists out. split; [exact Hout|]. exact (Hvalues out Hout).
Defined.

(** X12: a step count that does not start with an integer is NaN, and
    then the interpolation path never runs: outside the bucket-aggregation
    path [series15] is [null], whatever the other count is. *)
Theorem unparsable_steps_skip_interpolation (q : gmap string string) (json : MarineJson)
    (lat lon : float) (now : Z) :
  let forecastSteps := steps q "forecast_minutely_15" "96" in
  let pastSteps := steps q "past_minutely_15" "0" in
  Str.parseInt (param_or q "forecast_minutely_15" "96") = None
  \/ Str.parseInt (param_or q "past_minutely_15" "0") = None ->
  chosen_path json lat lon forecastSteps pastSteps <> PathB
  /\ (hasMinutely json && inSupportedRegion lat lon = false ->
      build_series15 json lat lon forecastSteps pastSteps now = Ok None).
Proof.
  intros forecastSteps pastSteps Hnan.
  assert (Hwant : wantMinutely15 forecastSteps pastSteps = false).
  { unfold forecastSteps, pastSteps, steps, wantMinutely15.
    destruct Hnan as [-> | ->]; simpl; [done|]. by destruct (Z.max 0 <$> _). }
  unfold build_series15, chosen_path. rewrite Hwant.
  split; [by destruct (_ && _)|]. by intros ->.
Qed.

(** [?lat=0&lon=0&forecast_minutely_15=soon] *)
Lemma unparsable_steps_skip_interpolation_witness :
  let q : gmap string string :=
    <["lat" := "0"]> (<["lon" := "0"]> (<["forecast_minutely_15" := "soon"]> ∅)) in
  steps q "forecast_minutely_15" "96" = None
  /\ build_series15 (demo_json None) 0 0 (steps q "forecast_minutely_15" "96")
       (steps q "past_minutely_15" "0") 1000 = Ok None.
Proof.
  intros q. split; [reflexivity|].
  apply (unparsable_steps_skip_interpolation q (demo_json None) 0 0 1000).
  - left. reflexivity.
  - reflexivity.
Defined.

Module MockFacts.

Import MockShape.

Section Mock.
Context {B : Type}.
Variables (Math_sin : float -> float) (getHours : Z -> Z).
Implicit Types w : world B.

Lemma only_draws_refl w : only_draws w w.
Proof. by unfold only_draws. Qed.

Lemma only_draws_trans w1 w2 w3 : only_draws w1 w2 -> only_draws w2 w3 -> only_draws w1 w3.
Proof.
  unfold only_draws.
  intros (-> & -> & -> & -> & -> & -> & ->) (-> & -> & -> & -> & -> & -> & ->). done.
Qed.

(** The rows of a loop each pass of which returns a row that satisfies
    [P] after [lo] to [hi] random draws. *)
Lemma mock_rows_spec (row : Z -> M B (list jsval)) (P : Z -> list jsval -> Prop)
    (lo hi : nat) n first w :
  (forall i w, exists r w',
      row i w = (Ok r, w') /\ P i r /\ only_draws w w'
      /\ (draws w + lo <= draws w' <= draws w + hi)%nat) ->
  exists rows w',
    mock_rows row n first w = (Ok rows, w')
    /\ length rows = n
    /\ (forall (j : nat) r, rows !! j = Some r -> P (first + Z.of_nat j) r)
    /\ only_draws w w'
    /\ (draws w + n * lo <= draws w' <= draws w + n * hi)%nat.
Proof.
  intros Hrow. revert first w. induction n as [|n IH]; intros first w; simpl.
  - exists [], w. split; [done|]. split; [done|]. split; [done|].
    split; [apply only_draws_refl|lia].
  - destruct (Hrow first w) as (r & w1 & Hr & HP & Hs1 & Hd1).
    destruct (IH (first + 1) w1) as (rows & w2 & Hrs & Hlen & HPs & Hs2 & Hd2).
    exists (r :: rows), w2. unfold bind. rewrite Hr, Hrs.
    split; [done|]. split; [simpl; lia|]. split.
    + intros [|j] r' Hj; simpl in Hj.
      * injection Hj as <-. by rewrite Z.add_0_r.
      * replace (first + Z.of_nat (S j)) with (first + 1 + Z.of_nat j) by lia. by apply HPs.
    + split; [by eapply only_draws_trans|lia].
Qed.

Lemma mock_hourly_row_spec now i w :
  exists r w',
    mock_hourly_row Math_sin getHours now i w = (Ok r, w')
    /\ hourly_row_ok now i r /\ only_draws w w'
    /\ (draws w + 4 <= draws w' <= draws w + 7)%nat.
Proof.
  unfold mock_hourly_row, hourly_row_ok, only_draws.
  unfold bind, Math_random, ret. simpl.
  destruct (PrimFloat.ltb _ 0.15); simpl;
    (destruct (PrimFloat.ltb _ 0.05); simpl;
     [|destruct (PrimFloat.ltb _ 0.1); simpl;
       [|destruct (PrimFloat.ltb _ 0.2); simpl]]);
    eexists _, _; (split; [reflexivity|]); simpl;
    (split; [eexists _, _, _, _; split; [reflexivity|set_solver]|]);
    (split; [done|lia]).
Qed.

Lemma mock_daily_row_spec now d w :
  exists r w',
    mock_daily_row now d w = (Ok r, w')
    /\ daily_row_ok now d r /\ only_draws w w'
    /\ (draws w + 2 <= draws w' <= draws w + 2)%nat.
Proof.
  unfold mock_daily_row, daily_row_ok, only_draws.
  unfold bind, Math_random, ret. simpl.
  eexists _, _. split; [reflexivity|]. simpl.
  split; [by eexists _, _|]. split; [done|lia].
Qed.

(** The two loops of [generateMockForecast], run one after the other at
    the instant [now]. *)
Lemma mock_loops_run now w :
  exists hours w1 days w2,
    mock_rows (mock_hourly_row Math_sin getHours now) 48 0 w = (Ok hours, w1)
    /\ length hours = 48%nat
    /\ (forall (j : nat) r, hours !! j = Some r -> hourly_row_ok now (0 + Z.of_nat j) r)
    /\ mock_rows (mock_daily_row now) 7 0 w1 = (Ok days, w2)
    /\ length days = 7%nat
    /\ (forall (j : nat) r, days !! j = Some r -> daily_row_ok now (0 + Z.of_nat j) r)
    /\ only_draws w w2
    /\ (draws w + 206 <= draws w2 <= draws w + 350)%nat.
Proof.
  destruct (mock_rows_spec (mock_hourly_row Math_sin getHours now)
              (hourly_row_ok now) 4 7 48 0 w)
    as (hours & w1 & Hh & Hlh & HPh & Hs1 & Hd1).
  { intros i w0. apply mock_hourly_row_spec. }
  destruct (mock_rows_spec (mock_daily_row now) (daily_row_ok now) 2 2 7 0 w1)
    as (days & w2 & Hd & Hld & HPd & Hs2 & Hd2).
  { intros i w0. apply mock_daily_row_spec. }
  exists hours, w1, days, w2. split; [exact Hh|]. split; [exact Hlh|]. split; [exact HPh|].
  split; [exact Hd|]. split; [exact Hld|]. split; [exact HPd|].
  split; [by eapply only_draws_trans|lia].
Qed.

End Mock.

End MockFacts.

Import MockShape MockFacts.

(** Looks a key up in a chain of insertions. *)
Ltac look :=
  repeat first [ rewrite lookup_insert_eq | rewrite lookup_insert_ne by done ].

(** X13: [generateMockForecast] always returns, and what it returns has a
    fixed shape: coordinates that are numbers and never NaN, five hourly
    arrays of 48 entries and three daily arrays of 7, the hourly times one
    hour apart from the instant of the call, every weather code one of 0,
    3, 51 and 95, and a current weather stamped with the first hourly time;
    it calls no upstream, writes no cache entry, and draws between 206 and
    350 random numbers. *)
Theorem mock_forecast_shape {B} (Math_sin : float -> float) (getHours : Z -> Z)
    (lat lon : jsval) (w : world B) :
  exists (hourly daily current : jsobj) (latitude longitude : float)
         (times codes : list jsval) (w' : world B),
    generateMockForecast Math_sin getHours lat lon w
    = (Ok (JObj (<["latitude" := JNum latitude]> (<["longitude" := JNum longitude]>
                (<["current_weather" := JObj current]> (<["hourly" := JObj hourly]>
                (<["daily" := JObj daily]> ∅)))))), w')
    /\ PrimFloat.is_nan latitude = false /\ PrimFloat.is_nan longitude = false
    /\ (forall k, k ∈ ["time"; "temperature_2m"; "precipitation"; "weathercode";
                       "windspeed_10m"] ->
          exists l, hourly !! k = Some (JArr l) /\ length l = 48%nat)
    /\ (forall k, k ∈ ["time"; "temperature_2m_max"; "temperature_2m_min"] ->
          exists l, daily !! k = Some (JArr l) /\ length l = 7%nat)
    /\ hourly !! "time" = Some (JArr times)
    /\ (forall i : nat, (i < 48)%nat ->
          times !! i = Some (JStr (Str.toISOString (clock w + Z.of_nat i * 60 * 60 * 1000))))
    /\ hourly !! "weathercode" = Some (JArr codes)
    /\ Forall (fun c => exists x, c = JNum x /\ x ∈ [0%float; 3%float; 51%float; 95%float])
         codes
    /\ current !! "time" = Some (JStr (Str.toISOString (clock w)))
    /\ current !! "interval" = Some (JNum 900)
    /\ only_draws w w'
    /\ (draws w + 206 <= draws w' <= draws w + 350)%nat.
Proof.
  unfold generateMockForecast. unfold bind at 1, Date_now.
  destruct (mock_loops_run Math_sin getHours (clock w) w)
    as (hours & w1 & days & w2 & Hh & Hlh & HPh & Hd & Hld & HPd & Hs & Hdraws).
  unfold bind at 1. rewrite Hh. unfold bind at 1. rewrite Hd. unfold ret.
  assert (Hnan : forall v, exists x, coordinate_or_0 v = JNum x /\ PrimFloat.is_nan x = false).
  { intros v. unfold coordinate_or_0. eexists. split; [reflexivity|].
    unfold Num.num_truthy. destruct (PrimFloat.is_nan (parseFloat_val v)) eqn:E; [|by destruct (_ || _)].
    by rewrite orb_true_r. }
  destruct (Hnan lat) as (latitude & -> & Hlat).
  destruct (Hnan lon) as (longitude & -> & Hlon).
  assert (Hfirst : exists r0, hours !! 0%nat = Some r0 /\ hourly_row_ok (clock w) 0 r0).
  { destruct (lookup_lt_is_Some_2 hours 0) as [r0 Hr0]; [lia|].
    exists r0. split; [done|]. by apply (HPh 0%nat). }
  destruct Hfirst as (r0 & Hr0 & (t0 & p0 & c0 & s0 & -> & _)).
  eexists _, _, _, latitude, longitude, _, _, w2.
  split; [reflexivity|]. split; [done|]. split; [done|].
  split; [|split; [|split; [|split; [|split; [|split; [|split; [|split]]]]]]].
  - intros k Hk. repeat (apply elem_of_cons in Hk as [-> | Hk]);
      [..|inversion Hk]; look; unfold column;
      (eexists; split; [reflexivity|by rewrite length_fmap]).
  - intros k Hk. repeat (apply elem_of_cons in Hk as [-> | Hk]);
      [..|inversion Hk]; look; unfold column;
      (eexists; split; [reflexivity|by rewrite length_fmap]).
  - look. reflexivity.
  - intros i Hi. rewrite list_lookup_fmap.
    destruct (lookup_lt_is_Some_2 hours i) as [r Hr]; [lia|]. rewrite Hr. simpl.
    destruct (HPh i r Hr) as (t & p & c & s & -> & _). simpl. by do 3 f_equal.
  - look. reflexivity.
  - apply Forall_fmap, Forall_forall. intros r Hr.
    apply list_elem_of_lookup in Hr as [i Hr].
    destruct (HPh i r Hr) as (t & p & c & s & -> & Hc).
    exists c. split; [reflexivity|exact Hc].
  - look. rewrite head_lookup, Hr0. simpl. do 3 f_equal. lia.
  - look. reflexivity.
  - split; [exact Hs|exact Hdraws].
Qed.

(** ** The order of the doubles *)

Module FloatOrder.

Lemma SFleb_trans x y z : SFleb x y = true -> SFleb y z = true -> SFleb x z = true.
Proof.
  unfold SFleb, SFcompare.
  destruct x as [sx|sx| |sx mx ex], y as [sy|sy| |sy my ey], z as [sz|sz| |sz mz ez];
    try destruct sx; try destruct sy; try destruct sz; simpl; try done;
    try (destruct (Z.compare_spec ex ey); try done);
    try (destruct (Z.compare_spec ey ez); try done);
    try (destruct (Z.compare_spec ex ez); try lia);
    subst; try done; try lia;
    rewrite ?Pos.compare_cont_spec; simpl;
    try (destruct (Pos.compare_spec mx my); simpl; try done);
    try (destruct (Pos.compare_spec my mz); simpl; try done);
    try (destruct (Pos.compare_spec mx mz); simpl; try done);
    subst; try done; try lia.
Qed.

Lemma leb_trans x y z :
  PrimFloat.leb x y = true -> PrimFloat.leb y z = true -> PrimFloat.leb x z = true.
Proof. rewrite !leb_spec. apply SFleb_trans. Qed.

End FloatOrder.

(** ** Air quality *)

Module AirQualityFacts.

Import AirQualityData FloatOrder.

Lemma latest_spec h n :
  match latest h n with
  | Some i => (i < n)%nat /\ measured h i = true
              /\ forall j, (i < j < n)%nat -> measured h j = false
  | None => forall j, (j < n)%nat -> measured h j = false
  end.
Proof.
  induction n as [|n IH]; simpl; [intros; lia|].
  destruct (measured h n) eqn:Hn.
  - split; [lia|]. split; [done|]. intros; lia.
  - destruct (latest h n) as [i|].
    + destruct IH as (Hi & Hm & Hlater). split; [lia|]. split; [done|].
      intros j Hj. destruct (decide (j = n)) as [->|]; [done|]. apply Hlater. lia.
    + intros j Hj. destruct (decide (j = n)) as [->|]; [done|]. apply IH. lia.
Qed.

(** A value that is in a class is in every class above it. *)
Lemma class_up x y c :
  PrimFloat.leb x y = true -> PrimFloat.leb y c = true -> PrimFloat.leb x c = true.
Proof. apply leb_trans. Qed.

End AirQualityFacts.

Import AirQualityData FloatOrder AirQualityFacts.

(** X14: the air quality route reports the latest hour that has a PM2.5
    or a PM10 value: the sample is [null] exactly when no hour of the
    [time] array has one, and otherwise it is taken, field by field, at the
    greatest such index (a pollutant whose array is missing reads as
    [null]). *)
Theorem latest_sample (h : AqHourly) :
  let n := length (default [] (aq_time h)) in
  match sample h with
  | None => forall i, (i < n)%nat -> measured h i = false
  | Some s =>
      exists i t,
        (i < n)%nat /\ measured h i = true
        /\ (forall j, (i < j < n)%nat -> measured h j = false)
        /\ default [] (aq_time h) !! i = Some t /\ s_time s = JStr t
        /\ s_pm2_5 s = pick (aq_pm2_5 h) i /\ s_pm10 s = pick (aq_pm10 h) i
        /\ s_co s = pick (aq_carbon_monoxide h) i
        /\ s_no2 s = pick (aq_nitrogen_dioxide h) i
        /\ s_so2 s = pick (aq_sulphur_dioxide h) i
        /\ s_o3 s = pick (aq_ozone h) i
  end.
Proof.
  intros n. unfold sample, latestIdx. fold n.
  pose proof (latest_spec h n) as H.
  destruct (latest h n) as [i|]; [|done].
  destruct H as (Hi & Hm & Hlater).
  destruct (lookup_lt_is_Some_2 (default [] (aq_time h)) i Hi) as [t Ht].
  exists i, t. rewrite Ht. simpl. done.
Qed.

(** X15: the PM2.5 category rises with the concentration: a greater
    value never gets a lower index; a value gets an index from 1 to 6 and
    a missing one ([null] or [undefined]) the index 0; and the label goes
    with the index. *)
Theorem pm25Category_monotone :
  (forall x y, PrimFloat.leb x y = true ->
     idx (pm25Category (Value x)) <= idx (pm25Category (Value y)))
  /\ (forall v, 0 <= idx (pm25Category v) <= 6
                /\ (idx (pm25Category v) = 0 <-> forall x, v <> Value x))
  /\ (forall v w, idx (pm25Category v) = idx (pm25Category w) <->
                  label (pm25Category v) = label (pm25Category w)).
Proof.
  split; [|split].
  - intros x y Hxy. unfold pm25Category.
    destruct (PrimFloat.leb y 12.0) eqn:H1.
    { by rewrite (class_up x y _ Hxy H1). }
    destruct (PrimFloat.leb y 35.4) eqn:H2.
    { rewrite (class_up x y _ Hxy H2). destruct (PrimFloat.leb x 12.0); simpl; lia. }
    destruct (PrimFloat.leb y 55.4) eqn:H3.
    { rewrite (class_up x y _ Hxy H3).
      destruct (PrimFloat.leb x 12.0), (PrimFloat.leb x 35.4); simpl; lia. }
    destruct (PrimFloat.leb y 150.4) eqn:H4.
    { rewrite (class_up x y _ Hxy H4).
      destruct (PrimFloat.leb x 12.0), (PrimFloat.leb x 35.4), (PrimFloat.leb x 55.4);
        simpl; lia. }
    destruct (PrimFloat.leb y 250.4) eqn:H5.
    { rewrite (class_up x y _ Hxy H5).
      destruct (PrimFloat.leb x 12.0), (PrimFloat.leb x 35.4), (PrimFloat.leb x 55.4),
        (PrimFloat.leb x 150.4); simpl; lia. }
    destruct (PrimFloat.leb x 12.0), (PrimFloat.leb x 35.4), (PrimFloat.leb x 55.4),
      (PrimFloat.leb x 150.4), (PrimFloat.leb x 250.4); simpl; lia.
  - intros [x| |]; unfold pm25Category.
    + destruct (PrimFloat.leb x 12.0), (PrimFloat.leb x 35.4), (PrimFloat.leb x 55.4),
        (PrimFloat.leb x 150.4), (PrimFloat.leb x 250.4); simpl;
        (split; [lia|]); (split; [lia|intros H; by destruct (H x)]).
    + simpl. split; [lia|]. by split.
    + simpl. split; [lia|]. by split.
  - intros v w. unfold pm25Category.
    destruct v as [x| |], w as [y| |];
      repeat match goal with
             | |- context [PrimFloat.leb ?a ?b] => destruct (PrimFloat.leb a b)
             end; simpl; split; intros H; first [done | lia | discriminate H].
Qed.

(** ** Climate *)

Module ClimateFacts.

Import ClimateData.

(** A year's bucket after the loop has added the values [vs] to it. *)
Lemma add_values b vs :
  foldl (fun b v => Bucket (sum b + v) (count b + 1)) b vs
  = Bucket (foldl (fun a v => (a + v)%float) (sum b) vs) (count b + Z.of_nat (length vs)).
Proof.
  revert b. induction vs as [|v vs IH]; intros [s c]; simpl.
  - f_equal. lia.
  - rewrite IH. simpl. f_equal. lia.
Qed.

Lemma year_values_cons vals i t rest y :
  year_values vals i (t :: rest) y
  = match (if decide (t = y) then cell vals i else None) with
    | Some v => v :: year_values vals (S i) rest y
    | None => year_values vals (S i) rest y
    end.
Proof.
  unfold year_values. simpl. rewrite Nat.add_0_r.
  replace (imap ((fun j t0 => (t0, cell vals (i + j))) ∘ S) rest)
    with (imap (fun j t0 => (t0, cell vals (S i + j))) rest).
  - by destruct (decide (t = y)); [destruct (cell vals i)|].
  - apply imap_ext. intros j x _. simpl. do 2 f_equal. lia.
Qed.

Lemma fill_years_lookup vals i time m y :
  fill_years vals i time m !! y =
    match year_values vals i time y with
    | [] => m !! y
    | vs => Some (foldl (fun b v => Bucket (sum b + v) (count b + 1))
                    (default (Bucket 0 0) (m !! y)) vs)
    end.
Proof.
  revert i m. induction time as [|t rest IH]; intros i m; [done|].
  simpl fill_years. rewrite IH, year_values_cons.
  destruct (decide (t = y)) as [->|Hne].
  - destruct (cell vals i) as [v|]; [|done].
    rewrite lookup_insert_eq. simpl. by destruct (year_values vals (S i) rest y).
  - destruct (cell vals i) as [v|]; [|done].
    by rewrite lookup_insert_ne.
Qed.

Lemma yearsMap_lookup daily y :
  yearsMap_of daily !! y =
    match year_values (cd_temperature_2m_mean daily) 0 (default [] (cd_time daily)) y with
    | [] => None
    | vs => Some (Bucket (reduce_sum vs) (Z.of_nat (length vs)))
    end.
Proof.
  unfold yearsMap_of. rewrite fill_years_lookup, lookup_empty.
  destruct (year_values _ _ _ _) as [|v vs] eqn:E; [done|].
  rewrite add_values. done.
Qed.

(** The mean of the values of a year. *)
Lemma annual_row_mean daily y :
  is_Some (yearsMap_of daily !! y) ->
  annual_row (yearsMap_of daily) y
  = Some (y, JNum (let vs := year_values (cd_temperature_2m_mean daily) 0
                               (default [] (cd_time daily)) y in
                   (reduce_sum vs / Num.Z2F (Z.of_nat (length vs)))%float)).
Proof.
  unfold annual_row. rewrite yearsMap_lookup.
  destruct (year_values _ _ _ _) as [|v vs] eqn:E; [by intros [? ?]|]. intros _.
  simpl. unfold bucket_mean. simpl count.
  destruct (Z.eqb_spec (Z.of_nat (length (v :: vs))) 0) as [H0|_]; [simpl in H0; lia|done].
Qed.

(** The rows of [annual]: one for every year of the map, with the mean of
    the year. *)
Lemma annual_rows daily :
  annual daily
  = Some ((fun y => (y, let vs := year_values (cd_temperature_2m_mean daily) 0
                                     (default [] (cd_time daily)) y in
                        (reduce_sum vs / Num.Z2F (Z.of_nat (length vs)))%float))
          <$> sorted_keys (yearsMap_of daily)).
Proof.
  unfold annual.
  assert (H : forall keys,
            (forall k, k ∈ keys -> is_Some (yearsMap_of daily !! k)) ->
            with_mean <$> mapM (annual_row (yearsMap_of daily)) keys
            = Some ((fun y => (y, let vs := year_values (cd_temperature_2m_mean daily) 0
                                             (default [] (cd_time daily)) y in
                              (reduce_sum vs / Num.Z2F (Z.of_nat (length vs)))%float))
                    <$> keys)).
  { induction keys as [|k keys IH]; intros Hin; [done|].
    cbn [mapM]. rewrite annual_row_mean by (apply Hin; left). simpl.
    specialize (IH (fun k' Hk' => Hin k' (list_elem_of_further _ _ _ Hk'))).
    destruct (mapM _ keys) as [rows|]; [|done]. simpl in *.
    injection IH as IH. unfold with_mean in *. simpl. by rewrite IH. }
  apply H. intros k. by rewrite sorted_keys_elem.
Qed.

Lemma fst_paired {A} (g : Z -> A) (l : list Z) : fst <$> ((fun y => (y, g y)) <$> l) = l.
Proof. induction l as [|x l IH]; [done|]. rewrite !fmap_cons. simpl. by rewrite IH. Qed.

End ClimateFacts.

Import ClimateData ClimateFacts.

(** X16: the annual means of the climate route: there is a row for a
    year exactly when a day of that year has a value that is not [null],
    the rows are in strictly ascending order of the year, and the mean of
    a row is the sum of the year's values, added in the order of the
    array, divided by their number (a day without a value counts for
    nothing). *)
Theorem annual_means (daily : ClimateDaily) :
  let values := year_values (cd_temperature_2m_mean daily) 0 (default [] (cd_time daily)) in
  exists rows,
    annual daily = Some rows
    /\ StronglySorted Z.lt (fst <$> rows)
    /\ (forall y, y ∈ fst <$> rows <-> values y <> [])
    /\ (forall y m, (y, m) ∈ rows ->
          m = (reduce_sum (values y) / Num.Z2F (Z.of_nat (length (values y))))%float).
Proof.
  intros values. eexists. split; [apply annual_rows|].
  rewrite fst_paired.
  split; [apply sorted_keys_increasing|]. split.
  - intros y. rewrite sorted_keys_elem, yearsMap_lookup. fold values.
    destruct (values y); split; intros H; try done.
  - intros y m Hin. apply list_elem_of_fmap in Hin as (y' & [= -> ->] & _). done.
Qed.

Module ClimateOutcome.

Lemma mean_or_null_None xs : mean_or_null xs = None <-> xs = [].
Proof. by destruct xs. Qed.

Lemma baselineVals_nil rows :
  baselineVals rows = [] <-> forall r, r ∈ rows -> ~ (baselineStart <= r.1 <= baselineEnd).
Proof.
  unfold baselineVals. split.
  - intros H%fmap_nil_inv r Hin HP. by apply (filter_nil_not_elem_of _ _ r H HP).
  - intros H. induction rows as [|r rows IH]; [done|].
    rewrite filter_cons_False by (apply H; left).
    apply IH. intros r' Hr'. apply H. by right.
Qed.

Lemma recentSlice_length rows :
  (recentYears <= length rows)%nat -> length (recentSlice rows) = recentYears.
Proof. intros. unfold recentSlice. rewrite length_fmap, length_drop. lia. Qed.

End ClimateOutcome.

Import ClimateOutcome.

(** X17: what the climate route makes of the upstream's JSON. Without a
    [daily] block that has both arrays it declines with a 502 and
    ['Climate data unavailable from upstream']; with fewer than five
    years of data, with a 502 and ['Insufficient climate data returned'];
    otherwise it builds the payload (it never throws), in which the recent
    mean is the mean of the last five annual means, and the baseline mean
    and with it the recent anomaly are [null] exactly when no year of the
    data lies in 1991-2020. *)
Theorem climate_summary (lat lon : string) (clampYears : Z) (startDate endDate : string)
    (json : ClimateJson) :
  let result := summary lat lon clampYears startDate endDate json in
  match usable_daily json with
  | None => result = Ok (inl "Climate data unavailable from upstream")
  | Some daily =>
      exists rows,
        annual daily = Some rows
        /\ ((length rows < 5)%nat -> result = Ok (inl "Insufficient climate data returned"))
        /\ ((5 <= length rows)%nat ->
            result = Ok (inr (trend_payload lat lon clampYears startDate endDate json rows))
            /\ recentSlice rows = snd <$> drop (length rows - 5) rows
            /\ length (recentSlice rows) = 5%nat
            /\ is_Some (mean_or_null (recentSlice rows))
            /\ (mean_or_null (baselineVals rows) = None <->
                forall r, r ∈ rows -> ~ (1991 <= r.1 <= 2020))
            /\ (recentAnomaly rows = None <-> mean_or_null (baselineVals rows) = None))
  end.
Proof.
  intros result. unfold result, summary.
  destruct (usable_daily json) as [daily|]; [|done].
  rewrite annual_rows. eexists. split; [reflexivity|].
  set (rows := _ <$> _). split.
  - intros Hlt. by rewrite (proj2 (Nat.ltb_lt _ _)).
  - intros Hge. rewrite (proj2 (Nat.ltb_ge _ _)) by done.
    split; [done|]. split; [done|].
    pose proof (recentSlice_length rows Hge) as Hlen.
    split; [done|]. split.
    { destruct (recentSlice rows); [done|by eexists]. }
    split; [by rewrite mean_or_null_None, baselineVals_nil|].
    unfold recentAnomaly.
    destruct (mean_or_null (baselineVals rows)); [|done].
    destruct (recentSlice rows); [done|]. simpl. by split.
Qed.

(** X18: the number of years of a climate request is always between 10
    and 100: a [years] parameter that is missing, does not start with an
    integer, or is 0 counts as 30; any other is clamped, so that a
    negative or a small one gives 10 and a large one 100. *)
Theorem climate_years_clamped (q : gmap string string) :
  let parsed := Str.parseInt (param_or q "years" "30") in
  10 <= clampYears_of q <= 100
  /\ (parsed = None \/ parsed = Some 0 -> clampYears_of q = 30)
  /\ (forall y, parsed = Some y -> y <> 0 ->
        clampYears_of q = if y <? 10 then 10 else if 100 <? y then 100 else y)
  /\ (q !! "years" = None \/ q !! "years" = Some "" -> clampYears_of q = 30).
Proof.
  intros parsed. unfold clampYears_of, years_of. fold parsed.
  split; [lia|]. split; [|split].
  - intros [-> | ->]; done.
  - intros y -> Hy. rewrite (proj2 (Z.eqb_neq _ _)) by done.
    destruct (Z.ltb_spec y 10), (Z.ltb_spec 100 y); lia.
  - intros Hq. unfold parsed, param_or. by destruct Hq as [-> | ->].
Qed.

Module ChartFacts.

Import Frontend.

Lemma push_if_labels arr label border background axis ds :
  ds_label <$> push_if arr label border background axis ds
  = (ds_label <$> ds) ++ (if arr is [] then [] else [label]).
Proof.
  unfold push_if. destruct arr; [by rewrite app_nil_r|]. by rewrite fmap_app.
Qed.

Lemma push_if_elem arr label border background axis ds d :
  d ∈ push_if arr label border background axis ds ->
  d ∈ ds \/ (ds_label d = label /\ ds_data d = arr /\ arr <> []).
Proof.
  unfold push_if. destruct arr as [|x arr]; [by left|].
  intros [?|?%list_elem_of_singleton]%elem_of_app; [by left|]. right. by subst.
Qed.

Lemma json_cell_undefined l :
  Forall (eq JUndefined) l -> Forall (eq None) (json_cell <$> l).
Proof. intros H. apply Forall_fmap. eapply Forall_impl; [exact H|]. by intros ? <-. Qed.

End ChartFacts.

Import Frontend ChartFacts.

(** X19: the chart the marine panel draws from a [series15] the route
    built: its labels are the ISO times of the series and every dataset is
    as long as the labels; from the bucket-aggregation path it has the
    solar dataset alone (or none, when the series is empty); from the
    interpolation path it has the five datasets wave, wind, solar, period
    and swell whenever the series has an instant, and the period and the
    swell dataset hold [null] at every instant. *)
Theorem marine_chart (json : MarineJson) (lat lon : float)
    (forecastSteps pastSteps : option Z) (now : Z) (out : Series15) :
  build_series15 json lat lon forecastSteps pastSteps now = Ok (Some out) ->
  exists c,
    buildChart (Some (received out)) = Some c
    /\ labels c = Str.toISOString <$> time out
    /\ (forall d, d ∈ datasets c -> length (ds_data d) = length (labels c))
    /\ match chosen_path json lat lon forecastSteps pastSteps with
       | PathA =>
           ds_label <$> datasets c = if time out is [] then [] else ["Solar (W/m²)"]
       | _ =>
           (time out <> [] ->
            ds_label <$> datasets c
            = ["Wave (m)"; "Wind (m/s)"; "Solar (W/m²)"; "Sig. wave period (s)"; "Swell (m)"])
           /\ forall d, d ∈ datasets c ->
                ds_label d = "Sig. wave period (s)" \/ ds_label d = "Swell (m)" ->
                Forall (eq None) (ds_data d)
       end.
Proof.
  intros Hb. eexists. split; [reflexivity|]. simpl labels.
  split; [done|]. unfold build_series15 in Hb.
  assert (Hlens : length (shortwave_radiation out) = length (time out)
                  /\ match chosen_path json lat lon forecastSteps pastSteps with
                     | PathA => wave_height out = [] /\ windspeed_10m out = []
                                /\ significant_wave_period out = [] /\ swell_height out = []
                     | _ => length (wave_height out) = length (time out)
                            /\ length (windspeed_10m out) = length (time out)
                            /\ length (significant_wave_period out) = length (time out)
                            /\ length (swell_height out) = length (time out)
                            /\ Forall (eq JUndefined) (significant_wave_period out)
                            /\ Forall (eq JUndefined) (swell_height out)
                     end).
  { destruct (chosen_path json lat lon forecastSteps pastSteps).
    - destruct (mj_minutely json) as [minutely|]; [|done].
      rewrite path_a_spec in Hb. injection Hb as <-. simpl. by rewrite length_fmap.
    - destruct forecastSteps as [f|], pastSteps as [p|]; try done.
      destruct (path_b _ _ _) as [s|] eqn:Hpb; [|done]. injection Hb as <-.
      apply path_b_lengths in Hpb as (Ht & ? & ? & ? & ? & ? & ? & ?). done.
    - done. }
  destruct Hlens as [Hsw Hrest].
  simpl datasets. simpl first_array. split.
  - intros d Hd. rewrite length_fmap.
    repeat (apply push_if_elem in Hd as [Hd|(_ & -> & Hne)];
            [|rewrite length_fmap;
              destruct (chosen_path json lat lon forecastSteps pastSteps);
              first [ lia
                    | destruct Hrest as (? & ? & ? & ? & _); lia
                    | destruct Hrest as (Hw & Hwi & Hp & Hs);
                      rewrite ?Hw, ?Hwi, ?Hp, ?Hs in Hne; done ]]).
    inversion Hd.
  - rewrite !push_if_labels. simpl.
    destruct (chosen_path json lat lon forecastSteps pastSteps).
    + destruct Hrest as (-> & -> & -> & ->). simpl.
      destruct (time out), (shortwave_radiation out); simpl in *; try done.
    + destruct Hrest as (Hw & Hwi & Hp & Hs & Hup & Hus). split.
      * intros Hne.
        destruct (time out); [done|].
        destruct (wave_height out), (windspeed_10m out), (shortwave_radiation out),
          (significant_wave_period out), (swell_height out); simpl in *; done.
      * intros d Hd Hlab.
        repeat (apply push_if_elem in Hd as [Hd|(Hl & -> & _)];
                [|first [ by apply json_cell_undefined
                        | rewrite Hl in Hlab; by destruct Hlab ]]).
        inversion Hd.
    + done.
Qed.

(** The chart of the demonstration series of the bucket-aggregation
    path. *)
Lemma marine_chart_witness :
  exists c,
    buildChart (Some (received demo_series)) = Some c
    /\ labels c = ["1970-01-01T00:00:00.000Z"; "1970-01-01T00:15:00.000Z"]
    /\ ds_label <$> datasets c = ["Solar (W/m²)"].
Proof.
  destruct (marine_chart (demo_json (Some demo_minutely)) 50 10 (Some 1) (Some 0) 0 demo_series)
    as (c & Hc & Hl & _ & Hd).
  - vm_compute. reflexivity.
  - exists c. split; [exact Hc|]. split; [rewrite Hl; reflexivity|]. exact Hd.
Defined.

(** X20: the air quality panel has a colour and an advice of its own for
    every category the route can report: the grey of the default and
    ['Air quality data unavailable.'] are shown exactly for the category
    ['unknown'], and two categories share a colour only when they are the
    same. *)
Theorem air_quality_badge :
  (forall v,
     (categoryColor (idx (pm25Category v)) = "#90a4ae" <-> label (pm25Category v) = "unknown")
     /\ (healthAdvice (idx (pm25Category v)) = "Air quality data unavailable."
         <-> label (pm25Category v) = "unknown"))
  /\ (forall v w,
        categoryColor (idx (pm25Category v)) = categoryColor (idx (pm25Category w)) ->
        pm25Category v = pm25Category w).
Proof.
  split.
  - intros v. unfold pm25Category. destruct v as [x| |];
      repeat match goal with
             | |- context [PrimFloat.leb ?a ?b] => destruct (PrimFloat.leb a b)
             end; simpl; split; split; intros H; first [done | discriminate H].
  - intros v w. unfold pm25Category. destruct v as [x| |], w as [y| |];
      repeat match goal with
             | |- context [PrimFloat.leb ?a ?b] => destruct (PrimFloat.leb a b)
             end; simpl; intros H; first [done | discriminate H].
Qed.

(** X21: the frontend labels every weather code of a mock forecast: each
    of the 48 hourly codes [generateMockForecast] returns reads 'Clear',
    'Cloudy', 'Rain' or 'Thunderstorm', never 'Unknown', and has an icon
    other than the default; and for any code the label is 'Unknown'
    exactly when the icon is the default one. *)
Theorem mock_codes_have_labels {B} (Math_sin : float -> float) (getHours : Z -> Z)
    (lat lon : jsval) (w : world B) :
  (exists (mock hourly : jsobj) (codes : list jsval) (w' : world B),
     generateMockForecast Math_sin getHours lat lon w = (Ok (JObj mock), w')
     /\ mock !! "hourly" = Some (JObj hourly)
     /\ hourly !! "weathercode" = Some (JArr codes)
     /\ length codes = 48%nat
     /\ Forall (fun c => exists x,
                  c = JNum x
                  /\ mapWeatherCodeToLabel x ∈ ["Clear"; "Cloudy"; "Rain"; "Thunderstorm"]
                  /\ mapWeatherCodeToEmoji x <> "ℹ️") codes)
  /\ forall code, mapWeatherCodeToLabel code = "Unknown" <-> mapWeatherCodeToEmoji code = "ℹ️".
Proof.
  split.
  - destruct (mock_loops_run Math_sin getHours (clock w) w)
      as (hours & w1 & days & w2 & Hh & Hlh & HPh & Hd & _).
    unfold generateMockForecast. unfold bind at 1, Date_now.
    unfold bind at 1. rewrite Hh. unfold bind at 1. rewrite Hd. unfold ret.
    eexists _, _, _, w2. split; [reflexivity|].
    split; [look; reflexivity|]. split; [look; unfold column; reflexivity|].
    split; [rewrite length_fmap; exact Hlh|].
    apply Forall_fmap, Forall_forall. intros r Hr.
    apply list_elem_of_lookup in Hr as [i Hr].
    destruct (HPh i r Hr) as (t & p & x & s & -> & Hx).
    exists x. split; [reflexivity|].
    repeat (apply elem_of_cons in Hx as [-> | Hx]); [..|inversion Hx];
      clear; (split; [vm_compute; set_solver|vm_compute; discriminate]).
  - intros code. unfold mapWeatherCodeToLabel, mapWeatherCodeToEmoji.
    repeat match goal with
           | |- context [if ?c then _ else _] => destruct c
           end; split; intros H; first [done | discriminate H].
Qed.

Module ValidationFacts.







End ValidationFacts.

Import ValidationFacts.




(** X23: when the full forecast request has failed and the lightweight
    one succeeds, the forecast the route goes on with (and caches) is the
    object the fallback builds: it has the three properties [latitude],
    [longitude] and [current_weather], and no hourly or daily data. *)
Theorem forecast_light_fallback (Math_sin : float -> float) (getHours : Z -> Z)
    (city : string) (lat lon display_name : jsval) (w w1 w2 : world jsval)
    (e1 : js_error) (metData : jsval) :
  fetch_full lat lon w = (Throw e1, w1) ->
  fetch_light lat lon w1 = (Ok metData, w2) ->
  forecast_data Math_sin getHours city lat lon display_name w = (Ok (inl metData), w2)
  /\ exists o : jsobj,
       metData = JObj o
       /\ forall k, is_Some (o !! k) <->
                    k = "latitude" \/ k = "longitude" \/ k = "current_weather".
Proof.
  intros Hfull Hlight. split.
  - unfold forecast_data, try_catch. unfold bind at 1. rewrite Hfull.
    unfold bind at 1. by rewrite Hlight.
  - unfold fetch_light in Hlight.
    apply bind_inv in Hlight as [(resp & w3 & _ & Hrest)|(e & _ & [=])].
    destruct (ok resp); [|done].
    apply bind_inv in Hrest as [(lw & w4 & _ & Hrest)|(e & _ & [=])].
    apply bind_inv in Hrest as [(la & w5 & _ & Hrest)|(e & _ & [=])].
    apply bind_inv in Hrest as [(lo & w6 & _ & Hrest)|(e & _ & [=])].
    apply bind_inv in Hrest as [(cw & w7 & _ & Hrest)|(e & _ & [=])].
    injection Hrest as <- _. eexists. split; [done|].
    intros k. split.
    + intros Hk.
      destruct (decide (k = "latitude")) as [->|]; [by left|].
      destruct (decide (k = "longitude")) as [->|]; [by right; left|].
      destruct (decide (k = "current_weather")) as [->|]; [by right; right|].
      rewrite !lookup_insert_ne, lookup_empty in Hk by done. by destruct Hk.
    + intros [-> | [-> | ->]]; look; by eexists.
Qed.

(** The full request meets three 503s, the lightweight one an answer. *)
Lemma forecast_light_fallback_witness :
  let up (n : nat) : served jsval :=
    if (n <? 3)%nat then Served 5 (Responds (Response 503 None))
    else Served 5 (Responds (Response 200 (Some (JObj
           (<["latitude" := JNum 23.7]> (<["longitude" := JNum 90.4]>
           (<["current_weather" := JObj ∅]> (<["hourly" := JObj ∅]> ∅)))))))) in
  let w := world_at 1000 up (fun _ => 0.5%float) None in
  exists metData w2 o,
    forecast_data demo_sin demo_getHours "Dhaka" (JStr "23.7") (JStr "90.4") JUndefined w
    = (Ok (inl metData), w2)
    /\ metData = JObj o
    /\ ~ is_Some (o !! "hourly").
Proof.
  intros up w.
  destruct (fetch_full (JStr "23.7") (JStr "90.4") w) as [[m1|e1] w1] eqn:H1;
    [vm_compute in H1; discriminate H1|].
  destruct (fetch_light (JStr "23.7") (JStr "90.4") w1) as [[metData|e2] w2] eqn:H2;
    [|vm_compute in H1; injection H1 as _ <-; vm_compute in H2; discriminate H2].
  destruct (forecast_light_fallback demo_sin demo_getHours "Dhaka" (JStr "23.7") (JStr "90.4")
              JUndefined w w1 w2 e1 metData H1 H2) as (Hrun & o & Ho & Hkeys).
  exists metData, w2, o. split; [exact Hrun|]. split; [exact Ho|].
  intros Hk. apply Hkeys in Hk as [Hk|[Hk|Hk]]; discriminate Hk.
Defined.

